(** * JCSV: a shallow embedding of the parser and the writer

    The development follows [example_jcsv_parser.py] and
    [example_jcsv_writer.py].  Python strings are ASCII strings, Python
    dictionaries are insertion-ordered association lists, exceptions are
    values of an error monad, and the pieces of pandas the two files
    call ([read_csv], [astype], [Series.apply], [to_csv]) are modelled on
    the fragment described next to each definition; what lies outside
    that fragment is reported as [Unmodelled]. *)

From Stdlib Require Import String Ascii List ZArith Bool Lia Arith.
From Stdlib Require Import DecimalString DecimalN DecimalPos.
Import ListNotations.
Open Scope string_scope.
Open Scope list_scope.

(** ** Exceptions *)

Inductive exn : Type :=
| KeyError (key : string)
| IndexError
| ValueError (what : string)
| TypeError (what : string)
| EmptyDataError
| ParserError (what : string)
| Unmodelled (what : string).

Inductive result (A : Type) : Type :=
| Ok (a : A)
| Raise (e : exn).

Arguments Ok {A} a.
Arguments Raise {A} e.

Definition bind {A B : Type} (c : result A) (k : A -> result B) : result B :=
  match c with
  | Ok a => k a
  | Raise e => Raise e
  end.

Definition rmap {A B : Type} (f : A -> B) (c : result A) : result B :=
  bind c (fun a => Ok (f a)).

Notation "x <- c ;; k" := (bind c (fun x => k))
  (at level 61, c at next level, right associativity).

Fixpoint mapM {A B : Type} (f : A -> result B) (l : list A) : result (list B) :=
  match l with
  | [] => Ok []
  | a :: r => b <- f a ;; bs <- mapM f r ;; Ok (b :: bs)
  end.

(** ** Python strings *)

Definition LF : ascii := "010"%char.
Definition CR : ascii := "013"%char.
Definition DQ : ascii := "034"%char.
Definition SQ : ascii := "039"%char.
Definition NUL : ascii := "000"%char.

(** [str.isspace] on the ASCII range: TAB, LF, VT, FF, CR, FS, GS, RS, US
    and the space. *)
Definition is_space (c : ascii) : bool :=
  let n := nat_of_ascii c in
  (((9 <=? n) && (n <=? 13)) || ((28 <=? n) && (n <=? 32)))%nat.

(** The whitespace of C's [isspace]: a space and the characters 9 to 13. *)
Definition is_cspace (c : ascii) : bool :=
  let n := nat_of_ascii c in (((9 <=? n) && (n <=? 13)) || (n =? 32))%nat.

Definition is_digit (c : ascii) : bool :=
  let n := nat_of_ascii c in ((48 <=? n) && (n <=? 57))%nat.

(** The class [[A-Za-z0-9_]] of the header pattern. *)
Definition is_ident_char (c : ascii) : bool :=
  let n := nat_of_ascii c in
  (((48 <=? n) && (n <=? 57)) || ((65 <=? n) && (n <=? 90))
   || ((97 <=? n) && (n <=? 122)) || (n =? 95))%nat.

Definition is_empty (s : string) : bool :=
  match s with EmptyString => true | String _ _ => false end.

(** Removing the characters of a class from the left and from the right
    end of a string. *)
Fixpoint lstrip_with (p : ascii -> bool) (s : string) : string :=
  match s with
  | EmptyString => EmptyString
  | String c r => if p c then lstrip_with p r else s
  end.

Fixpoint rstrip_with (p : ascii -> bool) (s : string) : string :=
  match s with
  | EmptyString => EmptyString
  | String c r =>
      let r' := rstrip_with p r in
      if p c && is_empty r' then EmptyString else String c r'
  end.

Definition lstrip : string -> string := lstrip_with is_space.
Definition rstrip : string -> string := rstrip_with is_space.

(** [s.strip()] *)
Definition strip (s : string) : string := rstrip (lstrip s).

(** [s.rstrip('\n')] *)
Definition rstrip_nl : string -> string := rstrip_with (Ascii.eqb LF).

(** [s.startswith(c)] and [s.endswith(c)] for a one-character [c]. *)
Definition startswith (c : ascii) (s : string) : bool :=
  match s with
  | String a _ => Ascii.eqb a c
  | EmptyString => false
  end.

Fixpoint endswith (c : ascii) (s : string) : bool :=
  match s with
  | EmptyString => false
  | String a EmptyString => Ascii.eqb a c
  | String _ r => endswith c r
  end.

(** [c in s] for a one-character [c]. *)
Fixpoint has_char (c : ascii) (s : string) : bool :=
  match s with
  | EmptyString => false
  | String a r => Ascii.eqb a c || has_char c r
  end.

(** [sub in s] *)
Fixpoint contains (sub s : string) : bool :=
  String.prefix sub s ||
  match s with
  | EmptyString => false
  | String _ r => contains sub r
  end.

Fixpoint drop_last (s : string) : string :=
  match s with
  | EmptyString => EmptyString
  | String _ EmptyString => EmptyString
  | String a r => String a (drop_last r)
  end.

(** [s[1:-1]] *)
Definition slice_1_m1 (s : string) : string :=
  match s with
  | EmptyString => EmptyString
  | String _ r => drop_last r
  end.

(** [s.split(c)]: every occurrence of [c] separates two parts. *)
Fixpoint split (c : ascii) (s : string) : list string :=
  match s with
  | EmptyString => [EmptyString]
  | String a r =>
      if Ascii.eqb a c then EmptyString :: split c r
      else match split c r with
           | h :: t => String a h :: t
           | [] => [String a EmptyString]
           end
  end.

(** [s.split(c, 1)] when [c in s]: the text before and after the first
    occurrence; [None] when [c] does not occur. *)
Fixpoint split1 (c : ascii) (s : string) : option (string * string) :=
  match s with
  | EmptyString => None
  | String a r =>
      if Ascii.eqb a c then Some (EmptyString, r)
      else match split1 c r with
           | Some (h, t) => Some (String a h, t)
           | None => None
           end
  end.

(** [sep.join(l)] *)
Fixpoint join (sep : string) (l : list string) : string :=
  match l with
  | [] => EmptyString
  | [x] => x
  | x :: r => x ++ sep ++ join sep r
  end.

(** Iterating over a string yields its one-character substrings. *)
Fixpoint chars (s : string) : list string :=
  match s with
  | EmptyString => []
  | String a r => String a EmptyString :: chars r
  end.

Fixpoint all_chars (p : ascii -> bool) (s : string) : bool :=
  match s with
  | EmptyString => true
  | String a r => p a && all_chars p r
  end.

Definition mem_str (x : string) (l : list string) : bool :=
  existsb (String.eqb x) l.

(** ** Integers as text *)

(** [str(n)] for a natural number. *)
Definition str_of_N (n : N) : string :=
  NilZero.string_of_uint (N.to_uint n).

(** [str(z)] *)
Definition str_of_Z (z : Z) : string :=
  match z with
  | Z0 => "0"
  | Zpos p => str_of_N (Npos p)
  | Zneg p => String "-" (str_of_N (Npos p))
  end.

(** A non-empty run of decimal digits, read in base ten. *)
Definition digits_value (s : string) : option N :=
  match NilZero.uint_of_string s with
  | Some d => Some (N.of_uint d)
  | None => None
  end.

(** Python accepts single underscores between digits in [int(s)]. *)
Fixpoint drop_underscores (prev_digit : bool) (s : string) : option string :=
  match s with
  | EmptyString => if prev_digit then Some EmptyString else None
  | String a r =>
      if Ascii.eqb a "_" then
        if prev_digit then drop_underscores false r else None
      else if is_digit a then
        match drop_underscores true r with
        | Some r' => Some (String a r')
        | None => None
        end
      else None
  end.

Definition signed_value (digits : string -> option N) (s : string) : option Z :=
  match s with
  | String "-" r =>
      match digits r with Some n => Some (- Z.of_N n)%Z | None => None end
  | String "+" r =>
      match digits r with Some n => Some (Z.of_N n) | None => None end
  | _ =>
      match digits s with Some n => Some (Z.of_N n) | None => None end
  end.

(** [int(s)]: surrounding whitespace (that of C's [isspace]: the
    separators 28 to 31, which [str.strip] removes, are not accepted here),
    a sign, digits with optional single underscores between them.  The
    interpreter's limit on the length of a numeral (4300 digits unless
    [sys.set_int_max_str_digits] changes it) is taken as lifted. *)
Definition py_int (s : string) : result Z :=
  let digits t :=
    match drop_underscores false t with
    | Some t' => digits_value t'
    | None => None
    end in
  match signed_value digits (rstrip_with is_cspace (lstrip_with is_cspace s)) with
  | Some z => Ok z
  | None => Raise (ValueError ("invalid literal for int() with base 10: " ++ s))
  end.

(** ** Python dictionaries

    A [dict] keeps its keys in insertion order; assigning to a key that is
    already present replaces the value and keeps the position. *)

Definition dict (V : Type) : Type := list (string * V).

Fixpoint dict_get {V : Type} (d : dict V) (k : string) : option V :=
  match d with
  | [] => None
  | (k', v) :: r => if String.eqb k' k then Some v else dict_get r k
  end.

Fixpoint dict_set {V : Type} (d : dict V) (k : string) (v : V) : dict V :=
  match d with
  | [] => [(k, v)]
  | (k', v') :: r =>
      if String.eqb k' k then (k', v) :: r else (k', v') :: dict_set r k v
  end.

Definition dict_mem {V : Type} (d : dict V) (k : string) : bool :=
  match dict_get d k with Some _ => true | None => false end.

Definition keys {V : Type} (d : dict V) : list string := map fst d.

(** [d[k]] *)
Definition dict_item {V : Type} (d : dict V) (k : string) : result V :=
  match dict_get d k with
  | Some v => Ok v
  | None => Raise (KeyError k)
  end.

(** [dict(zip(ks, vs))] *)
Fixpoint dict_zip {V : Type} (acc : dict V) (ks : list string) (vs : list V)
  : dict V :=
  match ks, vs with
  | k :: ks', v :: vs' => dict_zip (dict_set acc k v) ks' vs'
  | _, _ => acc
  end.

(** ** The metadata grammar ([_split_top_commas], [_parse_metadata]) *)

(** The loop state of [_split_top_commas]: the finished parts, the
    characters of the part being read, and the bracket depth. *)
Record split_state : Type := {
  parts : list string;
  buf : string;
  depth : Z
}.

Definition split_step (st : split_state) (ch : ascii) : split_state :=
  let depth' :=
    if Ascii.eqb ch "[" then (depth st + 1)%Z
    else if Ascii.eqb ch "]" then (depth st - 1)%Z
    else depth st in
  if Ascii.eqb ch "," && (depth' =? 0)%Z then
    {| parts := parts st ++ [strip (buf st)]; buf := EmptyString; depth := depth' |}
  else
    {| parts := parts st; buf := buf st ++ String ch EmptyString; depth := depth' |}.

Fixpoint split_loop (st : split_state) (s : string) : split_state :=
  match s with
  | EmptyString => st
  | String ch r => split_loop (split_step st ch) r
  end.

Definition _split_top_commas (s : string) : list string :=
  let st := split_loop {| parts := []; buf := EmptyString; depth := 0 |} s in
  parts st ++ [strip (buf st)].

(** A metadata value: a scalar, a list, or (under [dtypes]) a map from
    column to type tag. *)
Inductive md_value : Type :=
| Scalar (s : string)
| MList (items : list string)
| DTypeMap (d : dict string).

Definition metadata : Type := dict md_value.

Definition quoted (s : string) : bool :=
  (startswith DQ s && endswith DQ s) || (startswith SQ s && endswith SQ s).

Definition strip_quotes (s : string) : string :=
  if quoted s then slice_1_m1 s else s.

(** One round of the token loop of [_parse_metadata]. *)
Definition parse_token (md : metadata) (token : string) : metadata :=
  match split1 "=" token with
  | None => md
  | Some (key, val) =>
      let key := strip key in
      let val := strip val in
      if startswith "[" val && endswith "]" val then
        let inner := strip (slice_1_m1 val) in
        let items := _split_top_commas inner in
        dict_set md key (MList (map (fun it => strip_quotes (strip it)) items))
      else
        dict_set md key (Scalar (strip_quotes val))
  end.

(** What a [for] loop over a metadata value visits: the characters of a
    scalar, the items of a list, the keys of a map. *)
Definition iterate (v : md_value) : list string :=
  match v with
  | Scalar s => chars s
  | MList l => l
  | DTypeMap d => keys d
  end.

Definition parse_dtype_item (dt : dict string) (item : string) : dict string :=
  match split1 ":" item with
  | None => dt
  | Some (col, typ) => dict_set dt (strip col) (strip typ)
  end.

Definition _parse_metadata (s : string) : metadata :=
  let md := fold_left parse_token (_split_top_commas s) [] in
  match dict_get md "dtypes" with
  | None => md
  | Some v =>
      dict_set md "dtypes" (DTypeMap (fold_left parse_dtype_item (iterate v) []))
  end.

(** ** Tables

    A cell holds text, an integer, a floating-point number, a missing
    value, or (after reference resolution) a handle to another table of the
    document.  A handle is the name under which the table is stored: the
    tables of a document are created once and then only mutated in place,
    so a name denotes one object for the whole resolution pass.

    A floating-point number is represented by the text that [repr] prints
    for it.  Only numbers printed in positional notation with at most
    15 digits are represented this way; each such text denotes exactly one
    [float64].  [CFloatOfInt z] is the [float64] nearest to the integer
    [z]: it stands for the floats that [Series.apply] makes of the larger
    integers of a nullable column, whose text the model does not print. *)

Inductive cell : Type :=
| CStr (s : string)
| CInt (z : Z)
| CFloat (repr : string)
| CNull
| CRef (name : string)
| CFloatOfInt (z : Z).

(** The column types the development covers, with the name [str(dtype)]
    gives them. *)
Inductive dtype : Type := DObject | DInt64 | DInt64Ext | DFloat64.

Definition dtype_name (d : dtype) : string :=
  match d with
  | DObject => "object"
  | DInt64 => "int64"
  | DInt64Ext => "Int64"
  | DFloat64 => "float64"
  end.

Record Series : Type := { dtype_of : dtype; cells : list cell }.

(** A [DataFrame]: its columns in order, keyed by label. *)
Definition DataFrame : Type := dict Series.

Definition columns (df : DataFrame) : list string := keys df.

(** [len(df)] *)
Definition len_df (df : DataFrame) : nat :=
  match df with
  | [] => 0
  | (_, s) :: _ => List.length (cells s)
  end.

Definition row_at (i : nat) (df : DataFrame) : list cell :=
  map (fun c => nth i (cells (snd c)) CNull) df.

(** ** Floating-point text *)

Fixpoint leading_zeros (s : string) : nat :=
  match s with
  | String "0" r => S (leading_zeros r)
  | _ => 0
  end.

Definition canonical_int_part (ip : string) : bool :=
  negb (is_empty ip) && all_chars is_digit ip
  && ((ip =? "0") || negb (startswith "0" ip)).

Definition canonical_frac_part (fp : string) : bool :=
  negb (is_empty fp) && all_chars is_digit fp
  && ((fp =? "0") || negb (endswith "0" fp)).

(** The texts [repr] prints in positional notation for numbers of at most
    15 digits: an optional minus sign, an integer part without leading
    zeros, a point, a fractional part without trailing zeros, and at most
    three zeros after the point when the integer part is zero. *)
Definition is_float_repr (s : string) : bool :=
  let body := match s with String "-" r => r | _ => s end in
  match split1 "." body with
  | None => false
  | Some (ip, fp) =>
      canonical_int_part ip && canonical_frac_part fp
      && (String.length ip + String.length fp <=? 15)%nat
      && (negb (ip =? "0") || (fp =? "0") || (leading_zeros fp <=? 3)%nat)
  end.

(** [float(z)] *)
Definition float_of_Z (z : Z) : result cell :=
  let r := (str_of_Z z ++ ".0")%string in
  if is_float_repr r then Ok (CFloat r)
  else Raise (Unmodelled "float outside the positional range").

(** The integer a float equals, when it has no fractional part. *)
Definition int_of_float (r : string) : option Z :=
  match split1 "." r with
  | Some (ip, "0") => signed_value digits_value ip
  | _ => None
  end.

(** ** [pandas.read_csv]

    The model follows the C tokenizer with the default dialect (comma,
    double quote with doubling, blank lines skipped) and the default type
    inference.  Outside the model: carriage returns that end a line, a
    first data row longer than the header (pandas then builds an index from
    the extra columns; a later row is too long when it has more fields than
    both the header and the first data row), empty or repeated header names (pandas renames
    them), and tokens whose numeric reading the model cannot decide.

    The tokenizer keeps every field as a C string, so what follows a NUL
    character in a field is lost once the field is read: [cut_nul]. *)

Definition is_blank_char (c : ascii) : bool :=
  Ascii.eqb c " " || Ascii.eqb c "009".

Inductive tok_state : Type :=
| START_RECORD
| WHITESPACE_LINE (pending : string)
| START_FIELD
| IN_FIELD
| IN_QUOTED_FIELD
| QUOTE_IN_QUOTED_FIELD.

(** The tokenizer returns the records from the current one on; the first
    field of the first record is the rest of the field being read. *)
Definition push_char (c : ascii) (rows : list (list string)) : list (list string) :=
  match rows with
  | (f :: fs) :: rs => (String c f :: fs) :: rs
  | [] :: rs => [String c EmptyString] :: rs
  | [] => [[String c EmptyString]]
  end.

Fixpoint push_string (s : string) (rows : list (list string)) : list (list string) :=
  match s with
  | EmptyString => rows
  | String c r => push_char c (push_string r rows)
  end.

Definition end_field (rows : list (list string)) : list (list string) :=
  match rows with
  | r :: rs => (EmptyString :: r) :: rs
  | [] => [[EmptyString]]
  end.

Definition end_line (rows : list (list string)) : list (list string) :=
  [EmptyString] :: rows.

Definition eof_inside_string : exn := ParserError "EOF inside string".
Definition carriage_return : exn := Unmodelled "carriage return".

Fixpoint tokenize (st : tok_state) (s : string) : result (list (list string)) :=
  match s with
  | EmptyString =>
      match st with
      | START_RECORD | WHITESPACE_LINE _ => Ok []
      | IN_QUOTED_FIELD => Raise eof_inside_string
      | START_FIELD | IN_FIELD | QUOTE_IN_QUOTED_FIELD => Ok [[EmptyString]]
      end
  | String c r =>
      let in_field :=
        if Ascii.eqb c LF then rmap end_line (tokenize START_RECORD r)
        else if Ascii.eqb c CR then Raise carriage_return
        else if Ascii.eqb c "," then rmap end_field (tokenize START_FIELD r)
        else rmap (push_char c) (tokenize IN_FIELD r) in
      let start_field :=
        if Ascii.eqb c DQ then tokenize IN_QUOTED_FIELD r else in_field in
      match st with
      | START_RECORD =>
          if Ascii.eqb c LF then tokenize START_RECORD r
          else if is_blank_char c then
            tokenize (WHITESPACE_LINE (String c EmptyString)) r
          else start_field
      | WHITESPACE_LINE pending =>
          if Ascii.eqb c LF then tokenize START_RECORD r
          else if is_blank_char c then
            tokenize (WHITESPACE_LINE (pending ++ String c EmptyString)) r
          else rmap (push_string pending) in_field
      | START_FIELD => start_field
      | IN_FIELD => in_field
      | IN_QUOTED_FIELD =>
          if Ascii.eqb c DQ then tokenize QUOTE_IN_QUOTED_FIELD r
          else rmap (push_char c) (tokenize IN_QUOTED_FIELD r)
      | QUOTE_IN_QUOTED_FIELD =>
          if Ascii.eqb c DQ then rmap (push_char c) (tokenize IN_QUOTED_FIELD r)
          else in_field
      end
  end.

Fixpoint cut_nul (s : string) : string :=
  match s with
  | EmptyString => EmptyString
  | String c r => if Ascii.eqb c NUL then EmptyString else String c (cut_nul r)
  end.

(** The records of a text, as the conversions see their fields. *)
Definition tokens (text : string) : result (list (list string)) :=
  rmap (map (map cut_nul)) (tokenize START_RECORD text).

(** The strings read as a missing value. *)
Definition na_values : list string :=
  [""; "#N/A"; "#N/A N/A"; "#NA"; "-1.#IND"; "-1.#QNAN"; "-NaN"; "-nan";
   "1.#IND"; "1.#QNAN"; "<NA>"; "N/A"; "NA"; "NULL"; "NaN"; "n/a"; "nan";
   "null"].

Definition lower_char (c : ascii) : ascii :=
  let n := nat_of_ascii c in
  if ((65 <=? n) && (n <=? 90))%nat then ascii_of_nat (n + 32) else c.

Fixpoint lower (s : string) : string :=
  match s with
  | EmptyString => EmptyString
  | String c r => String (lower_char c) (lower r)
  end.

Definition unsigned (s : string) : string :=
  match s with
  | String "-" r => r
  | String "+" r => r
  | _ => s
  end.

(** Words pandas reads as a number, a truth value or (in some versions) a
    missing value. *)
Definition special_words : list string :=
  ["inf"; "infinity"; "nan"; "true"; "false"; "none"].

Fixpoint span (p : ascii -> bool) (s : string) : string * string :=
  match s with
  | EmptyString => (EmptyString, EmptyString)
  | String c r =>
      if p c then let (a, b) := span p r in (String c a, b)
      else (EmptyString, s)
  end.

Inductive shape : Type := NotNumber | Number | Unsure.

(** The floating-point converter: blanks, a sign, digits, a point and
    digits (one digit at least), an exponent, blanks.  The exponent is not
    modelled. *)
Definition number_shape (t : string) : shape :=
  let u := unsigned (lstrip_with is_cspace t) in
  let (d1, r1) := span is_digit u in
  let (d2, r2) :=
    match r1 with
    | String "." r => span is_digit r
    | _ => (EmptyString, r1)
    end in
  if is_empty d1 && is_empty d2 then NotNumber
  else match r2 with
       | EmptyString => Number
       | String c _ =>
           if Ascii.eqb (lower_char c) "e" then Unsure
           else if is_empty (lstrip_with is_cspace r2) then Number
           else NotNumber
       end.

(** The integer converter: blanks, a sign, digits, blanks. *)
Definition pandas_int (t : string) : option Z :=
  signed_value digits_value
    (rstrip_with is_cspace (lstrip_with is_cspace t)).

Definition in_int64 (z : Z) : bool :=
  ((- 2 ^ 63 <=? z) && (z <? 2 ^ 63))%Z.

Inductive tok_class : Type :=
| TNA
| TInt (z : Z)
| TFloat (repr : string)
| TText
| TUnknown.

Definition classify (t : string) : tok_class :=
  if mem_str t na_values then TNA
  else if is_float_repr t then TFloat t
  else match pandas_int t with
       | Some z => if in_int64 z then TInt z else TUnknown
       | None =>
           if mem_str (lower (unsigned t)) special_words then TUnknown
           else match number_shape t with
                | NotNumber => TText
                | _ => TUnknown
                end
       end.

Definition is_unknown (c : tok_class) : bool :=
  match c with TUnknown => true | _ => false end.
Definition is_text (c : tok_class) : bool :=
  match c with TText => true | _ => false end.
Definition is_int (c : tok_class) : bool :=
  match c with TInt _ => true | _ => false end.

Definition object_cell (t : string) : cell :=
  if mem_str t na_values then CNull else CStr t.

Definition int_cell (c : tok_class) : cell :=
  match c with TInt z => CInt z | _ => CNull end.

Definition float_cell (c : tok_class) : result cell :=
  match c with
  | TInt z => float_of_Z z
  | TFloat r => Ok (CFloat r)
  | _ => Ok CNull
  end.

(** Type inference for one column: integers when every token is an
    integer, floating point when every token is a number or missing, text
    as soon as one token is neither. *)
Definition infer_column (toks : list string) : result Series :=
  let cls := map classify toks in
  if existsb is_unknown cls then Raise (Unmodelled "type inference")
  else if existsb is_text cls then
    Ok {| dtype_of := DObject; cells := map object_cell toks |}
  else match toks with
       | [] => Ok {| dtype_of := DObject; cells := [] |}
       | _ =>
           if forallb is_int cls then
             Ok {| dtype_of := DInt64; cells := map int_cell cls |}
           else
             cs <- mapM float_cell cls ;;
             Ok {| dtype_of := DFloat64; cells := cs |}
       end.

Fixpoint nodupb (l : list string) : bool :=
  match l with
  | [] => true
  | x :: r => negb (mem_str x r) && nodupb r
  end.

Definition pad (w : nat) (row : list string) : list string :=
  row ++ repeat EmptyString (w - List.length row).

Definition too_long (w : nat) (row : list string) : bool :=
  (w <? List.length row)%nat.

Definition read_csv (text : string) : result DataFrame :=
  rows <- tokens text ;;
  match rows with
  | [] => Raise EmptyDataError
  | header :: data =>
      let w := List.length header in
      let expected := Nat.max w (List.length (hd [] data)) in
      if existsb (too_long expected) (tl data) then
        Raise (ParserError "Expected fewer fields")
      else if (w <? expected)%nat then
        Raise (Unmodelled "implicit index")
      else if existsb is_empty header || negb (nodupb header) then
        Raise (Unmodelled "header names")
      else
        let padded := map (pad w) data in
        cols <- mapM (fun k => infer_column (map (fun r => nth k r EmptyString) padded))
                     (seq 0 w) ;;
        Ok (combine header cols)
  end.

(** ** [DataFrame.astype]

    The parser casts to the nullable integer type ['Int64'] and to
    ['float'].  Casting a non-empty text column is outside the model. *)

Inductive target : Type := ToInt64 | ToFloat.

Definition cast_int_cell (c : cell) : result cell :=
  match c with
  | CFloat r =>
      match int_of_float r with
      | Some z => Ok (CInt z)
      | None => Raise (TypeError "cannot safely cast non-equivalent float64 to int64")
      end
  | CFloatOfInt _ => Raise (Unmodelled "float outside the positional range")
  | _ => Ok c
  end.

Definition cast_float_cell (c : cell) : result cell :=
  match c with
  | CInt z => float_of_Z z
  | _ => Ok c
  end.

Definition astype_series (t : target) (s : Series) : result Series :=
  match dtype_of s, cells s with
  | DObject, _ :: _ => Raise (Unmodelled "cast of a text column")
  | _, cs =>
      match t with
      | ToInt64 =>
          cs' <- mapM cast_int_cell cs ;;
          Ok {| dtype_of := DInt64Ext; cells := cs' |}
      | ToFloat =>
          cs' <- mapM cast_float_cell cs ;;
          Ok {| dtype_of := DFloat64; cells := cs' |}
      end
  end.

Fixpoint check_keys (df : DataFrame) (ks : list string) : result unit :=
  match ks with
  | [] => Ok tt
  | k :: r => if dict_mem df k then check_keys df r else Raise (KeyError k)
  end.

(** [df.astype(dtype_map)]: every key must be a column; the columns are
    then cast in table order. *)
Definition astype (df : DataFrame) (dtype_map : dict target) : result DataFrame :=
  _ <- check_keys df (keys dtype_map) ;;
  mapM (fun c : string * Series =>
          match dict_get dtype_map (fst c) with
          | Some t => s <- astype_series t (snd c) ;; Ok (fst c, s)
          | None => Ok c
          end) df.

Definition dtype_target (dm : dict target) (ct : string * string) : dict target :=
  if snd ct =? "int" then dict_set dm (fst ct) ToInt64
  else if snd ct =? "float" then dict_set dm (fst ct) ToFloat
  else dm.

(** Lines 146-156 of the parser. *)
Definition apply_dtypes (md : metadata) (df : DataFrame) : result DataFrame :=
  match dict_get md "dtypes" with
  | Some (DTypeMap dts) =>
      let dtype_map := fold_left dtype_target dts [] in
      match dtype_map with
      | [] => Ok df
      | _ => astype df dtype_map
      end
  | _ => Ok df
  end.

(** ** The parser ([parse_jcsv]) *)

(** [f.readlines()] in text mode: a line ends at LF, CR LF or CR, and
    keeps a final LF. *)
Definition newline : string := String LF EmptyString.

Definition extend_line (c : ascii) (ls : list string) : list string :=
  match ls with
  | h :: t => String c h :: t
  | [] => [String c EmptyString]
  end.

Fixpoint readlines (s : string) : list string :=
  match s with
  | EmptyString => []
  | String c r =>
      if Ascii.eqb c LF then newline :: readlines r
      else if Ascii.eqb c CR then
        match r with
        | String c' r' =>
            if Ascii.eqb c' LF then newline :: readlines r'
            else newline :: readlines r
        | EmptyString => [newline]
        end
      else extend_line c (readlines r)
  end.

Definition blank (l : string) : bool := is_empty (strip l).

Fixpoint skip_blank (lines : list string) : list string :=
  match lines with
  | [] => []
  | l :: r => if blank l then skip_blank r else lines
  end.

Definition comma_fields (s : string) : list string := map strip (split "," s).

(** The row loop of the manifest (lines 88-96).  The right-hand side of
    the assignment is evaluated before the subscript of its target. *)
Fixpoint manifest_rows (cols : list string) (lines : list string)
  (manifest_map : dict Z) : result (dict Z * list string) :=
  match lines with
  | [] => Ok (manifest_map, [])
  | l :: r =>
      let ln := strip l in
      if is_empty ln || startswith "#" ln then Ok (manifest_map, lines)
      else
        let vals := comma_fields ln in
        let row := dict_zip [] cols vals in
        sl <- dict_item row "start_line" ;;
        n <- py_int sl ;;
        t <- dict_item row "table" ;;
        manifest_rows cols r (dict_set manifest_map t n)
  end.

(** Lines 78-96: the manifest map and the lines that remain. *)
Definition read_manifest (lines : list string) : result (dict Z * list string) :=
  match skip_blank lines with
  | [] => Ok ([], [])
  | l :: r =>
      if strip l =? "#manifest" then
        match r with
        | [] => Raise IndexError
        | h :: r' => manifest_rows (comma_fields (strip h)) r' []
        end
      else Ok ([], l :: r)
  end.

(** The pattern [^#([A-Za-z0-9_]+)(\{.*\})?\s*$]: the name and the
    metadata group, when the line matches. *)
Definition header_re (line : string) : option (string * option string) :=
  match line with
  | String "#" r =>
      let (name, rest) := span is_ident_char r in
      let rest := rstrip rest in
      if is_empty name then None
      else if is_empty rest then Some (name, None)
      else if startswith "{" rest && endswith "}" rest
              && (2 <=? String.length rest)%nat && negb (has_char LF rest)
           then Some (name, Some rest)
      else None
  | _ => None
  end.

(** The document under construction. *)
Record doc : Type := {
  tables : dict DataFrame;
  metas : dict metadata
}.

(** The three loops of the block scanner are the three modes of one pass
    over the lines: looking for a block header (line 104), skipping blank
    lines before the CSV header (line 125), collecting the body
    (line 134). *)
Inductive mode : Type :=
| Scanning
| SeekColumns (block_name : string) (md : metadata)
| InBody (block_name : string) (md : metadata) (col_line : string)
         (data_buf : list string).

(** Lines 105-120 on one line: skip it, or open a block and record its
    metadata. *)
Definition scan_header (l : string) (d : doc) : mode * doc :=
  let line := strip l in
  if is_empty line then (Scanning, d)
  else match header_re line with
       | None => (Scanning, d)
       | Some (block_name, meta_str) =>
           let md :=
             match meta_str with
             | Some m => _parse_metadata (slice_1_m1 m)
             | None => []
             end in
           (SeekColumns block_name md,
            {| tables := tables d; metas := dict_set (metas d) block_name md |})
       end.

(** Lines 142-158: build the table of a block and store it. *)
Definition store_block (block_name : string) (md : metadata) (col_line : string)
  (data_buf : list string) (d : doc) : result doc :=
  let csv_text := join newline (col_line :: data_buf) in
  df <- read_csv csv_text ;;
  df <- apply_dtypes md df ;;
  Ok {| tables := dict_set (tables d) block_name df; metas := metas d |}.

(** One line of the scan.  A line that starts with [#] ends the body being
    collected; the block is stored and the same line is then looked at as
    a possible header. *)
Definition scan_line (l : string) (st : mode * doc) : result (mode * doc) :=
  let (m, d) := st in
  match m with
  | Scanning => Ok (scan_header l d)
  | SeekColumns block_name md =>
      if blank l then Ok (m, d)
      else Ok (InBody block_name md (rstrip_nl l) [], d)
  | InBody block_name md col_line data_buf =>
      if startswith "#" (strip l) then
        d1 <- store_block block_name md col_line data_buf d ;;
        Ok (scan_header l d1)
      else if blank l then Ok (m, d)
      else Ok (InBody block_name md col_line (data_buf ++ [rstrip_nl l]), d)
  end.

Fixpoint scan_lines (lines : list string) (st : mode * doc)
  : result (mode * doc) :=
  match lines with
  | [] => Ok st
  | l :: rest => st' <- scan_line l st ;; scan_lines rest st'
  end.

(** The end of the input: a body being collected is stored; a block whose
    CSV header was never found keeps its metadata and gets no table
    (line 128). *)
Definition scan_end (st : mode * doc) : result doc :=
  let (m, d) := st in
  match m with
  | Scanning => Ok d
  | SeekColumns _ _ => Ok d
  | InBody block_name md col_line data_buf =>
      store_block block_name md col_line data_buf d
  end.

Definition empty_doc : doc := {| tables := []; metas := [] |}.

(** Lines 98-158. *)
Definition scan (lines : list string) : result doc :=
  st <- scan_lines lines (Scanning, empty_doc) ;; scan_end st.

(** [tables.get(ref, ref)] on one cell: a string that names a table
    becomes a handle to it; a cell that already holds a table cannot be
    hashed. *)
Definition resolve_cell (tbls : dict DataFrame) (c : cell) : result cell :=
  match c with
  | CStr s => Ok (if dict_mem tbls s then CRef s else c)
  | CRef _ => Raise (TypeError "unhashable type: 'DataFrame'")
  | _ => Ok c
  end.

Definition holds_ref (c : cell) : bool :=
  match c with CRef _ => true | _ => false end.

Definition is_null (c : cell) : bool :=
  match c with CNull => true | _ => false end.

(** [float(z)] on an integer cell. *)
Definition float_of_int_cell (c : cell) : cell :=
  match c with
  | CInt z =>
      match float_of_Z z with
      | Ok f => f
      | Raise _ => CFloatOfInt z
      end
  | _ => c
  end.

(** [df[col].apply(...)], as pandas 2.2 does it.  The result is an object
    column as soon as it holds a table.  A nullable integer column is
    handed to the function as plain numbers: as floats, with NaN for the
    nulls, when it holds a null, and the result is a [float64] column; as
    integers otherwise, and the result is an [int64] column.  An empty
    column keeps its type. *)
Definition apply_refs (tbls : dict DataFrame) (s : Series) : result Series :=
  cs <- mapM (resolve_cell tbls) (cells s) ;;
  Ok (if existsb holds_ref cs then {| dtype_of := DObject; cells := cs |}
      else
        match dtype_of s, cs with
        | DInt64Ext, _ :: _ =>
            if existsb is_null cs then
              {| dtype_of := DFloat64; cells := map float_of_int_cell cs |}
            else {| dtype_of := DInt64; cells := cs |}
        | d, _ => {| dtype_of := d; cells := cs |}
        end).

(** Lines 164-168 for one column name. *)
Definition resolve_column (tbls : dict DataFrame) (df : DataFrame) (col : string)
  : result DataFrame :=
  match dict_get df col with
  | None => Ok df
  | Some s => s' <- apply_refs tbls s ;; Ok (dict_set df col s')
  end.

Fixpoint resolve_columns (tbls : dict DataFrame) (df : DataFrame)
  (cols : list string) : result DataFrame :=
  match cols with
  | [] => Ok df
  | col :: r => df' <- resolve_column tbls df col ;; resolve_columns tbls df' r
  end.

(** Lines 160-169: the resolution pass over the recorded metadata. *)
Fixpoint resolve_refs (mds : dict metadata) (tbls : dict DataFrame)
  : result (dict DataFrame) :=
  match mds with
  | [] => Ok tbls
  | (tbl, md) :: rest =>
      match dict_get md "refs" with
      | None => resolve_refs rest tbls
      | Some v =>
          df <- dict_item tbls tbl ;;
          df' <- resolve_columns tbls df (iterate v) ;;
          resolve_refs rest (dict_set tbls tbl df')
      end
  end.

(** Lines 98-171 on the lines that follow the manifest. *)
Definition parse_blocks (lines : list string) : result (dict DataFrame) :=
  d <- scan lines ;;
  resolve_refs (metas d) (tables d).

Definition parse_lines (lines : list string) : result (dict DataFrame) :=
  mr <- read_manifest lines ;;
  parse_blocks (snd mr).

(** [parse_jcsv], on the content of the file at [path]. *)
Definition parse_jcsv (content : string) : result (dict DataFrame) :=
  parse_lines (readlines content).

(** ** [DataFrame.to_csv(f, index=False)]

    Minimal quoting with the line terminator [\n], as the [csv] module of
    Python 3.11 does it: a field is quoted when it holds a comma, a double
    quote or a line feed (a carriage return alone does not quote it); a
    record made of one empty field is written as a pair of quotes.  A
    table without columns and a cell that holds a table are outside the
    model. *)

Definition cell_text (c : cell) : result string :=
  match c with
  | CStr s => Ok s
  | CInt z => Ok (str_of_Z z)
  | CFloat r => Ok r
  | CNull => Ok EmptyString
  | CRef _ => Raise (Unmodelled "a table inside a cell")
  | CFloatOfInt _ => Raise (Unmodelled "float outside the positional range")
  end.

Fixpoint double_quotes (s : string) : string :=
  match s with
  | EmptyString => EmptyString
  | String c r =>
      if Ascii.eqb c DQ then String DQ (String DQ (double_quotes r))
      else String c (double_quotes r)
  end.

Definition needs_quotes (s : string) : bool :=
  has_char "," s || has_char DQ s || has_char LF s.

Definition csv_field (s : string) : string :=
  if needs_quotes s then String DQ (double_quotes s ++ String DQ EmptyString)%string
  else s.

(** One record, without its line break. *)
Definition record_line (fields : list string) : string :=
  match fields with
  | [f] => if is_empty f then String DQ (String DQ EmptyString)
           else csv_field f
  | _ => join "," (map csv_field fields)
  end.

Definition csv_record (fields : list string) : string :=
  (record_line fields ++ newline)%string.

Definition csv_row (df : DataFrame) (i : nat) : result string :=
  fs <- mapM cell_text (row_at i df) ;; Ok (csv_record fs).

Definition to_csv (df : DataFrame) : result string :=
  match df with
  | [] => Raise (Unmodelled "a table without columns")
  | _ =>
      rows <- mapM (csv_row df) (seq 0 (len_df df)) ;;
      Ok (csv_record (columns df) ++ String.concat EmptyString rows)%string
  end.

(** ** The writer ([export_jcsv]) *)

(** Line 19. *)
Definition manifest_line_count (tbls : dict DataFrame) : Z :=
  1 + 1 + Z.of_nat (List.length tbls) + 1.

(** Line 23. *)
Definition first_cursor (tbls : dict DataFrame) : Z :=
  manifest_line_count tbls + 1.

(** Line 27. *)
Definition advance (cursor : Z) (df : DataFrame) : Z :=
  cursor + (2 + Z.of_nat (len_df df) + 1).

(** Lines 24-27. *)
Fixpoint start_lines_loop (tbls : dict DataFrame) (cursor : Z)
  (start_lines : dict Z) : dict Z :=
  match tbls with
  | [] => start_lines
  | (name, df) :: r =>
      start_lines_loop r (advance cursor df) (dict_set start_lines name cursor)
  end.

Definition compute_start_lines (tbls : dict DataFrame) : dict Z :=
  start_lines_loop tbls (first_cursor tbls) [].

Definition wrap (c : ascii) (s : string) : string :=
  String c (s ++ String c EmptyString).

(** Lines 35-39. *)
Definition manifest_row (start_lines : dict Z) (descriptions : dict string)
  (name : string) : result string :=
  let desc := match dict_get descriptions name with
              | Some d => d
              | None => EmptyString
              end in
  let desc := if has_char "," desc then wrap DQ desc else desc in
  sl <- dict_item start_lines name ;;
  Ok (name ++ "," ++ str_of_Z sl ++ "," ++ desc ++ newline)%string.

(** Lines 46-52. *)
Definition dtype_tag (d : dtype) : string :=
  let dt := dtype_name d in
  if contains "int" dt then "int"
  else if contains "float" dt then "float"
  else "str".

(** [comment.replace(DQ, backslash DQ)] *)
Fixpoint escape_quotes (s : string) : string :=
  match s with
  | EmptyString => EmptyString
  | String c r =>
      if Ascii.eqb c DQ then String "\" (String DQ (escape_quotes r))
      else String c (escape_quotes r)
  end.

(** Lines 44-61. *)
Definition block_meta (descriptions : dict string) (name : string)
  (df : DataFrame) : string :=
  let dt_specs :=
    map (fun c : string * Series =>
           (fst c ++ ":" ++ dtype_tag (dtype_of (snd c)))%string) df in
  let meta := ("dtypes=[" ++ join "," dt_specs ++ "]")%string in
  match dict_get descriptions name with
  | Some comment =>
      if is_empty comment then meta
      else (meta ++ ",comment=" ++ wrap DQ (escape_quotes comment))%string
  | None => meta
  end.

(** The title line of a block, without its line break. *)
Definition title_line (descriptions : dict string) (name : string)
  (df : DataFrame) : string :=
  ("#" ++ name ++ "{" ++ block_meta descriptions name df ++ "}")%string.

(** Lines 42-67 for one table. *)
Definition write_block (descriptions : dict string) (t : string * DataFrame)
  : result string :=
  csv <- to_csv (snd t) ;;
  Ok (newline ++ title_line descriptions (fst t) (snd t) ++ newline ++ csv)%string.

(** [export_jcsv]: the text written to [path]. *)
Definition export_jcsv (tbls : dict DataFrame) (descriptions : dict string)
  : result string :=
  let start_lines := compute_start_lines tbls in
  rows <- mapM (manifest_row start_lines descriptions) (keys tbls) ;;
  blocks <- mapM (write_block descriptions) tbls ;;
  Ok ("#manifest" ++ newline ++ "table,start_line,description" ++ newline
      ++ String.concat EmptyString rows
      ++ String.concat EmptyString blocks)%string.

(** The lines of a text, without their line breaks ([LF] ends a line). *)
Fixpoint text_lines (s : string) : list string :=
  match s with
  | EmptyString => []
  | String c r =>
      if Ascii.eqb c LF then EmptyString :: text_lines r
      else extend_line c (text_lines r)
  end.

(** The line with the 1-based number [n]. *)
Definition line_at (n : Z) (text : string) : option string :=
  if (n <=? 0)%Z then None else nth_error (text_lines text) (Z.to_nat (n - 1)).

(** ** Vocabulary of the statements *)

(** A text from its lines, each closed by a line break. *)
Definition text_of (ls : list string) : string :=
  String.concat EmptyString (map (fun l => (l ++ newline)%string) ls).

(** What reference resolution makes of one cell: a string that names a
    table of the document becomes a handle to it, anything else stays. *)
Definition resolved (tbls : dict DataFrame) (c : cell) : cell :=
  match c with
  | CStr s => if dict_mem tbls s then CRef s else c
  | _ => c
  end.

(** What the resolution pass makes of one cell of a column: the cell
    resolved, and turned into a float when [as_float] says that the column
    was handed over as floats. *)
Definition settled (tbls : dict DataFrame) (as_float : bool) (c : cell) : cell :=
  if as_float then float_of_int_cell (resolved tbls c) else resolved tbls c.

(** The columns named in [done] have been resolved, the others are as in
    [base]. *)
Definition col_state (tbls : dict DataFrame) (base df : DataFrame)
  (done : list string) : Prop :=
  keys df = keys base /\
  forall k s, dict_get base k = Some s ->
    exists s', dict_get df k = Some s' /\
      if mem_str k done
      then exists as_float, cells s' = map (settled tbls as_float) (cells s)
      else cells s' = cells s.

(** The scanner is waiting for the CSV header of a block. *)
Definition seeking (m : mode) : bool :=
  match m with SeekColumns _ _ => true | _ => false end.

(** The metadata the scanner records for a header line. *)
Definition header_metadata (meta_str : option string) : metadata :=
  match meta_str with
  | Some m => _parse_metadata (slice_1_m1 m)
  | None => []
  end.

(** Block [A] has no [refs]; block [B] lists the column [a_id], whose
    cells are the strings [A] and [Q]. *)
Definition refs_example : list string :=
  ["#A"; "id"; "x"; ""; "#B{refs=[a_id]}"; "a_id,n"; "A,1"; "Q,2"].

(** A document in which a [#] line that is no header follows a finished
    body, and the same document without the line after it. *)
Definition stray_hash_example : string :=
  text_of ["#A"; "c"; "1"; "#!bad"; "7"; "#B"; "x"; "2"].

Definition stray_hash_example_cut : string :=
  text_of ["#A"; "c"; "1"; "#!bad"; "#B"; "x"; "2"].

(** A document in which a [#] line that is no header stands where the
    CSV header of block [A] is expected, and the same document without the
    line after it. *)
Definition hash_as_columns_example : string :=
  text_of ["#A"; "#!bad"; "1"; "#B"; "x"; "2"].

Definition hash_as_columns_example_cut : string :=
  text_of ["#A"; "#!bad"; "#B"; "x"; "2"].



(** A manifest line that is read as a row: not blank, not starting with
    [#]. *)
Definition manifest_row_line (l : string) : bool :=
  negb (is_empty (strip l) || startswith "#" (strip l)).




(** A block whose second row has more fields than its header, followed by
    a well-formed block; and the well-formed block alone. *)
Definition malformed_block_example : string :=
  text_of ["#bad"; "a,b"; "1,2"; "3,4,5"; ""; "#good"; "x,y"; "1,u"].

Definition malformed_block_example_rest : string :=
  text_of ["#good"; "x,y"; "1,u"].

(** The cast a type tag asks for. *)
Definition tag_target (t : string) : option target :=
  if t =? "int" then Some ToInt64
  else if t =? "float" then Some ToFloat
  else None.

Definition target_dtype (t : target) : dtype :=
  match t with ToInt64 => DInt64Ext | ToFloat => DFloat64 end.

(** A column tagged [int] with the values 1, empty and 3. *)
Definition int_cast_example : string :=
  text_of ["#t{dtypes=[id:int]}"; "id,name"; "1,a"; ",b"; "3,c"].

(** A column tagged [str] whose values are 1 and 2. *)
Definition str_tag_example : string :=
  text_of ["#t{dtypes=[a:str]}"; "a,b"; "1,x"; "2,y"].

(** The text holds no line feed. *)
Definition nolf (s : string) : bool := negb (has_char LF s).

Definition cell_nolf (c : cell) : bool :=
  match c with
  | CStr s => nolf s
  | CFloat r => nolf r
  | _ => true
  end.

(** No column name and no cell of the table holds a line feed. *)
Definition table_nolf (df : DataFrame) : bool :=
  forallb (fun c : string * Series =>
             nolf (fst c) && forallb cell_nolf (cells (snd c))) df.

(** The description of a table, as the manifest row shows it. *)
Definition manifest_desc (descriptions : dict string) (name : string) : string :=
  let desc := match dict_get descriptions name with
              | Some d => d
              | None => EmptyString
              end in
  if has_char "," desc then wrap DQ desc else desc.

(** The number of lines the blocks of the first [k] tables take. *)
Fixpoint lines_before (tbls : dict DataFrame) (k : nat) : Z :=
  match k, tbls with
  | S k', (_, df) :: r => (2 + Z.of_nat (len_df df) + 1) + lines_before r k'
  | _, _ => 0
  end.

(** A manifest row, without its line break. *)
Definition manifest_line (name : string) (start_line : Z) (desc : string)
  : string :=
  (name ++ "," ++ str_of_Z start_line ++ "," ++ desc)%string.

(** The lines of one block have the shape the offset pass counts: a blank
    line, the title line, the CSV header and one line per row. *)
Definition block_shape (descriptions : dict string) (t : string * DataFrame)
  (ls : list string) : Prop :=
  exists csv_lines,
    ls = EmptyString :: title_line descriptions (fst t) (snd t) :: csv_lines /\
    Forall (fun l => nolf l = true) csv_lines /\
    List.length csv_lines = S (len_df (snd t)).

(** What the manifest shows for a table: its name, the start line the
    offset pass computed for it, and its description. *)
Definition manifest_shape (tbls : dict DataFrame) (descriptions : dict string)
  (name : string) (l : string) : Prop :=
  exists z, dict_get (compute_start_lines tbls) name = Some z /\
            l = manifest_line name z (manifest_desc descriptions name).


(** One table [t1] with two rows. *)
Definition t1_example : dict DataFrame :=
  [("t1", [("id", {| dtype_of := DInt64; cells := [CInt 1; CInt 2] |});
           ("name", {| dtype_of := DObject;
                       cells := [CStr "Alice"; CStr "Bob"] |})])].

(** ** The tables of the round trip *)

(** The text [to_csv] writes for a cell of the round trip (the empty text
    stands in for a table and for a float whose text the model does not
    print: neither is a cell of the round trip). *)
Definition cell_str (c : cell) : string :=
  match c with
  | CStr s => s
  | CInt z => str_of_Z z
  | CFloat r => r
  | CNull => EmptyString
  | CRef _ => EmptyString
  | CFloatOfInt _ => EmptyString
  end.

(** A character that needs no CSV quoting and ends no line. *)
Definition plain_char (c : ascii) : bool :=
  negb (Ascii.eqb c LF) && negb (Ascii.eqb c CR) && negb (Ascii.eqb c ",")
  && negb (Ascii.eqb c DQ).

(** A character of a column name that the metadata grammar reads back:
    plain, and no bracket or colon. *)
Definition col_char (c : ascii) : bool :=
  plain_char c && negb (Ascii.eqb c "[") && negb (Ascii.eqb c "]")
  && negb (Ascii.eqb c ":").

Definition first_nonspace (s : string) : bool :=
  match s with
  | String a _ => negb (is_space a)
  | EmptyString => false
  end.

Fixpoint last_nonspace (s : string) : bool :=
  match s with
  | EmptyString => false
  | String a EmptyString => negb (is_space a)
  | String _ r => last_nonspace r
  end.

(** Not empty, and no whitespace at either end. *)
Definition trimmed (s : string) : bool := first_nonspace s && last_nonspace s.

(** The text of a cell of the first column: empty, or starting with a
    character that is neither whitespace nor [#]. *)
Definition row_start (s : string) : bool :=
  match s with
  | EmptyString => true
  | String a _ => negb (is_space a) && negb (Ascii.eqb a "#")
  end.

(** [read_csv] keeps the token as text. *)
Definition is_text_token (s : string) : bool :=
  match classify s with TText => true | _ => false end.

(** A cell the round trip preserves, by the type of its column: plain
    text that reads as text, a 64-bit integer, a float or a missing value
    in a float column. *)
Definition cell_ok (d : dtype) (c : cell) : bool :=
  match d, c with
  | DObject, CStr s => all_chars plain_char s && is_text_token s
  | DInt64, CInt z => in_int64 z
  | DInt64Ext, CInt z => in_int64 z
  | DFloat64, CFloat r => is_float_repr r
  | DFloat64, CNull => true
  | _, _ => false
  end.

Definition column_ok (n : nat) (c : string * Series) : bool :=
  all_chars col_char (fst c) && trimmed (fst c)
  && (List.length (cells (snd c)) =? n)%nat
  && forallb (cell_ok (dtype_of (snd c))) (cells (snd c)).

Definition first_column_ok (df : DataFrame) : bool :=
  match df with
  | [] => false
  | (_, s) :: _ => forallb (fun c => row_start (cell_str c)) (cells s)
  end.

(** A table the round trip preserves: at least one column, distinct
    column names, columns of one length. *)
Definition table_ok (df : DataFrame) : bool :=
  first_column_ok df && nodupb (columns df) && forallb (column_ok (len_df df)) df.

(** A block name the header pattern reads back. *)
Definition name_ok (n : string) : bool :=
  negb (is_empty n) && all_chars is_ident_char n.

(** No column name and no cell text of the table holds the NUL character,
    at which [read_csv] cuts a field. *)
Definition nul_free (df : DataFrame) : bool :=
  forallb (fun c : string * Series =>
             negb (has_char NUL (fst c))
             && forallb (fun x => negb (has_char NUL (cell_str x))) (cells (snd c)))
          df.

(** A table map the round trip preserves. *)
Definition tables_ok (tbls : dict DataFrame) : bool :=
  nodupb (keys tbls)
  && forallb (fun t : string * DataFrame =>
                name_ok (fst t) && table_ok (snd t) && nul_free (snd t))
       tbls.

(** The names, the columns and the rows of a table map. *)
Definition table_content (df : DataFrame) : list (string * list cell) :=
  map (fun c : string * Series => (fst c, cells (snd c))) df.

Definition content (tbls : dict DataFrame) : list (string * list (string * list cell)) :=
  map (fun t : string * DataFrame => (fst t, table_content (snd t))) tbls.

(** The characters of a number written in positional notation. *)
Definition num_char (c : ascii) : bool :=
  is_digit c || Ascii.eqb c "-" || Ascii.eqb c ".".

(** What the tokenizer reads after the end of a line: nothing at the end
    of the text, the next records after a line feed. *)
Definition after_line (x : string) : result (list (list string)) :=
  match x with
  | EmptyString => Ok []
  | String _ rest => tokenize START_RECORD rest
  end.

Definition line_end (x : string) : Prop :=
  x = EmptyString \/ exists rest, x = String LF rest.

(** A first field that does not make the tokenizer take the line for a
    blank one. *)
Definition field_start (f : string) : bool :=
  match f with
  | EmptyString => true
  | String a _ => negb (is_space a)
  end.

(** The column type [read_csv] infers for a column of the round trip. *)
Definition inferred_dtype (s : Series) : dtype :=
  match cells s with
  | [] => DObject
  | _ :: _ =>
      match dtype_of s with
      | DObject => DObject
      | DInt64 => DInt64
      | DInt64Ext => DInt64
      | DFloat64 => DFloat64
      end
  end.

Definition inferred (df : DataFrame) : DataFrame :=
  map (fun c : string * Series =>
         (fst c, {| dtype_of := inferred_dtype (snd c); cells := cells (snd c) |}))
      df.

(** The fields of the rows of a table, and the records [to_csv] writes. *)
Definition row_fields (df : DataFrame) (i : nat) : list string :=
  map cell_str (row_at i df).

Definition csv_records (df : DataFrame) : list (list string) :=
  columns df :: map (row_fields df) (seq 0 (len_df df)).

(** The metadata the writer gives a block that has no description. *)
Definition dtype_specs (df : DataFrame) : dict string :=
  map (fun c : string * Series => (fst c, dtype_tag (dtype_of (snd c)))) df.

Definition written_metadata (df : DataFrame) : metadata :=
  [("dtypes", DTypeMap (dtype_specs df))].

(** The class of the token written for a cell of the round trip. *)
Definition cell_class (c : cell) : tok_class :=
  match c with
  | CStr _ => TText
  | CInt z => TInt z
  | CFloat r => TFloat r
  | _ => TNA
  end.

(** The item the writer puts in the [dtypes] list for a column and its
    tag, and the metadata text of a block without description. *)
Definition dtype_item (p : string * string) : string :=
  (fst p ++ ":" ++ snd p)%string.

Definition dtypes_text (pairs : dict string) : string :=
  ("dtypes=[" ++ join "," (map dtype_item pairs) ++ "]")%string.

(** A column name and a type tag that the metadata grammar reads back. *)
Definition pair_ok (p : string * string) : bool :=
  all_chars col_char (fst p) && trimmed (fst p)
  && all_chars col_char (snd p) && trimmed (snd p)
  && negb (endswith SQ (snd p)).

(** A character that ends no line. *)
Definition line_char (c : ascii) : bool :=
  negb (Ascii.eqb c LF) && negb (Ascii.eqb c CR).

(** The lines the writer produces for a table map without descriptions,
    without their line breaks: per block a blank line, the title line, the
    CSV header and the rows. *)
Definition block_lines (t : string * DataFrame) : list string :=
  EmptyString :: title_line [] (fst t) (snd t)
    :: map record_line (csv_records (snd t)).

Definition start_line_of (tbls : dict DataFrame) (name : string) : Z :=
  match dict_get (compute_start_lines tbls) name with
  | Some z => z
  | None => 0%Z
  end.



Definition with_newlines (ls : list string) : list string :=
  map (fun l => (l ++ newline)%string) ls.


(** A body line of a block: it starts with a character that is neither
    whitespace nor [#], and holds no line feed. *)
Definition body_line (l : string) : bool :=
  match l with
  | String a _ => negb (is_space a) && negb (Ascii.eqb a "#") && nolf l
  | EmptyString => false
  end.



(** ** Vocabulary of the further properties *)

(** A token of the metadata grammar whose brackets are properly nested,
    starting from [d] open brackets, and whose commas all lie inside
    brackets. *)
Fixpoint nested (d : nat) (s : string) : bool :=
  match s with
  | EmptyString => (d =? 0)%nat
  | String c r =>
      if Ascii.eqb c "[" then nested (S d) r
      else if Ascii.eqb c "]" then
        match d with
        | O => false
        | S d' => nested d' r
        end
      else if Ascii.eqb c "," then negb (d =? 0)%nat && nested d r
      else nested d r
  end.

(** [b] put in front of the first string of a list. *)
Definition prepend (b : string) (l : list string) : list string :=
  match l with
  | h :: t => (b ++ h)%string :: t
  | [] => [b]
  end.

Definition is_map (v : md_value) : bool :=
  match v with DTypeMap _ => true | _ => false end.

(** A manifest row that is read without error: a row line whose fields
    give a [table] and a [start_line] that is an integer. *)
Definition row_reads (cols : list string) (l : string) : bool :=
  let row := dict_zip [] cols (comma_fields (strip l)) in
  manifest_row_line l && dict_mem row "table"
  && match dict_get row "start_line" with
     | Some sl => match py_int sl with Ok _ => true | Raise _ => false end
     | None => false
     end.

(** The end of the manifest rows: the end of the file, or a line that is
    blank or starts with [#]. *)
Definition rows_end (rest : list string) : bool :=
  match rest with
  | [] => true
  | l :: _ => negb (manifest_row_line l)
  end.

(** The name of the block the scanner is in, if any. *)
Definition mode_name (m : mode) : option string :=
  match m with
  | Scanning => None
  | SeekColumns n _ => Some n
  | InBody n _ _ _ => Some n
  end.

(** The scanner's state holds identifiers only: the names of the stored
    tables are distinct identifiers, and so is the name of the block being
    read. *)
Definition names_ok (st : mode * doc) : Prop :=
  NoDup (keys (tables (snd st))) /\
  Forall (fun n => name_ok n = true) (keys (tables (snd st))) /\
  forall n, mode_name (fst st) = Some n -> name_ok n = true.


Definition unhashable : exn := TypeError "unhashable type: 'DataFrame'".

(** A character of a description that the round trip carries: it ends no
    line and is no comma, bracket or double quote. *)
Definition desc_char (c : ascii) : bool :=
  line_char c && negb (Ascii.eqb c ",") && negb (Ascii.eqb c "[")
  && negb (Ascii.eqb c "]") && negb (Ascii.eqb c DQ).

Definition descriptions_ok (descriptions : dict string) : bool :=
  forallb (fun p : string * string => all_chars desc_char (snd p)) descriptions.

(** The lines the writer produces when descriptions are given. *)
Definition block_lines_with (descriptions : dict string) (t : string * DataFrame)
  : list string :=
  EmptyString :: title_line descriptions (fst t) (snd t)
    :: map record_line (csv_records (snd t)).

Definition manifest_lines_with (descriptions : dict string) (start : string -> Z)
  (names : list string) : list string :=
  map (fun name => manifest_line name (start name) (manifest_desc descriptions name))
      names.

Definition doc_lines_with (descriptions : dict string) (tbls : dict DataFrame)
  : list string :=
  ["#manifest"; "table,start_line,description"]
  ++ manifest_lines_with descriptions (start_line_of tbls) (keys tbls)
  ++ List.concat (map (block_lines_with descriptions) tbls).

(** The metadata the scanner records for a written block: the column
    types, and the description under [comment] when there is one. *)
Definition block_metadata (descriptions : dict string) (name : string)
  (df : DataFrame) : metadata :=
  match dict_get descriptions name with
  | Some d =>
      if is_empty d then written_metadata df
      else [("dtypes", DTypeMap (dtype_specs df)); ("comment", Scalar d)]
  | None => written_metadata df
  end.

Definition recorded_metas_with (descriptions : dict string) (tbls : dict DataFrame)
  : dict metadata :=
  map (fun t : string * DataFrame =>
         (fst t, block_metadata descriptions (fst t) (snd t))) tbls.

(** * The editor ([simple_jcsv_editor.py])

    The two pure functions of the editor script: its own [parse_jcsv], which
    cuts a text into blocks of lines, and [edit_metadata], whose only
    effects are the widgets it shows.  The value a text input widget
    returns is a parameter of the model. *)

Module Editor.

(** [str.splitlines()] on the ASCII range: a line ends at LF, VT, FF, CR,
    CR LF, FS, GS or RS, and the line breaks are not kept. *)
Definition is_linebreak (c : ascii) : bool :=
  let n := nat_of_ascii c in
  (((10 <=? n) && (n <=? 13)) || ((28 <=? n) && (n <=? 30)))%nat.

Fixpoint splitlines (s : string) : list string :=
  match s with
  | EmptyString => []
  | String c r =>
      if Ascii.eqb c CR then
        match r with
        | String c' r' =>
            if Ascii.eqb c' LF then EmptyString :: splitlines r'
            else EmptyString :: splitlines r
        | EmptyString => [EmptyString]
        end
      else if is_linebreak c then EmptyString :: splitlines r
      else extend_line c (splitlines r)
  end.

(** What [.*] can run over: the characters before the first line feed. *)
Fixpoint before_lf (s : string) : string :=
  match s with
  | EmptyString => EmptyString
  | String a r => if Ascii.eqb a LF then EmptyString else String a (before_lf r)
  end.

(** The longest prefix of [s] that ends with [c]. *)
Fixpoint upto_last (c : ascii) (s : string) : option string :=
  match s with
  | EmptyString => None
  | String a r =>
      match upto_last c r with
      | Some p => Some (String a p)
      | None => if Ascii.eqb a c then Some (String a EmptyString) else None
      end
  end.

(** [re.match(r"#(\w+)(\{.*\})?", line)]: the two groups.  The pattern is
    not anchored at the end of the line. *)
Definition header_match (line : string) : option (string * option string) :=
  match line with
  | String "#" r =>
      let (name, rest) := span is_ident_char r in
      if is_empty name then None
      else
        match rest with
        | String "{" r' =>
            match upto_last "}" (before_lf r') with
            | Some p => Some (name, Some (String "{" p))
            | None => Some (name, None)
            end
        | _ => Some (name, None)
        end
  | _ => None
  end.

(** The variables of the loop of [parse_jcsv]. *)
Record state : Type := {
  blocks : dict (list string);
  metadata : dict string;
  current_block : option string;
  block_lines : list string
}.

(** [if current_block] *)
Definition in_block (st : state) : bool :=
  match current_block st with
  | Some b => negb (is_empty b)
  | None => false
  end.

(** Lines 24-26 and 34-35: the lines collected so far are stored under
    the current block, when there is one and it has lines. *)
Definition flush (st : state) : state :=
  match current_block st, block_lines st with
  | Some b, _ :: _ =>
      if is_empty b then st
      else {| blocks := dict_set (blocks st) b (block_lines st);
              metadata := metadata st;
              current_block := current_block st;
              block_lines := [] |}
  | _, _ => st
  end.

(** Lines 23-32 on one line. *)
Definition step (st : state) (line : string) : state :=
  if startswith "#" line then
    let st1 := flush st in
    match header_match line with
    | Some (name, meta) =>
        {| blocks := blocks st1;
           metadata := dict_set (metadata st1) name
                         (match meta with Some m => m | None => EmptyString end);
           current_block := Some name;
           block_lines := block_lines st1 |}
    | None => st1
    end
  else if in_block st then
    {| blocks := blocks st; metadata := metadata st;
       current_block := current_block st;
       block_lines := block_lines st ++ [line] |}
  else st.

Definition init : state :=
  {| blocks := []; metadata := []; current_block := None; block_lines := [] |}.

Definition scan (lines : list string) (st : state) : state :=
  flush (fold_left step lines st).

(** [parse_jcsv(raw_text)]: the blocks and their metadata texts. *)
Definition parse_jcsv (raw_text : string) : dict (list string) * dict string :=
  let st := scan (splitlines raw_text) init in
  (blocks st, metadata st).

(** [meta.strip("{}")] *)
Definition is_brace (c : ascii) : bool := Ascii.eqb c "{" || Ascii.eqb c "}".

Definition strip_braces (s : string) : string :=
  rstrip_with is_brace (lstrip_with is_brace s).

(** The number of characters [\[.*?\]] takes at the start of [s]: up to the
    first closing bracket, when no line feed stands before it. *)
Fixpoint lazy_bracket (s : string) : option nat :=
  match s with
  | EmptyString => None
  | String a r =>
      if Ascii.eqb a "]" then Some 1
      else if Ascii.eqb a LF then None
      else match lazy_bracket r with
           | Some n => Some (S n)
           | None => None
           end
  end.

Definition bracketed (s : string) : option nat :=
  match s with
  | String "[" r =>
      match lazy_bracket r with
      | Some n => Some (S n)
      | None => None
      end
  | _ => None
  end.

(** The number of characters [[^,]+] takes at the start of [s]. *)
Fixpoint no_comma_run (s : string) : nat :=
  match s with
  | EmptyString => 0
  | String a r => if Ascii.eqb a "," then 0 else S (no_comma_run r)
  end.

(** A match of [(\w+)=\[.*?\]|(\w+)=[^,]+] at the start of [s]: the two
    groups and the length of the match. *)
Definition match_at (s : string) : option ((string * string) * nat) :=
  let (w, rest) := span is_ident_char s in
  if is_empty w then None
  else
    match rest with
    | String "=" r =>
        match bracketed r with
        | Some n => Some ((w, EmptyString), String.length w + 1 + n)
        | None =>
            match no_comma_run r with
            | O => None
            | S n => Some ((EmptyString, w), String.length w + 1 + S n)
            end
        end
    | _ => None
    end.

(** [re.findall]: the matches from left to right, without overlap;
    [skip] counts the characters of the last match still to pass. *)
Fixpoint findall (skip : nat) (s : string) : list (string * string) :=
  match s with
  | EmptyString => []
  | String _ r =>
      match skip with
      | S k => findall k r
      | O =>
          match match_at s with
          | Some (groups, len) => groups :: findall (len - 1) r
          | None => findall 0 r
          end
      end
  end.

Inductive error : Type := StopIteration.

(** [next(filter(None, raw))] *)
Definition first_nonempty (raw : string * string) : error + string :=
  if negb (is_empty (fst raw)) then inr (fst raw)
  else if negb (is_empty (snd raw)) then inr (snd raw)
  else inl StopIteration.

(** Lines 47-52. *)
Fixpoint collect (pairs : list (string * string)) (meta_dict : dict string)
  : error + dict string :=
  match pairs with
  | [] => inr meta_dict
  | raw :: rest =>
      match first_nonempty raw with
      | inl e => inl e
      | inr item =>
          match split1 "=" item with
          | Some (key, val) =>
              collect rest (dict_set meta_dict (strip key) (strip val))
          | None => collect rest meta_dict
          end
      end
  end.

Section Widgets.

(** [st.text_input(label, value)]: what the widget holds. *)
Variable text_input : string -> string -> string.

(** [edit_metadata(meta)] *)
Definition edit_metadata (meta : string) : error + string :=
  let cleaned := if is_empty meta then EmptyString else strip_braces meta in
  let pairs := findall 0 cleaned in
  match collect pairs [] with
  | inl e => inl e
  | inr meta_dict =>
      let new_meta :=
        fold_left (fun nm kv => dict_set nm (fst kv) (text_input (fst kv) (snd kv)))
                  meta_dict [] in
      let meta_str :=
        join "," (map (fun kv : string * string => (fst kv ++ "=" ++ snd kv)%string)
                      new_meta) in
      inr ("{" ++ meta_str ++ "}")%string
  end.

End Widgets.

End Editor.

(** The body lines of the editor: lines that do not start with [#]. *)
Definition body_lines (ls : list string) : Prop :=
  Forall (fun l => startswith "#" l = false) ls.

(** What the loop of the editor's [parse_jcsv] keeps true: a stored block
    has lines, none of which starts with [#]; its name is an identifier
    with a metadata entry; so is the current block; and the lines being
    collected do not start with [#]. *)
Definition editor_inv (st : Editor.state) : Prop :=
  (forall n ls, dict_get (Editor.blocks st) n = Some ls ->
     ls <> [] /\ body_lines ls /\ dict_mem (Editor.metadata st) n = true /\
     name_ok n = true) /\
  (forall b, Editor.current_block st = Some b ->
     name_ok b = true /\ dict_mem (Editor.metadata st) b = true) /\
  body_lines (Editor.block_lines st).

(** * Properties *)

(** ** The error monad and dictionaries *)

Lemma bind_ok {A B : Type} (c : result A) (k : A -> result B) (b : B) :
  bind c k = Ok b -> exists a, c = Ok a /\ k a = Ok b.
Proof. destruct c as [a|e]; simpl; intros H; [eauto | discriminate]. Qed.

Tactic Notation "bind_inv" hyp(H) "as" ident(a) ident(Ha) :=
  apply bind_ok in H; destruct H as [a [Ha H]].

Lemma dict_get_set_same {V : Type} (d : dict V) k v :
  dict_get (dict_set d k v) k = Some v.
Proof.
  induction d as [|[k' v'] r IH]; simpl.
  - now rewrite String.eqb_refl.
  - destruct (String.eqb k' k) eqn:E; simpl; rewrite E; auto.
Qed.

Lemma dict_get_set_other {V : Type} (d : dict V) k k' v :
  k <> k' -> dict_get (dict_set d k v) k' = dict_get d k'.
Proof.
  intros Hne. induction d as [|[k0 v0] r IH]; simpl.
  - destruct (String.eqb k k') eqn:E; auto.
    apply String.eqb_eq in E. contradiction.
  - destruct (String.eqb k0 k) eqn:E; simpl.
    + apply String.eqb_eq in E. subst k0.
      destruct (String.eqb k k') eqn:E'; auto.
      apply String.eqb_eq in E'. contradiction.
    + now rewrite IH.
Qed.

Lemma keys_dict_set {V : Type} (d : dict V) k v x :
  dict_get d k = Some x -> keys (dict_set d k v) = keys d.
Proof.
  unfold keys. induction d as [|[k0 v0] r IH]; simpl; [discriminate|].
  destruct (String.eqb k0 k) eqn:E; simpl; auto.
  intros H. f_equal. auto.
Qed.

Lemma dict_mem_keys {V W : Type} (d1 : dict V) (d2 : dict W) k :
  keys d1 = keys d2 -> dict_mem d1 k = dict_mem d2 k.
Proof.
  unfold dict_mem. revert d2.
  induction d1 as [|[k1 v1] r IH]; intros [|[k2 v2] r2]; simpl; try discriminate; auto.
  intros H. injection H as H1 H2. subst k2.
  destruct (String.eqb k1 k); auto.
Qed.

Lemma dict_get_not_in {V : Type} (d : dict V) k :
  ~ In k (keys d) -> dict_get d k = None.
Proof.
  induction d as [|[k0 v0] r IH]; simpl; auto.
  intros H. destruct (String.eqb k0 k) eqn:E.
  - apply String.eqb_eq in E. tauto.
  - apply IH. tauto.
Qed.

Lemma dict_get_in {V : Type} (d : dict V) k v :
  dict_get d k = Some v -> In k (keys d).
Proof.
  induction d as [|[k0 v0] r IH]; simpl; [discriminate|].
  destruct (String.eqb k0 k) eqn:E.
  - apply String.eqb_eq in E. auto.
  - auto.
Qed.

Lemma mem_str_app x l1 l2 :
  mem_str x (l1 ++ l2) = mem_str x l1 || mem_str x l2.
Proof. unfold mem_str. apply existsb_app. Qed.

Lemma mem_str_in x l : mem_str x l = true <-> In x l.
Proof.
  unfold mem_str. rewrite existsb_exists. split.
  - intros [y [Hy E]]. apply String.eqb_eq in E. now subst.
  - intros H. exists x. split; auto. apply String.eqb_refl.
Qed.

(** ** Reference resolution *)

Lemma mapM_resolve tbls cs cs' :
  mapM (resolve_cell tbls) cs = Ok cs' -> cs' = map (resolved tbls) cs.
Proof.
  revert cs'. induction cs as [|c r IH]; simpl; intros cs' H.
  - now inversion H.
  - bind_inv H as c' Hc. bind_inv H as r' Hr. inversion H; subst. f_equal; auto.
    destruct c; simpl in *; inversion Hc; auto; discriminate.
Qed.

Lemma resolve_cell_settled tbls b c c' :
  resolve_cell tbls (settled tbls b c) = Ok c' -> c' = settled tbls b c.
Proof.
  unfold settled. destruct c as [s|z|r| |n|z]; cbn [resolved].
  - destruct (dict_mem tbls s) eqn:E.
    + destruct b; cbn [float_of_int_cell resolve_cell]; discriminate.
    + destruct b; cbn [float_of_int_cell resolve_cell]; rewrite E;
        intros H; now inversion H.
  - destruct b; cbn [float_of_int_cell resolve_cell].
    + destruct (float_of_Z z) as [f|e] eqn:Ef.
      * unfold float_of_Z in Ef.
        destruct (is_float_repr (str_of_Z z ++ ".0")); inversion Ef; subst f.
        cbn [resolve_cell]. intros H. now inversion H.
      * cbn [resolve_cell]. intros H. now inversion H.
    + intros H. now inversion H.
  - destruct b; cbn [float_of_int_cell resolve_cell]; intros H; now inversion H.
  - destruct b; cbn [float_of_int_cell resolve_cell]; intros H; now inversion H.
  - destruct b; cbn [float_of_int_cell resolve_cell]; discriminate.
  - destruct b; cbn [float_of_int_cell resolve_cell]; intros H; now inversion H.
Qed.

Lemma mapM_resolve_again tbls b cs cs' :
  mapM (resolve_cell tbls) (map (settled tbls b) cs) = Ok cs' ->
  cs' = map (settled tbls b) cs.
Proof.
  revert cs'. induction cs as [|c r IH]; simpl; intros cs' H.
  - now inversion H.
  - bind_inv H as c' Hc. bind_inv H as r' Hr. inversion H; subst. f_equal; auto.
    now apply resolve_cell_settled.
Qed.

Lemma float_of_int_cell_idem c :
  float_of_int_cell (float_of_int_cell c) = float_of_int_cell c.
Proof.
  destruct c as [s|z|r| |n|z]; cbn [float_of_int_cell]; auto.
  destruct (float_of_Z z) as [f|e] eqn:Ef; [|reflexivity].
  unfold float_of_Z in Ef.
  destruct (is_float_repr (str_of_Z z ++ ".0")); inversion Ef; reflexivity.
Qed.

Lemma float_of_settled tbls b c :
  float_of_int_cell (settled tbls b c) = settled tbls true c.
Proof.
  unfold settled. destruct b; [apply float_of_int_cell_idem|reflexivity].
Qed.

(** The cells [Series.apply] returns, from those the function returned. *)
Lemma apply_refs_cells tbls s s' :
  apply_refs tbls s = Ok s' ->
  exists cs, mapM (resolve_cell tbls) (cells s) = Ok cs /\
             (cells s' = cs \/ cells s' = map float_of_int_cell cs).
Proof.
  unfold apply_refs. intros H. bind_inv H as cs Hcs. exists cs. split; auto.
  inversion H; subst s'. clear H.
  destruct (existsb holds_ref cs); [now left|].
  destruct (dtype_of s), cs as [|c r]; try (now left).
  destruct (existsb is_null (c :: r)); [now right|now left].
Qed.

Lemma resolved_ext t1 t2 c :
  keys t1 = keys t2 -> resolved t1 c = resolved t2 c.
Proof.
  intros H. destruct c; simpl; auto. now rewrite (dict_mem_keys t1 t2 s H).
Qed.

Lemma settled_ext t1 t2 b c :
  keys t1 = keys t2 -> settled t1 b c = settled t2 b c.
Proof. intros H. unfold settled. now rewrite (resolved_ext t1 t2 c H). Qed.

Lemma col_state_ext t1 t2 base df done :
  keys t1 = keys t2 -> col_state t1 base df done -> col_state t2 base df done.
Proof.
  intros H [Hk Hc]. split; auto.
  intros k s Hs. destruct (Hc k s Hs) as [s' [H1 H2]].
  exists s'. split; auto.
  destruct (mem_str k done); auto.
  destruct H2 as [b H2]. exists b. rewrite H2.
  apply map_ext. intros c. now apply settled_ext.
Qed.

Lemma col_state_refl tbls df : col_state tbls df df [].
Proof. split; auto. intros k s H. exists s. split; [exact H|reflexivity]. Qed.

Lemma resolve_columns_state tbls cols :
  forall df df' base done,
    col_state tbls base df done ->
    resolve_columns tbls df cols = Ok df' ->
    col_state tbls base df' (done ++ cols).
Proof.
  induction cols as [|col r IH]; simpl; intros df df' base done Hst H.
  - inversion H; subst. now rewrite app_nil_r.
  - bind_inv H as df1 Ha.
    replace (done ++ col :: r) with ((done ++ [col]) ++ r)
      by (now rewrite <- app_assoc).
    apply (IH df1 df' base (done ++ [col])); auto.
    clear IH H. destruct Hst as [Hk Hc]. unfold resolve_column in Ha.
    destruct (dict_get df col) as [s0|] eqn:E.
    + bind_inv Ha as s1 Hs1. inversion Ha; subst df1. clear Ha.
      destruct (apply_refs_cells _ _ _ Hs1) as [cs1 [Ha1 Hcells]].
      split.
      * rewrite (keys_dict_set df col _ s0 E). exact Hk.
      * intros k s Hs. destruct (Hc k s Hs) as [s' [H1 H2]].
        destruct (String.eqb col k) eqn:Ek.
        -- apply String.eqb_eq in Ek. subst k.
           rewrite dict_get_set_same. eexists. split; [reflexivity|].
           rewrite mem_str_app. simpl. rewrite String.eqb_refl.
           rewrite orb_true_r.
           rewrite E in H1. inversion H1; subst s'.
           destruct (mem_str col done).
           ++ destruct H2 as [b H2]. rewrite H2 in Ha1.
              apply mapM_resolve_again in Ha1. subst cs1.
              destruct Hcells as [Hcs|Hcs].
              ** exists b. exact Hcs.
              ** exists true. rewrite Hcs, map_map. apply map_ext.
                 intros c. apply float_of_settled.
           ++ rewrite H2 in Ha1. apply mapM_resolve in Ha1. subst cs1.
              destruct Hcells as [Hcs|Hcs].
              ** exists false. exact Hcs.
              ** exists true. rewrite Hcs, map_map. reflexivity.
        -- apply String.eqb_neq in Ek.
           rewrite dict_get_set_other by auto. exists s'. split; auto.
           rewrite mem_str_app. simpl.
           replace (String.eqb k col) with false.
           ++ now rewrite !orb_false_r.
           ++ symmetry. apply String.eqb_neq. congruence.
    + inversion Ha; subst df1. split; auto.
      intros k s Hs. destruct (Hc k s Hs) as [s' [H1 H2]].
      exists s'. split; auto. rewrite mem_str_app. simpl.
      replace (String.eqb k col) with false.
      * now rewrite !orb_false_r.
      * symmetry. apply String.eqb_neq. intros ->. congruence.
Qed.

(** After the pass every table is still there; a table whose block lists
    [refs] has exactly those columns resolved, any other table is
    untouched. *)
Lemma resolve_refs_state mds :
  forall tbls tbls',
    NoDup (keys mds) ->
    resolve_refs mds tbls = Ok tbls' ->
    keys tbls' = keys tbls /\
    forall tbl df, dict_get tbls tbl = Some df ->
      exists df', dict_get tbls' tbl = Some df' /\
        match dict_get mds tbl with
        | Some md =>
            match dict_get md "refs" with
            | Some v => col_state tbls df df' (iterate v)
            | None => df' = df
            end
        | None => df' = df
        end.
Proof.
  induction mds as [|[t md] rest IH]; simpl; intros tbls tbls' Hnd H.
  - inversion H; subst. split; auto. intros tbl df Hd. exists df. auto.
  - inversion Hnd as [|? ? Hnotin Hnd']; subst.
    destruct (dict_get md "refs") as [v|] eqn:Erefs.
    + bind_inv H as df0 Ha. bind_inv H as df1 Hb.
      unfold dict_item in Ha. destruct (dict_get tbls t) as [x|] eqn:Et;
        inversion Ha; subst x. clear Ha.
      destruct (IH _ _ Hnd' H) as [Hk Hall].
      assert (Hk1 : keys (dict_set tbls t df1) = keys tbls)
        by (eapply keys_dict_set; eauto).
      split; [congruence|].
      intros tbl df Hd. destruct (String.eqb t tbl) eqn:E.
      * apply String.eqb_eq in E. subst tbl.
        rewrite Et in Hd. inversion Hd; subst df.
        destruct (Hall t df1 (dict_get_set_same _ _ _)) as [df' [H1 H2]].
        rewrite (dict_get_not_in rest t Hnotin) in H2. subst df'.
        exists df1. split; auto. rewrite Erefs.
        change (iterate v) with ([] ++ iterate v).
        apply (resolve_columns_state tbls (iterate v) df0 df1 df0 []); auto.
        apply col_state_refl.
      * apply String.eqb_neq in E.
        assert (Hd1 : dict_get (dict_set tbls t df1) tbl = Some df)
          by (rewrite dict_get_set_other; auto).
        destruct (Hall tbl df Hd1) as [df' [H1 H2]].
        exists df'. split; auto.
        destruct (dict_get rest tbl) as [md'|]; auto.
        destruct (dict_get md' "refs"); auto.
        eapply col_state_ext; eauto.
    + destruct (IH _ _ Hnd' H) as [Hk Hall]. split; auto.
      intros tbl df Hd. destruct (Hall tbl df Hd) as [df' [H1 H2]].
      exists df'. split; auto.
      destruct (String.eqb t tbl) eqn:E.
      * apply String.eqb_eq in E. subst tbl.
        rewrite (dict_get_not_in rest t Hnotin) in H2. now rewrite Erefs.
      * exact H2.
Qed.

Lemma keys_dict_set_cases {V : Type} (d : dict V) k v :
  keys (dict_set d k v) = if dict_mem d k then keys d else keys d ++ [k].
Proof.
  unfold keys, dict_mem. induction d as [|[k0 v0] r IH]; simpl; auto.
  destruct (String.eqb k0 k) eqn:E; simpl; auto.
  rewrite IH. destruct (dict_get r k); auto.
Qed.

Lemma dict_mem_false_not_in {V : Type} (d : dict V) k :
  dict_mem d k = false -> ~ In k (keys d).
Proof.
  unfold dict_mem. intros H Hin.
  induction d as [|[k0 v0] r IH]; simpl in *; auto.
  destruct (String.eqb k0 k) eqn:E; [discriminate|].
  apply String.eqb_neq in E. destruct Hin; auto.
Qed.

Lemma NoDup_keys_dict_set {V : Type} (d : dict V) k v :
  NoDup (keys d) -> NoDup (keys (dict_set d k v)).
Proof.
  intros H. rewrite keys_dict_set_cases.
  destruct (dict_mem d k) eqn:E; auto.
  apply NoDup_app; auto.
  - constructor; [intros []| constructor].
  - intros x Hx [Hk|[]]. subst x.
    now apply (dict_mem_false_not_in d k E).
Qed.

(** The scanner keeps one metadata entry per block name. *)
Lemma scan_header_metas l d :
  NoDup (keys (metas d)) -> NoDup (keys (metas (snd (scan_header l d)))).
Proof.
  intros H. unfold scan_header.
  destruct (is_empty (strip l)); auto.
  destruct (header_re (strip l)) as [[n m]|]; auto.
  simpl. now apply NoDup_keys_dict_set.
Qed.

Lemma store_block_metas n md c b d d' :
  store_block n md c b d = Ok d' -> metas d' = metas d.
Proof.
  unfold store_block. intros H.
  bind_inv H as df Hdf. bind_inv H as df2 Hdf2. now inversion H.
Qed.

Lemma scan_line_metas l st st' :
  scan_line l st = Ok st' ->
  NoDup (keys (metas (snd st))) -> NoDup (keys (metas (snd st'))).
Proof.
  destruct st as [m d]. unfold scan_line. destruct m; simpl.
  - intros H. inversion H; subst. apply scan_header_metas.
  - destruct (blank l); intros H; inversion H; subst; auto.
  - destruct (startswith "#" (strip l)).
    + intros H. bind_inv H as d1 Hd1. inversion H; subst.
      intros Hn. apply scan_header_metas.
      now rewrite (store_block_metas _ _ _ _ _ _ Hd1).
    + destruct (blank l); intros H; inversion H; subst; auto.
Qed.

Lemma scan_lines_metas lines :
  forall st st', scan_lines lines st = Ok st' ->
    NoDup (keys (metas (snd st))) -> NoDup (keys (metas (snd st'))).
Proof.
  induction lines as [|l r IH]; simpl; intros st st' H Hn.
  - now inversion H; subst.
  - bind_inv H as st1 H1. eapply IH; eauto. eapply scan_line_metas; eauto.
Qed.

Lemma scan_metas lines d :
  scan lines = Ok d -> NoDup (keys (metas d)).
Proof.
  unfold scan. intros H. bind_inv H as st Hst.
  assert (Hn : NoDup (keys (metas (snd st)))).
  { eapply scan_lines_metas; eauto. simpl. constructor. }
  destruct st as [m d0]. destruct m; simpl in *.
  - now inversion H; subst.
  - now inversion H; subst.
  - now rewrite (store_block_metas _ _ _ _ _ _ H).
Qed.

Lemma settled_text tbls b name :
  settled tbls b (CStr name) = if dict_mem tbls name then CRef name else CStr name.
Proof.
  unfold settled. cbn [resolved].
  destruct b, (dict_mem tbls name); reflexivity.
Qed.

(** C6.  After the resolution pass, in every block whose metadata has the
    key [refs] and for every listed column that the block's table has, the
    column has as many cells as before, and a cell that held a string
    holds a handle to the table of that name when the document has one,
    and the same string when it has none. *)
Theorem C6_reference_resolution :
  forall lines d tbls',
    scan lines = Ok d ->
    parse_blocks lines = Ok tbls' ->
    forall tbl md v df col s,
      dict_get (metas d) tbl = Some md ->
      dict_get md "refs" = Some v ->
      dict_get (tables d) tbl = Some df ->
      In col (iterate v) ->
      dict_get df col = Some s ->
      exists df' s',
        dict_get tbls' tbl = Some df' /\
        dict_get df' col = Some s' /\
        List.length (cells s') = List.length (cells s) /\
        forall i name,
          nth_error (cells s) i = Some (CStr name) ->
          nth_error (cells s') i =
            Some (if dict_mem tbls' name then CRef name else CStr name).
Proof.
  intros lines d tbls' Hscan Hparse tbl md v df col s Hmd Hrefs Hdf Hcol Hs.
  unfold parse_blocks in Hparse. rewrite Hscan in Hparse. simpl in Hparse.
  destruct (resolve_refs_state _ _ _ (scan_metas _ _ Hscan) Hparse)
    as [Hk Hall].
  destruct (Hall tbl df Hdf) as [df' [H1 H2]].
  rewrite Hmd, Hrefs in H2. destruct H2 as [_ H2].
  destruct (H2 col s Hs) as [s' [H3 H4]].
  replace (mem_str col (iterate v)) with true in H4
    by (symmetry; now apply mem_str_in).
  destruct H4 as [b H4].
  exists df', s'. split; [exact H1|]. split; [exact H3|]. rewrite H4. split.
  - apply length_map.
  - intros i name Hi. rewrite nth_error_map, Hi. cbn [option_map].
    rewrite settled_text. now rewrite (dict_mem_keys tbls' (tables d) name Hk).
Qed.

Lemma C6_reference_resolution_witness :
  exists df' s',
    dict_get
      [("A", [("id", {| dtype_of := DObject; cells := [CStr "x"] |})]);
       ("B", [("a_id", {| dtype_of := DObject; cells := [CRef "A"; CStr "Q"] |});
              ("n", {| dtype_of := DInt64; cells := [CInt 1; CInt 2] |})])]
      "B" = Some df' /\
    dict_get df' "a_id" = Some s' /\
    List.length (cells s') = 2 /\
    forall i name,
      nth_error [CStr "A"; CStr "Q"] i = Some (CStr name) ->
      nth_error (cells s') i =
        Some (if dict_mem
                   [("A", [("id", {| dtype_of := DObject; cells := [CStr "x"] |})]);
                    ("B", [("a_id", {| dtype_of := DObject;
                                       cells := [CRef "A"; CStr "Q"] |});
                           ("n", {| dtype_of := DInt64;
                                    cells := [CInt 1; CInt 2] |})])]
                   name
              then CRef name else CStr name).
Proof.
  exact (C6_reference_resolution refs_example
              {| tables :=
                   [("A", [("id", {| dtype_of := DObject; cells := [CStr "x"] |})]);
                    ("B", [("a_id", {| dtype_of := DObject;
                                       cells := [CStr "A"; CStr "Q"] |});
                           ("n", {| dtype_of := DInt64;
                                    cells := [CInt 1; CInt 2] |})])];
                 metas := [("A", []); ("B", [("refs", MList ["a_id"])])] |}
              [("A", [("id", {| dtype_of := DObject; cells := [CStr "x"] |})]);
               ("B", [("a_id", {| dtype_of := DObject;
                                  cells := [CRef "A"; CStr "Q"] |});
                      ("n", {| dtype_of := DInt64; cells := [CInt 1; CInt 2] |})])]
              eq_refl eq_refl
              "B" [("refs", MList ["a_id"])] (MList ["a_id"])
              [("a_id", {| dtype_of := DObject; cells := [CStr "A"; CStr "Q"] |});
               ("n", {| dtype_of := DInt64; cells := [CInt 1; CInt 2] |})]
              "a_id" {| dtype_of := DObject; cells := [CStr "A"; CStr "Q"] |}
              eq_refl eq_refl eq_refl (or_introl eq_refl) eq_refl).
Defined.

(** A listed column that holds numbers: a nullable integer column with a
    null comes back as floats, one without a null as plain integers. *)
Lemma refs_on_nullable_column :
  parse_jcsv (text_of ["#t{dtypes=[a:int],refs=[a]}"; "a,b"; "1,x"; ",y"]) =
    Ok [("t", [("a", {| dtype_of := DFloat64; cells := [CFloat "1.0"; CNull] |});
               ("b", {| dtype_of := DObject; cells := [CStr "x"; CStr "y"] |})])]
  /\
  parse_jcsv (text_of ["#t{dtypes=[a:int],refs=[a]}"; "a,b"; "1,x"; "2,y"]) =
    Ok [("t", [("a", {| dtype_of := DInt64; cells := [CInt 1; CInt 2] |});
               ("b", {| dtype_of := DObject; cells := [CStr "x"; CStr "y"] |})])].
Proof. split; reflexivity. Qed.

(** ** The block scanner *)

Lemma scan_lines_app l1 :
  forall l2 st,
    scan_lines (l1 ++ l2) st = (st' <- scan_lines l1 st ;; scan_lines l2 st').
Proof.
  induction l1 as [|l r IH]; simpl; intros l2 st; auto.
  destruct (scan_line l st) as [st1|e]; simpl; auto.
Qed.

Lemma header_re_hash s r :
  header_re s = Some r -> startswith "#" s = true /\ is_empty s = false.
Proof.
  destruct s as [|c s']; simpl; [discriminate|].
  destruct c as [[] [] [] [] [] [] [] []]; try discriminate. auto.
Qed.

Lemma scan_header_none l d :
  header_re (strip l) = None -> scan_header l d = (Scanning, d).
Proof.
  intros H. unfold scan_header. rewrite H. now destruct (is_empty (strip l)).
Qed.

Lemma scan_header_some l d name meta_str :
  header_re (strip l) = Some (name, meta_str) ->
  scan_header l d =
    (SeekColumns name (header_metadata meta_str),
     {| tables := tables d;
        metas := dict_set (metas d) name (header_metadata meta_str) |}).
Proof.
  intros H. unfold scan_header. rewrite H.
  destruct (header_re_hash _ _ H) as [_ E]. rewrite E.
  destruct meta_str; reflexivity.
Qed.

(** Lines that are not block headers leave the scanner where it is while
    it looks for a header. *)
Lemma scan_lines_no_header junk d :
  Forall (fun j => header_re (strip j) = None) junk ->
  scan_lines junk (Scanning, d) = Ok (Scanning, d).
Proof.
  induction junk as [|j r IH]; simpl; intros H; auto.
  inversion H; subst. rewrite scan_header_none by auto. simpl. auto.
Qed.

(** A [#] line that is no header, met outside the search for a CSV
    header, closes the body being collected and leaves the scanner
    looking for a header. *)
Lemma scan_line_hash l m d :
  seeking m = false ->
  startswith "#" (strip l) = true ->
  header_re (strip l) = None ->
  scan_line l (m, d) = (d1 <- scan_end (m, d) ;; Ok (Scanning, d1)).
Proof.
  intros Hm Hh Hn. destruct m; simpl in *; try discriminate.
  - now rewrite scan_header_none.
  - rewrite Hh. destruct (store_block block_name md col_line data_buf d); simpl; auto.
    now rewrite scan_header_none.
Qed.

Lemma scan_junk_dropped l junk rest m d :
  seeking m = false ->
  startswith "#" (strip l) = true ->
  header_re (strip l) = None ->
  Forall (fun j => header_re (strip j) = None) junk ->
  scan_lines (l :: junk ++ rest) (m, d) = scan_lines (l :: rest) (m, d).
Proof.
  intros Hm Hh Hn Hj. cbn [scan_lines]. rewrite scan_line_hash by auto.
  destruct (scan_end (m, d)) as [d1|e]; cbn [bind]; auto.
  rewrite scan_lines_app. now rewrite scan_lines_no_header.
Qed.

(** C10.  A line that starts with [#] and is no block header, met while
    the scanner collects a table body or looks for a header, ends the
    body without opening a block.  When the scanner has read the lines
    before it, is not waiting for a CSV header and stores the block it was
    reading, the lines between the [#] line and the next block header are
    dropped: they leave the scanner where the [#] line left it, looking
    for a header with the tables stored so far, and the document parses as
    it does without them.  Met while the scanner waits for the CSV header
    of a block, the [#] line is taken as that header. *)
Theorem C10_lines_after_stray_hash_dropped :
  forall l, startswith "#" (strip l) = true -> header_re (strip l) = None ->
    (forall name md col_line data_buf d,
        scan_line l (InBody name md col_line data_buf, d) =
          (d1 <- store_block name md col_line data_buf d ;; Ok (Scanning, d1)))
    /\
    (forall name md d,
        scan_line l (SeekColumns name md, d) =
          Ok (InBody name md (rstrip_nl l) [], d))
    /\
    (forall content content' mm mm' pre junk rest st d1,
        read_manifest (readlines content) = Ok (mm, pre ++ l :: junk ++ rest) ->
        read_manifest (readlines content') = Ok (mm', pre ++ l :: rest) ->
        scan_lines pre (Scanning, empty_doc) = Ok st ->
        seeking (fst st) = false ->
        scan_end st = Ok d1 ->
        Forall (fun j => header_re (strip j) = None) junk ->
        scan_lines (pre ++ [l]) (Scanning, empty_doc) = Ok (Scanning, d1)
        /\ scan_lines (pre ++ l :: junk) (Scanning, empty_doc) = Ok (Scanning, d1)
        /\ parse_jcsv content = parse_jcsv content').
Proof.
  intros l Hh Hn. split; [|split].
  - intros. now apply (scan_line_hash l (InBody name md col_line data_buf) d).
  - intros name md d. cbn [scan_line]. unfold blank.
    destruct (strip l); [discriminate Hh|reflexivity].
  - intros content content' mm mm' pre junk rest [m d] d1 Hc Hc' Hpre Hm Hend Hj.
    cbn [fst] in Hm.
    assert (Hl : scan_lines (pre ++ [l]) (Scanning, empty_doc) = Ok (Scanning, d1)).
    { rewrite scan_lines_app, Hpre. cbn [bind scan_lines].
      rewrite (scan_line_hash l m d Hm Hh Hn), Hend. reflexivity. }
    split; [exact Hl|]. split.
    + rewrite scan_lines_app, Hpre. cbn [bind].
      rewrite <- (app_nil_r junk).
      rewrite (scan_junk_dropped l junk [] m d Hm Hh Hn Hj).
      rewrite scan_lines_app, Hpre in Hl. exact Hl.
    + unfold parse_jcsv, parse_lines. rewrite Hc, Hc'. cbn [bind snd].
      unfold parse_blocks, scan. rewrite !scan_lines_app, Hpre. cbn [bind].
      now rewrite (scan_junk_dropped l junk rest m d Hm Hh Hn Hj).
Qed.

Lemma C10_lines_after_stray_hash_dropped_witness :
  parse_jcsv stray_hash_example = parse_jcsv stray_hash_example_cut.
Proof.
  refine (proj2 (proj2 (proj2 (proj2 (C10_lines_after_stray_hash_dropped
                                 ("#!bad" ++ newline)%string eq_refl eq_refl))
            stray_hash_example stray_hash_example_cut [] []
            (map (fun l => (l ++ newline)%string) ["#A"; "c"; "1"])
            (map (fun l => (l ++ newline)%string) ["7"])
            (map (fun l => (l ++ newline)%string) ["#B"; "x"; "2"])
            (InBody "A" [] "c" ["1"], {| tables := []; metas := [("A", [])] |})
            {| tables := [("A", [("c", {| dtype_of := DInt64; cells := [CInt 1] |})])];
               metas := [("A", [])] |}
            eq_refl eq_refl eq_refl eq_refl eq_refl _))).
  repeat constructor.
Defined.

(** The claim as it is written fails where the stray [#] line stands in
    the place of a CSV header: the line after it is a row of table [A]. *)
Lemma C10_counterexample :
  startswith "#" (strip "#!bad") = true /\
  header_re (strip "#!bad") = None /\
  header_re (strip "#B") = Some ("B", None) /\
  parse_jcsv hash_as_columns_example =
    Ok [("A", [("#!bad", {| dtype_of := DInt64; cells := [CInt 1] |})]);
        ("B", [("x", {| dtype_of := DInt64; cells := [CInt 2] |})])] /\
  parse_jcsv hash_as_columns_example <> parse_jcsv hash_as_columns_example_cut.
Proof.
  repeat split; try reflexivity.
  vm_compute. discriminate.
Qed.

Lemma scan_line_header l m d name meta_str :
  seeking m = false ->
  header_re (strip l) = Some (name, meta_str) ->
  scan_line l (m, d) =
    (d1 <- scan_end (m, d) ;;
     Ok (SeekColumns name (header_metadata meta_str),
         {| tables := tables d1;
            metas := dict_set (metas d1) name (header_metadata meta_str) |})).
Proof.
  intros Hm Hh. destruct (header_re_hash _ _ Hh) as [Hs _].
  destruct m; simpl in *; try discriminate.
  - now rewrite (scan_header_some _ _ _ _ Hh).
  - rewrite Hs.
    destruct (store_block block_name md col_line data_buf d); simpl; auto.
    now rewrite (scan_header_some _ _ _ _ Hh).
Qed.


(** A block whose metadata lists [refs] and that has no table makes the
    resolution pass fail. *)
Lemma resolve_refs_missing mds :
  forall tbls name md,
    dict_get mds name = Some md ->
    dict_mem md "refs" = true ->
    dict_mem tbls name = false ->
    exists e, resolve_refs mds tbls = Raise e.
Proof.
  induction mds as [|[t md0] rest IH]; simpl; intros tbls name md Hg Hr Hm.
  - discriminate.
  - destruct (String.eqb t name) eqn:E.
    + apply String.eqb_eq in E. subst t. inversion Hg; subst md0.
      unfold dict_mem in Hr. destruct (dict_get md "refs"); [|discriminate].
      unfold dict_item. unfold dict_mem in Hm.
      destruct (dict_get tbls name); [discriminate|]. simpl. eauto.
    + destruct (dict_get md0 "refs") as [v|]; [|eauto].
      unfold dict_item. destruct (dict_get tbls t) as [df0|] eqn:Et; simpl; [|eauto].
      destruct (resolve_columns tbls df0 (iterate v)) as [df1|e]; simpl; [|eauto].
      apply (IH _ name md); auto.
      unfold dict_mem in *. rewrite dict_get_set_other; auto.
      now apply String.eqb_neq.
Qed.


Lemma dict_set_fresh {V : Type} (d : dict V) k v :
  ~ In k (keys d) -> dict_set d k v = d ++ [(k, v)].
Proof.
  induction d as [|[k0 v0] r IH]; simpl; intros H; auto.
  destruct (String.eqb_spec k0 k) as [->|Hne]; [tauto|].
  f_equal. apply IH. tauto.
Qed.






Lemma resolve_columns_keys tbls cols :
  forall df df', resolve_columns tbls df cols = Ok df' -> keys df' = keys df.
Proof.
  induction cols as [|c r IH]; cbn [resolve_columns]; intros df df' H.
  - now inversion H.
  - bind_inv H as df1 H1. rewrite (IH _ _ H). unfold resolve_column in H1.
    destruct (dict_get df c) as [s|] eqn:E.
    + bind_inv H1 as s' Hs. inversion H1; subst. eapply keys_dict_set; eauto.
    + now inversion H1.
Qed.






(** ** The manifest *)

Lemma skip_blank_app pre rest :
  Forall (fun b => blank b = true) pre -> skip_blank (pre ++ rest) = skip_blank rest.
Proof.
  induction pre as [|b r IH]; simpl; intros H; auto.
  inversion H; subst. rewrite H2. auto.
Qed.

Lemma py_int_raises s e : py_int s = Raise e -> exists w, e = ValueError w.
Proof.
  unfold py_int.
  destruct (signed_value _ (rstrip_with is_cspace (lstrip_with is_cspace s)));
    intros H; inversion H; eauto.
Qed.





(** ** Malformed block bodies *)

(** C4.  A block whose body [read_csv] cannot parse makes [parse_jcsv]
    raise the parser error; the well-formed block after it, which parses
    on its own, is not returned. *)
Theorem C4_malformed_block_aborts :
  parse_jcsv malformed_block_example = Raise (ParserError "Expected fewer fields") /\
  parse_jcsv malformed_block_example_rest =
    Ok [("good", [("x", {| dtype_of := DInt64; cells := [CInt 1] |});
                  ("y", {| dtype_of := DObject; cells := [CStr "u"] |})])].
Proof. split; reflexivity. Qed.

(** ** Type tags and casts *)

Lemma tag_target_other t : t <> "int" -> t <> "float" -> tag_target t = None.
Proof.
  intros H1 H2. unfold tag_target.
  destruct (String.eqb_spec t "int"); [contradiction|].
  destruct (String.eqb_spec t "float"); [contradiction|]. reflexivity.
Qed.

Lemma dtype_target_spec dm c t :
  dtype_target dm (c, t) =
    match tag_target t with Some tg => dict_set dm c tg | None => dm end.
Proof.
  unfold dtype_target, tag_target. simpl.
  destruct (t =? "int")%string; auto. destruct (t =? "float")%string; auto.
Qed.

Lemma fold_dtype_target dts :
  forall acc col,
    NoDup (keys dts) ->
    dict_get (fold_left dtype_target dts acc) col =
      match dict_get dts col with
      | Some t =>
          match tag_target t with
          | Some tg => Some tg
          | None => dict_get acc col
          end
      | None => dict_get acc col
      end.
Proof.
  induction dts as [|[c t] r IH]; intros acc col Hnd; simpl; auto.
  inversion Hnd as [|? ? Hnotin Hnd']; subst.
  rewrite IH by auto. rewrite dtype_target_spec.
  destruct (String.eqb_spec c col) as [->|Hne].
  - rewrite (dict_get_not_in r col Hnotin).
    destruct (tag_target t); auto. apply dict_get_set_same.
  - destruct (tag_target t) as [tg|]; auto.
    rewrite dict_get_set_other by auto. reflexivity.
Qed.

Lemma fold_dtype_target_none dts :
  forall acc,
    (forall c t, In (c, t) dts -> tag_target t = None) ->
    fold_left dtype_target dts acc = acc.
Proof.
  induction dts as [|[c t] r IH]; intros acc H; simpl; auto.
  rewrite dtype_target_spec, (H c t) by (now left).
  apply IH. intros c' t' Hin. apply (H c' t'). now right.
Qed.

Lemma astype_series_dtype t s s' :
  astype_series t s = Ok s' -> dtype_of s' = target_dtype t.
Proof.
  unfold astype_series. intros H.
  destruct (dtype_of s), (cells s), t; try discriminate;
    bind_inv H as cs Hcs; now inversion H.
Qed.

Lemma astype_column df dm :
  forall df' col s',
    astype df dm = Ok df' ->
    dict_get df' col = Some s' ->
    exists s, dict_get df col = Some s /\
      match dict_get dm col with
      | Some t => astype_series t s = Ok s'
      | None => s' = s
      end.
Proof.
  unfold astype. intros df' col s' H. bind_inv H as u Hu. clear Hu u.
  revert df' H. induction df as [|[k s] r IH]; simpl; intros df' H Hg.
  - inversion H; subst. discriminate.
  - bind_inv H as c1 Hc1. bind_inv H as r' Hr'. inversion H; subst df'. clear H.
    assert (Hk : fst c1 = k).
    { destruct (dict_get dm k); [bind_inv Hc1 as s1 Hs1|];
        inversion Hc1; reflexivity. }
    destruct c1 as [k1 s1]. simpl in Hk. subst k1. simpl in Hg.
    destruct (String.eqb_spec k col) as [->|Hne].
    + inversion Hg; subst s1. exists s. split; auto.
      destruct (dict_get dm col).
      * bind_inv Hc1 as s2 Hs2. inversion Hc1; subst. exact Hs2.
      * now inversion Hc1.
    + eapply IH; eauto.
Qed.

Lemma apply_dtypes_column md dts df df' col s' :
  dict_get md "dtypes" = Some (DTypeMap dts) ->
  NoDup (keys dts) ->
  apply_dtypes md df = Ok df' ->
  dict_get df' col = Some s' ->
  match dict_get dts col with
  | Some tag =>
      match tag_target tag with
      | Some tg => dtype_of s' = target_dtype tg
      | None => dict_get df col = Some s'
      end
  | None => dict_get df col = Some s'
  end.
Proof.
  intros Hmd Hnd H Hg. unfold apply_dtypes in H. rewrite Hmd in H.
  pose proof (fold_dtype_target dts [] col Hnd) as Hf. simpl in Hf.
  destruct (fold_left dtype_target dts []) as [|p dm] eqn:E.
  - inversion H; subst df'. simpl in Hf.
    destruct (dict_get dts col) as [tag|]; auto.
    destruct (tag_target tag); auto. discriminate.
  - destruct (astype_column _ _ _ _ _ H Hg) as [s [Hs Hc]].
    rewrite Hf in Hc.
    destruct (dict_get dts col) as [tag|]; [|now subst].
    destruct (tag_target tag) as [tg|]; [|now subst].
    eapply astype_series_dtype; eauto.
Qed.

(** What the cast does for each tag: a column tagged [int] becomes a
    nullable integer column and a column tagged [float] a floating-point
    column whenever the cast succeeds; a column with any other tag, or with
    none, is left as [read_csv] inferred it, and tags that are not
    recognised raise no error. *)
Lemma apply_dtypes_by_tag :
  (forall md dts df df' col s',
      dict_get md "dtypes" = Some (DTypeMap dts) ->
      NoDup (keys dts) ->
      apply_dtypes md df = Ok df' ->
      dict_get df' col = Some s' ->
      (dict_get dts col = Some "int" -> dtype_of s' = DInt64Ext) /\
      (dict_get dts col = Some "float" -> dtype_of s' = DFloat64) /\
      (forall tag, dict_get dts col = Some tag ->
                   tag <> "int" -> tag <> "float" -> dict_get df col = Some s') /\
      (dict_get dts col = None -> dict_get df col = Some s'))
  /\
  (forall md dts df,
      dict_get md "dtypes" = Some (DTypeMap dts) ->
      (forall c tag, In (c, tag) dts -> tag <> "int" /\ tag <> "float") ->
      apply_dtypes md df = Ok df)
  /\
  (forall md df, dict_get md "dtypes" = None -> apply_dtypes md df = Ok df).
Proof.
  split; [|split].
  - intros md dts df df' col s' Hmd Hnd H Hg.
    pose proof (apply_dtypes_column md dts df df' col s' Hmd Hnd H Hg) as Hc.
    repeat split.
    + intros E. now rewrite E in Hc.
    + intros E. now rewrite E in Hc.
    + intros tag E H1 H2. rewrite E, (tag_target_other tag H1 H2) in Hc. exact Hc.
    + intros E. now rewrite E in Hc.
  - intros md dts df Hmd Hall. unfold apply_dtypes. rewrite Hmd.
    rewrite fold_dtype_target_none; auto.
    intros c t Hin. destruct (Hall c t Hin). now apply tag_target_other.
  - intros md df Hmd. unfold apply_dtypes. now rewrite Hmd.
Qed.

(** C8.  The block [#t{dtypes=[id:int]}] whose [id] values are 1, empty
    and 3 gives a nullable integer column with a null in the middle, and no
    error is raised.  The block [#t{dtypes=[a:str]}] with the columns
    [a,b] and the rows [1,x] and [2,y] has its tag read as [a: str], yet
    column [a] is returned as the 64-bit integers [read_csv] inferred, not
    as text: the loop over the tags (lines 149-154) has no branch for
    [str], although its comment says that [str] and the other tags keep
    the column as object. *)
Theorem C8_str_tag_keeps_inferred_integers :
  parse_jcsv int_cast_example =
    Ok [("t", [("id", {| dtype_of := DInt64Ext;
                         cells := [CInt 1; CNull; CInt 3] |});
               ("name", {| dtype_of := DObject;
                           cells := [CStr "a"; CStr "b"; CStr "c"] |})])]
  /\
  dict_get (header_metadata (Some "{dtypes=[a:str]}")) "dtypes"
    = Some (DTypeMap [("a", "str")])
  /\
  parse_jcsv str_tag_example =
    Ok [("t", [("a", {| dtype_of := DInt64; cells := [CInt 1; CInt 2] |});
               ("b", {| dtype_of := DObject; cells := [CStr "x"; CStr "y"] |})])].
Proof. repeat split; reflexivity. Qed.

(** ** Strings and lines *)

Lemma sapp_assoc (a b c : string) : ((a ++ b) ++ c = a ++ (b ++ c))%string.
Proof. induction a; simpl; congruence. Qed.

Lemma sapp_nil_r (a : string) : (a ++ "" = a)%string.
Proof. induction a; simpl; congruence. Qed.

Lemma has_char_app c a b :
  has_char c (a ++ b) = has_char c a || has_char c b.
Proof.
  induction a as [|x a IH]; simpl; auto. rewrite IH. now rewrite orb_assoc.
Qed.

Lemma nolf_app a b : nolf (a ++ b) = nolf a && nolf b.
Proof. unfold nolf. rewrite has_char_app. now rewrite negb_orb. Qed.

Lemma nolf_cons c s : nolf (String c s) = negb (Ascii.eqb c LF) && nolf s.
Proof. unfold nolf. simpl. now rewrite negb_orb. Qed.

Lemma concat_cons x xs :
  String.concat "" (x :: xs) = (x ++ String.concat "" xs)%string.
Proof. destruct xs; simpl; auto. now rewrite sapp_nil_r. Qed.

Lemma concat_app xs ys :
  String.concat "" (xs ++ ys) = (String.concat "" xs ++ String.concat "" ys)%string.
Proof.
  induction xs as [|x r IH]; auto.
  rewrite <- app_comm_cons, !concat_cons, IH. now rewrite sapp_assoc.
Qed.

Lemma text_of_cons l ls : text_of (l :: ls) = (l ++ newline ++ text_of ls)%string.
Proof. unfold text_of. rewrite map_cons, concat_cons. now rewrite sapp_assoc. Qed.

Lemma text_of_app a b : text_of (a ++ b) = (text_of a ++ text_of b)%string.
Proof. unfold text_of. now rewrite map_app, concat_app. Qed.

Lemma text_lines_line l rest :
  nolf l = true ->
  text_lines (l ++ String LF rest) = l :: text_lines rest.
Proof.
  induction l as [|c l IH]; intros H.
  - reflexivity.
  - rewrite nolf_cons in H. apply andb_true_iff in H. destruct H as [Hc Hl].
    apply negb_true_iff in Hc. simpl. rewrite Hc, IH by auto. reflexivity.
Qed.

Lemma text_lines_text_of ls :
  Forall (fun l => nolf l = true) ls -> text_lines (text_of ls) = ls.
Proof.
  induction ls as [|l r IH]; intros H.
  - reflexivity.
  - inversion H; subst. rewrite text_of_cons. unfold newline. simpl.
    rewrite text_lines_line by auto. now rewrite IH.
Qed.

Lemma mapM_app {A B : Type} (f : A -> result B) l1 l2 bs :
  mapM f (l1 ++ l2) = Ok bs ->
  exists b1 b2, mapM f l1 = Ok b1 /\ mapM f l2 = Ok b2 /\ bs = b1 ++ b2.
Proof.
  revert bs. induction l1 as [|a r IH]; simpl; intros bs H.
  - exists [], bs. auto.
  - bind_inv H as b Hb. bind_inv H as bs' Hbs. inversion H; subst.
    destruct (IH _ Hbs) as [b1 [b2 [H1 [H2 H3]]]]. subst.
    exists (b :: b1), b2. rewrite Hb, H1. auto.
Qed.

Lemma mapM_Forall2 {A B : Type} (f : A -> result B) l bs :
  mapM f l = Ok bs -> Forall2 (fun a b => f a = Ok b) l bs.
Proof.
  revert bs. induction l as [|a r IH]; simpl; intros bs H.
  - inversion H. constructor.
  - bind_inv H as b Hb. bind_inv H as bs' Hbs. inversion H; subst.
    constructor; auto.
Qed.

(** A list of texts, each a line followed by its line break. *)
Lemma lines_of_records {A : Type} (f : A -> result string) l bs :
  mapM f l = Ok bs ->
  (forall a b, In a l -> f a = Ok b ->
               exists x, b = (x ++ newline)%string /\ nolf x = true) ->
  exists xs, String.concat "" bs = text_of xs /\
             Forall (fun x => nolf x = true) xs /\
             List.length xs = List.length l.
Proof.
  revert bs. induction l as [|a r IH]; simpl; intros bs H Hf.
  - inversion H; subst. exists []. auto.
  - bind_inv H as b Hb. bind_inv H as bs' Hbs. inversion H; subst.
    destruct (Hf a b (or_introl eq_refl) Hb) as [x [-> Hx]].
    destruct (IH _ Hbs) as [xs [H1 [H2 H3]]].
    { intros a' b' Hin. apply Hf. now right. }
    exists (x :: xs). rewrite concat_cons, text_of_cons, H1, sapp_assoc.
    repeat split; auto. simpl. now rewrite H3.
Qed.

(** ** The writer *)

Lemma nolf_uint d : nolf (NilEmpty.string_of_uint d) = true.
Proof. induction d; simpl; auto. Qed.

Lemma nolf_str_of_N n : nolf (str_of_N n) = true.
Proof.
  unfold str_of_N, NilZero.string_of_uint.
  destruct (N.to_uint n) eqn:E; try reflexivity; rewrite <- E; apply nolf_uint.
Qed.

Lemma nolf_str_of_Z z : nolf (str_of_Z z) = true.
Proof.
  destruct z; simpl; auto using nolf_str_of_N.
  rewrite nolf_cons. simpl. apply nolf_str_of_N.
Qed.

Lemma nolf_double_quotes s : nolf (double_quotes s) = nolf s.
Proof.
  induction s as [|c s IH]; auto. simpl.
  destruct (Ascii.eqb c DQ) eqn:E.
  - apply Ascii.eqb_eq in E. subst c. rewrite !nolf_cons, IH. reflexivity.
  - rewrite !nolf_cons, IH. reflexivity.
Qed.

Lemma nolf_escape_quotes s : nolf (escape_quotes s) = nolf s.
Proof.
  induction s as [|c s IH]; auto. simpl.
  destruct (Ascii.eqb c DQ) eqn:E.
  - apply Ascii.eqb_eq in E. subst c. rewrite !nolf_cons, IH. reflexivity.
  - rewrite !nolf_cons, IH. reflexivity.
Qed.

Lemma nolf_wrap s : nolf (wrap DQ s) = nolf s.
Proof.
  unfold wrap. rewrite nolf_cons, nolf_app. simpl. now rewrite andb_true_r.
Qed.

Lemma nolf_csv_field s : nolf (csv_field s) = nolf s.
Proof.
  unfold csv_field. destruct (needs_quotes s); auto.
  rewrite nolf_cons, nolf_app, nolf_double_quotes. simpl. now rewrite andb_true_r.
Qed.

Lemma nolf_join sep l :
  nolf sep = true -> Forall (fun x => nolf x = true) l -> nolf (join sep l) = true.
Proof.
  intros Hs. induction l as [|x r IH]; intros H; auto.
  inversion H; subst. destruct r as [|y r']; auto.
  change (join sep (x :: y :: r')) with (x ++ sep ++ join sep (y :: r'))%string.
  rewrite !nolf_app, H2, Hs, IH; auto.
Qed.

Lemma nolf_record_line fields :
  Forall (fun x => nolf x = true) fields -> nolf (record_line fields) = true.
Proof.
  intros H. unfold record_line.
  assert (Hj : nolf (join "," (map csv_field fields)) = true).
  { apply nolf_join; auto. rewrite Forall_map.
    eapply Forall_impl; [|exact H]. intros x Hx. simpl. now rewrite nolf_csv_field. }
  destruct fields as [|f [|g r]]; auto.
  destruct (is_empty f); auto.
Qed.

Lemma cell_text_nolf c t :
  cell_text c = Ok t -> cell_nolf c = true -> nolf t = true.
Proof.
  destruct c; simpl; intros H Hc; inversion H; subst; auto.
  apply nolf_str_of_Z.
Qed.

Lemma row_at_nolf df i :
  table_nolf df = true -> Forall (fun c => cell_nolf c = true) (row_at i df).
Proof.
  unfold table_nolf, row_at. rewrite forallb_forall. intros H.
  apply Forall_map. apply Forall_forall. intros c Hin.
  specialize (H c Hin). apply andb_true_iff in H. destruct H as [_ H].
  rewrite forallb_forall in H.
  destruct (nth_in_or_default i (cells (snd c)) CNull) as [Hn|Hn].
  - now apply H.
  - now rewrite Hn.
Qed.

Lemma columns_nolf df :
  table_nolf df = true -> Forall (fun x => nolf x = true) (columns df).
Proof.
  unfold table_nolf, columns, keys. rewrite forallb_forall. intros H.
  apply Forall_map. apply Forall_forall. intros c Hin.
  specialize (H c Hin). apply andb_true_iff in H. tauto.
Qed.

Lemma cell_texts_nolf cs fs :
  mapM cell_text cs = Ok fs ->
  Forall (fun c => cell_nolf c = true) cs ->
  Forall (fun x => nolf x = true) fs.
Proof.
  intros H. apply mapM_Forall2 in H. induction H; intros Hc; constructor.
  - inversion Hc; subst. eapply cell_text_nolf; eauto.
  - inversion Hc; subst. auto.
Qed.

Lemma to_csv_lines df csv :
  to_csv df = Ok csv ->
  table_nolf df = true ->
  exists ls, csv = text_of ls /\ Forall (fun l => nolf l = true) ls /\
             List.length ls = S (len_df df).
Proof.
  unfold to_csv. intros H Hn. destruct df as [|c0 r0] eqn:Edf; [discriminate|].
  rewrite <- Edf in *. bind_inv H as rows Hrows. inversion H; subst csv. clear H.
  destruct (lines_of_records _ _ _ Hrows) as [xs [H1 [H2 H3]]].
  { intros i b _ Hb. unfold csv_row in Hb. bind_inv Hb as fs Hfs.
    inversion Hb; subst b. exists (record_line fs). split; auto.
    apply nolf_record_line. eapply cell_texts_nolf; eauto.
    now apply row_at_nolf. }
  exists (record_line (columns df) :: xs). rewrite text_of_cons, H1.
  unfold csv_record. rewrite sapp_assoc. repeat split; auto.
  - constructor; auto. apply nolf_record_line. now apply columns_nolf.
  - simpl. rewrite H3. now rewrite length_seq.
Qed.

Lemma nolf_dtype_tag d : nolf (dtype_tag d) = true.
Proof. destruct d; reflexivity. Qed.

Lemma title_line_nolf descriptions name df :
  nolf name = true ->
  table_nolf df = true ->
  (forall d, dict_get descriptions name = Some d -> nolf d = true) ->
  nolf (title_line descriptions name df) = true.
Proof.
  intros Hname Hdf Hd. unfold title_line.
  assert (Hm : nolf (block_meta descriptions name df) = true).
  { unfold block_meta.
    assert (Hj : nolf ("dtypes=[" ++ join ","
                (map (fun c : string * Series =>
                        (fst c ++ ":" ++ dtype_tag (dtype_of (snd c)))%string) df)
                ++ "]") = true).
    { rewrite !nolf_app. rewrite nolf_join; auto.
      apply Forall_map. apply Forall_forall. intros c Hin.
      rewrite !nolf_app, nolf_dtype_tag.
      unfold table_nolf in Hdf. rewrite forallb_forall in Hdf.
      specialize (Hdf c Hin). apply andb_true_iff in Hdf.
      destruct Hdf as [-> _]. reflexivity. }
    destruct (dict_get descriptions name) as [comment|]; auto.
    destruct (is_empty comment); auto.
    rewrite nolf_app, Hj, nolf_app, nolf_wrap, nolf_escape_quotes.
    now rewrite (Hd comment eq_refl). }
  rewrite !nolf_app, Hname, Hm. reflexivity.
Qed.

Lemma write_block_shape descriptions t b :
  write_block descriptions t = Ok b ->
  table_nolf (snd t) = true ->
  exists ls, b = text_of ls /\ block_shape descriptions t ls.
Proof.
  unfold write_block. intros H Hn. bind_inv H as csv Hcsv.
  inversion H; subst b. clear H.
  destruct (to_csv_lines _ _ Hcsv Hn) as [ls [-> [H2 H3]]].
  exists (EmptyString :: title_line descriptions (fst t) (snd t) :: ls).
  split.
  - rewrite !text_of_cons. reflexivity.
  - exists ls. auto.
Qed.

Lemma write_blocks_shape descriptions tbls blocks :
  mapM (write_block descriptions) tbls = Ok blocks ->
  Forall (fun t => table_nolf (snd t) = true) tbls ->
  exists bls, String.concat "" blocks = text_of (List.concat bls) /\
              Forall2 (block_shape descriptions) tbls bls.
Proof.
  revert blocks. induction tbls as [|t r IH]; simpl; intros blocks H Hn.
  - inversion H; subst. exists []. split; auto.
  - bind_inv H as b Hb. bind_inv H as bs Hbs. inversion H; subst. clear H.
    inversion Hn as [|? ? Ht Hr]; subst.
    destruct (write_block_shape _ _ _ Hb) as [ls [-> Hs]]; auto.
    destruct (IH _ Hbs) as [bls [Hc HF]]; auto.
    exists (ls :: bls). split; auto.
    rewrite concat_cons, Hc. simpl. now rewrite text_of_app.
Qed.

Lemma manifest_row_text start_lines descriptions name r :
  manifest_row start_lines descriptions name = Ok r ->
  exists z, dict_get start_lines name = Some z /\
    r = (manifest_line name z (manifest_desc descriptions name) ++ newline)%string.
Proof.
  unfold manifest_row, dict_item. intros H.
  destruct (dict_get start_lines name) as [z|]; [|discriminate].
  simpl in H. inversion H; subst r. exists z. split; auto.
  unfold manifest_line, manifest_desc. now rewrite !sapp_assoc.
Qed.

Lemma lines_before_nonneg tbls : forall k, (0 <= lines_before tbls k)%Z.
Proof.
  induction tbls as [|[n df] r IH]; intros [|k]; cbn [lines_before]; try lia.
  specialize (IH k). lia.
Qed.

Lemma start_lines_loop_other tbls :
  forall c acc name,
    ~ In name (keys tbls) ->
    dict_get (start_lines_loop tbls c acc) name = dict_get acc name.
Proof.
  induction tbls as [|[n df] r IH]; simpl; intros c acc name H; auto.
  rewrite IH by tauto. apply dict_get_set_other. tauto.
Qed.

Lemma start_lines_loop_get tbls :
  forall c acc k name df,
    NoDup (keys tbls) ->
    nth_error tbls k = Some (name, df) ->
    dict_get (start_lines_loop tbls c acc) name = Some (c + lines_before tbls k)%Z.
Proof.
  induction tbls as [|[n d] r IH]; intros c acc k name df Hnd Hk.
  - destruct k; discriminate.
  - inversion Hnd as [|? ? Hnotin Hnd']; subst.
    destruct k as [|k]; cbn [nth_error lines_before start_lines_loop] in *.
    + inversion Hk; subst. rewrite start_lines_loop_other by auto.
      rewrite dict_get_set_same. f_equal. lia.
    + rewrite (IH _ _ k name df); auto. unfold advance. f_equal. lia.
Qed.

Lemma nth_error_skip_block {A : Type} (a b : A) l1 l2 j :
  nth_error (a :: b :: l1 ++ l2) (S (S (List.length l1 + j))) = nth_error l2 j.
Proof.
  cbn [nth_error]. rewrite nth_error_app2 by lia. f_equal. lia.
Qed.

Lemma block_title_index descriptions tbls bls :
  Forall2 (block_shape descriptions) tbls bls ->
  forall k name df,
    nth_error tbls k = Some (name, df) ->
    nth_error (List.concat bls) (S (Z.to_nat (lines_before tbls k))) =
      Some (title_line descriptions name df).
Proof.
  induction 1 as [|t ls tbls bls Hs HF IH]; intros k name df Hk.
  - destruct k; discriminate.
  - destruct Hs as [csv_lines [-> [_ Hlen]]]. destruct t as [n d].
    cbn [fst snd] in *.
    change (List.concat ((EmptyString :: title_line descriptions n d :: csv_lines)
                           :: bls))
      with (EmptyString :: title_line descriptions n d
              :: csv_lines ++ List.concat bls).
    destruct k as [|k]; cbn [lines_before].
    + inversion Hk; subst. reflexivity.
    + pose proof (lines_before_nonneg tbls k) as Hnn.
      replace (S (Z.to_nat (2 + Z.of_nat (len_df d) + 1 + lines_before tbls k)))
        with (S (S (List.length csv_lines +
                    S (Z.to_nat (lines_before tbls k))))) by lia.
      rewrite nth_error_skip_block. apply IH. exact Hk.
Qed.

Lemma manifest_rows_shape tbls descriptions names rows :
  mapM (manifest_row (compute_start_lines tbls) descriptions) names = Ok rows ->
  exists mls, String.concat "" rows = text_of mls /\
              Forall2 (manifest_shape tbls descriptions) names mls.
Proof.
  revert rows. induction names as [|n r IH]; simpl; intros rows H.
  - inversion H; subst. exists []. auto.
  - bind_inv H as b Hb. bind_inv H as bs Hbs. inversion H; subst. clear H.
    destruct (manifest_row_text _ _ _ _ Hb) as [z [Hz ->]].
    destruct (IH _ Hbs) as [mls [Hc HF]].
    exists (manifest_line n z (manifest_desc descriptions n) :: mls).
    rewrite concat_cons, text_of_cons, Hc, sapp_assoc. split; auto.
    constructor; auto. exists z. auto.
Qed.

Lemma manifest_desc_nolf descriptions name :
  (forall d, dict_get descriptions name = Some d -> nolf d = true) ->
  nolf (manifest_desc descriptions name) = true.
Proof.
  intros H. unfold manifest_desc.
  destruct (dict_get descriptions name) as [d|].
  - destruct (has_char "," d); [rewrite nolf_wrap|]; now apply H.
  - reflexivity.
Qed.

Lemma Forall2_nth_error_left {A B : Type} (P : A -> B -> Prop) l1 l2 :
  Forall2 P l1 l2 ->
  forall k a, nth_error l1 k = Some a ->
    exists b, nth_error l2 k = Some b /\ P a b.
Proof.
  induction 1 as [|x y l1 l2 Hxy HF IH]; intros k a Hk.
  - destruct k; discriminate.
  - destruct k as [|k]; simpl in *.
    + inversion Hk; subst. eauto.
    + eauto.
Qed.

(** The lines of the emitted text: the two lines that open the manifest,
    one row per table, and the lines of the blocks. *)
Lemma export_lines tbls descriptions text :
  export_jcsv tbls descriptions = Ok text ->
  Forall (fun t => nolf (fst t) = true /\ table_nolf (snd t) = true) tbls ->
  (forall name d, dict_get descriptions name = Some d -> nolf d = true) ->
  exists mls bls,
    text_lines text =
      ["#manifest"; "table,start_line,description"] ++ mls ++ List.concat bls /\
    Forall2 (manifest_shape tbls descriptions) (keys tbls) mls /\
    Forall2 (block_shape descriptions) tbls bls.
Proof.
  intros H Hn Hd. unfold export_jcsv in H.
  bind_inv H as rows Hrows. bind_inv H as blocks Hblocks.
  inversion H; subst text. clear H.
  destruct (manifest_rows_shape _ _ _ _ Hrows) as [mls [Hm HFm]].
  destruct (write_blocks_shape _ _ _ Hblocks) as [bls [Hb HFb]].
  { eapply Forall_impl; [|exact Hn]. simpl. tauto. }
  exists mls, bls. split; [|split; auto].
  rewrite Hm, Hb.
  change (text_lines
            (text_of ["#manifest"; "table,start_line,description"]
             ++ (text_of mls ++ text_of (List.concat bls)))%string =
          ["#manifest"; "table,start_line,description"] ++ mls ++ List.concat bls).
  rewrite <- !text_of_app.
  apply text_lines_text_of.
  apply Forall_app. split; [repeat constructor|].
  apply Forall_app. split.
  - clear - HFm Hn Hd.
    assert (Hk : Forall (fun n => nolf n = true) (keys tbls)).
    { unfold keys. apply Forall_map. eapply Forall_impl; [|exact Hn].
      simpl. tauto. }
    induction HFm as [|n l ns ls [z [_ ->]] HF IH]; constructor.
    + inversion Hk; subst. unfold manifest_line.
      rewrite !nolf_app, nolf_str_of_Z, manifest_desc_nolf by eauto.
      now rewrite H1.
    + inversion Hk; subst. auto.
  - clear - HFb Hn Hd.
    induction HFb as [|t ls ts bls [csv [-> [Hcsv _]]] HF IH]; simpl; auto.
    inversion Hn as [|? ? [Hname Ht] Hr]; subst.
    constructor; [reflexivity|]. constructor.
    + apply title_line_nolf; eauto.
    + apply Forall_app. split; auto.
Qed.

(** The start line of the table at position [k] and what stands on that
    line of the emitted text. *)
Lemma manifest_offsets :
  forall tbls descriptions text,
    NoDup (keys tbls) ->
    Forall (fun t => nolf (fst t) = true /\ table_nolf (snd t) = true) tbls ->
    (forall name d, dict_get descriptions name = Some d -> nolf d = true) ->
    export_jcsv tbls descriptions = Ok text ->
    forall k name df,
      nth_error tbls k = Some (name, df) ->
      let start_line := (first_cursor tbls + lines_before tbls k)%Z in
      dict_get (compute_start_lines tbls) name = Some start_line /\
      line_at (3 + Z.of_nat k) text =
        Some (manifest_line name start_line (manifest_desc descriptions name)) /\
      line_at start_line text = Some (title_line descriptions name df).
Proof.
  intros tbls descriptions text Hnd Hn Hd H k name df Hk start_line.
  subst start_line.
  destruct (export_lines _ _ _ H Hn Hd) as [mls [bls [Hl [HFm HFb]]]].
  assert (Hkey : nth_error (keys tbls) k = Some name).
  { unfold keys. rewrite nth_error_map, Hk. reflexivity. }
  destruct (Forall2_nth_error_left _ _ _ HFm k name Hkey)
    as [ml [Hml [z [Hz ->]]]].
  unfold compute_start_lines in *.
  rewrite (start_lines_loop_get tbls _ [] k name df Hnd Hk) in Hz.
  inversion Hz; subst z. clear Hz.
  pose proof (lines_before_nonneg tbls k) as Hnn.
  assert (Hlen : List.length mls = List.length tbls).
  { apply Forall2_length in HFm. unfold keys in HFm.
    now rewrite length_map in HFm. }
  split; [apply (start_lines_loop_get tbls _ [] k name df Hnd Hk)|].
  unfold line_at. rewrite Hl. split.
  - destruct (3 + Z.of_nat k <=? 0)%Z eqn:E; [apply Z.leb_le in E; lia|].
    replace (Z.to_nat (3 + Z.of_nat k - 1)) with (S (S k)) by lia.
    cbn [app nth_error]. rewrite nth_error_app1; auto.
    apply nth_error_Some. congruence.
  - unfold first_cursor, manifest_line_count.
    destruct (1 + 1 + Z.of_nat (List.length tbls) + 1 + 1
              + lines_before tbls k <=? 0)%Z eqn:E; [apply Z.leb_le in E; lia|].
    replace (Z.to_nat (1 + 1 + Z.of_nat (List.length tbls) + 1 + 1
                       + lines_before tbls k - 1))
      with (S (S (List.length mls + S (Z.to_nat (lines_before tbls k)))))
      by lia.
    cbn [app nth_error]. rewrite nth_error_app2 by lia.
    replace (List.length mls + S (Z.to_nat (lines_before tbls k))
             - List.length mls)
      with (S (Z.to_nat (lines_before tbls k))) by lia.
    eapply block_title_index; eauto.
Qed.




(** C2.  The manifest takes 2 + number of tables + 1 lines; the cursor
    starts one line after it (the blank line that opens the first block
    is counted once); each table moves the cursor by 2 + its row count
    + 1.  With a single table [t1] (of two rows or of any other number),
    the start line is 5 and the fifth emitted line is the title line of
    [t1]. *)
Theorem C2_offset_formula :
  (forall tbls,
      manifest_line_count tbls = (2 + Z.of_nat (List.length tbls) + 1)%Z) /\
  (forall tbls, first_cursor tbls = (manifest_line_count tbls + 1)%Z) /\
  (forall cursor df,
      advance cursor df = (cursor + (2 + Z.of_nat (len_df df) + 1))%Z) /\
  (forall tbls k name df,
      NoDup (keys tbls) ->
      nth_error tbls k = Some (name, df) ->
      dict_get (compute_start_lines tbls) name =
        Some (first_cursor tbls + lines_before tbls k)%Z) /\
  (forall df text,
      table_nolf df = true ->
      export_jcsv [("t1", df)] [] = Ok text ->
      dict_get (compute_start_lines [("t1", df)]) "t1" = Some 5%Z /\
      line_at 3 text = Some (manifest_line "t1" 5 "") /\
      line_at 5 text = Some (title_line [] "t1" df)).
Proof.
  split; [|split; [|split; [|split]]].
  - intros tbls. unfold manifest_line_count. lia.
  - reflexivity.
  - reflexivity.
  - intros tbls k name df Hnd Hk. unfold compute_start_lines.
    apply (start_lines_loop_get tbls _ [] k name df Hnd Hk).
  - intros df text Hn H.
    assert (Hnd : NoDup (keys [("t1", df)])).
    { repeat constructor. intros []. }
    assert (Hall : Forall (fun t : string * DataFrame =>
                             nolf (fst t) = true /\ table_nolf (snd t) = true)
                     [("t1", df)]).
    { repeat constructor. exact Hn. }
    assert (Hd : forall name d : string,
               dict_get (@nil (string * string)) name = Some d -> nolf d = true).
    { intros name d Hd. discriminate. }
    exact (manifest_offsets [("t1", df)] [] text Hnd Hall Hd H 0%nat "t1" df
             eq_refl).
Qed.

Lemma C2_offset_formula_witness :
  exists text,
    export_jcsv t1_example [] = Ok text /\
    line_at 3 text = Some "t1,5," /\
    line_at 5 text = Some "#t1{dtypes=[id:int,name:str]}".
Proof.
  pose (text := match export_jcsv t1_example [] with
                | Ok t => t
                | Raise _ => EmptyString
                end).
  destruct (proj2 (proj2 (proj2 (proj2 C2_offset_formula)))
              [("id", {| dtype_of := DInt64; cells := [CInt 1; CInt 2] |});
               ("name", {| dtype_of := DObject;
                           cells := [CStr "Alice"; CStr "Bob"] |})]
              text eq_refl eq_refl) as [_ [H3 H5]].
  exists text. split; [reflexivity|]. split; [exact H3|exact H5].
Defined.

(** The claim as it is written fails: the cursor starts one line after the
    manifest, not two, and the sixth emitted line is the CSV header. *)
Lemma C2_counterexample :
  first_cursor t1_example <> (manifest_line_count t1_example + 2)%Z /\
  exists text,
    export_jcsv t1_example [] = Ok text /\
    line_at 6 text = Some "id,name" /\
    line_at 6 text <> Some "#t1{dtypes=[id:int,name:str]}" /\
    line_at 5 text = Some "#t1{dtypes=[id:int,name:str]}".
Proof.
  split; [vm_compute; discriminate|].
  eexists. split; [reflexivity|]. repeat split; try reflexivity.
  vm_compute. discriminate.
Qed.

(** ** Character classes *)

Lemma all_chars_app p a b : all_chars p (a ++ b) = all_chars p a && all_chars p b.
Proof. induction a as [|c a IH]; simpl; auto. rewrite IH. now rewrite andb_assoc. Qed.

Lemma all_chars_impl (p q : ascii -> bool) s :
  (forall c, p c = true -> q c = true) ->
  all_chars p s = true -> all_chars q s = true.
Proof.
  intros H. induction s as [|c s IH]; simpl; auto.
  intros Hs. apply andb_true_iff in Hs. destruct Hs as [Hc Hs].
  now rewrite (H c Hc), IH.
Qed.

Lemma all_chars_has_char p c s :
  all_chars p s = true -> p c = false -> has_char c s = false.
Proof.
  intros Hs Hc. induction s as [|a s IH]; simpl in *; auto.
  apply andb_true_iff in Hs. destruct Hs as [Ha Hs].
  rewrite IH by auto. rewrite orb_false_r.
  destruct (Ascii.eqb_spec a c); auto. subst. congruence.
Qed.

Lemma all_chars_join p sep l :
  all_chars p sep = true ->
  Forall (fun x => all_chars p x = true) l ->
  all_chars p (join sep l) = true.
Proof.
  intros Hs. induction l as [|x r IH]; intros H; auto.
  inversion H; subst. destruct r as [|y r']; auto.
  change (join sep (x :: y :: r')) with (x ++ sep ++ join sep (y :: r'))%string.
  rewrite !all_chars_app, H2, Hs, IH; auto.
Qed.

(** ** Stripping *)

Lemma lstrip_first a r : is_space a = false -> lstrip (String a r) = String a r.
Proof. intros H. unfold lstrip. simpl. now rewrite H. Qed.

Lemma rstrip_with_blank p w :
  all_chars p w = true -> rstrip_with p w = EmptyString.
Proof.
  induction w as [|a w IH]; simpl; auto.
  intros H. apply andb_true_iff in H. destruct H as [Ha Hw].
  now rewrite IH, Ha.
Qed.

Lemma rstrip_with_app_blank p l w :
  all_chars p w = true -> rstrip_with p (l ++ w) = rstrip_with p l.
Proof.
  intros H. induction l as [|a l IH]; simpl.
  - now apply rstrip_with_blank.
  - now rewrite IH.
Qed.

Lemma rstrip_last_nonspace s : last_nonspace s = true -> rstrip s = s.
Proof.
  unfold rstrip. induction s as [|a s IH]; simpl; [discriminate|].
  destruct s as [|b s'].
  - intros H. apply negb_true_iff in H. simpl. now rewrite H.
  - intros H. rewrite IH by auto. simpl. now rewrite andb_false_r.
Qed.

Lemma last_nonspace_app a b :
  is_empty b = false -> last_nonspace (a ++ b) = last_nonspace b.
Proof.
  intros H. induction a as [|c a IH]; simpl; auto.
  destruct (a ++ b)%string eqn:E; auto.
  destruct a; simpl in E; [subst b|]; discriminate.
Qed.

Lemma strip_trimmed s : trimmed s = true -> strip s = s.
Proof.
  unfold trimmed, strip. intros H. apply andb_true_iff in H. destruct H as [H1 H2].
  destruct s as [|a r]; [discriminate|]. simpl in H1. apply negb_true_iff in H1.
  rewrite lstrip_first by auto. now apply rstrip_last_nonspace.
Qed.

Lemma trimmed_app a b :
  first_nonspace a = true -> last_nonspace b = true -> trimmed (a ++ b) = true.
Proof.
  intros Ha Hb. unfold trimmed.
  rewrite last_nonspace_app by (destruct b; [discriminate|reflexivity]).
  rewrite Hb. destruct a as [|c a]; [discriminate|]. simpl in *. now rewrite Ha.
Qed.

(** The line [l], read back with its line break. *)
Lemma strip_line l : trimmed l = true -> strip (l ++ newline) = l.
Proof.
  intros H. pose proof (strip_trimmed l H) as Hs.
  unfold trimmed in H. apply andb_true_iff in H. destruct H as [H1 H2].
  destruct l as [|a r]; [discriminate|]. simpl in H1. apply negb_true_iff in H1.
  unfold strip in *. simpl append. rewrite lstrip_first in * by auto.
  change (String a (r ++ newline)) with (String a r ++ newline)%string.
  unfold rstrip in *. rewrite rstrip_with_app_blank; auto.
Qed.

Lemma strip_line_first a r :
  is_space a = false ->
  exists r', strip (String a r ++ newline) = String a r'.
Proof.
  intros H. unfold strip. simpl append. rewrite lstrip_first by auto.
  unfold rstrip. simpl. rewrite H. simpl. eauto.
Qed.

Lemma rstrip_nl_line l : nolf l = true -> rstrip_nl (l ++ newline) = l.
Proof.
  unfold rstrip_nl. induction l as [|a l IH]; intros H.
  - reflexivity.
  - rewrite nolf_cons in H. apply andb_true_iff in H. destruct H as [Ha Hl].
    cbn [append rstrip_with]. rewrite IH by auto. apply negb_true_iff in Ha.
    rewrite Ascii.eqb_sym, Ha. reflexivity.
Qed.

Lemma blank_newline : blank newline = true.
Proof. reflexivity. Qed.

(** ** Numbers as text *)

Lemma dash_prefix_spec (s : string) :
  match s with String "-" r => r | _ => s end =
  match s with
  | String a r => if Ascii.eqb a "-" then r else s
  | EmptyString => s
  end.
Proof.
  destruct s as [|a r]; auto.
  destruct a as [[] [] [] [] [] [] [] []]; reflexivity.
Qed.

Lemma signed_value_spec digits s :
  signed_value digits s =
  match s with
  | String a r =>
      if Ascii.eqb a "-" then
        match digits r with Some n => Some (- Z.of_N n)%Z | None => None end
      else if Ascii.eqb a "+" then
        match digits r with Some n => Some (Z.of_N n) | None => None end
      else
        match digits s with Some n => Some (Z.of_N n) | None => None end
  | EmptyString =>
      match digits s with Some n => Some (Z.of_N n) | None => None end
  end.
Proof.
  destruct s as [|a r]; auto.
  destruct a as [[] [] [] [] [] [] [] []]; reflexivity.
Qed.

Lemma digit_not_sign a :
  is_digit a = true ->
  Ascii.eqb a "-" = false /\ Ascii.eqb a "+" = false /\ Ascii.eqb a "_" = false
  /\ is_space a = false /\ is_cspace a = false /\ Ascii.eqb a "#" = false
  /\ plain_char a = true.
Proof.
  destruct a as [[] [] [] [] [] [] [] []]; intros H; try discriminate;
    repeat split; reflexivity.
Qed.

Lemma digits_uint d : all_chars is_digit (NilEmpty.string_of_uint d) = true.
Proof. induction d; simpl; auto. Qed.

Lemma digits_str_of_N n : all_chars is_digit (str_of_N n) = true.
Proof.
  unfold str_of_N, NilZero.string_of_uint.
  destruct (N.to_uint n) eqn:E; try reflexivity; rewrite <- E; apply digits_uint.
Qed.

Lemma str_of_N_nonempty n : is_empty (str_of_N n) = false.
Proof.
  unfold str_of_N, NilZero.string_of_uint. destruct (N.to_uint n); reflexivity.
Qed.

Lemma digits_value_str_of_N n : digits_value (str_of_N n) = Some n.
Proof.
  unfold digits_value, str_of_N.
  destruct n as [|p].
  - reflexivity.
  - rewrite NilZero.usu by apply Unsigned.to_uint_nonnil.
    f_equal. apply (DecimalN.Unsigned.of_to (Npos p)).
Qed.

Lemma first_digit s :
  all_chars is_digit s = true -> is_empty s = false ->
  exists a r, s = String a r /\ is_digit a = true.
Proof.
  destruct s as [|a r]; simpl; [discriminate|]. intros H _.
  apply andb_true_iff in H. destruct H. eauto.
Qed.

Lemma signed_value_str_of_Z z : signed_value digits_value (str_of_Z z) = Some z.
Proof.
  rewrite signed_value_spec. destruct z as [|p|p]; unfold str_of_Z.
  - reflexivity.
  - destruct (first_digit _ (digits_str_of_N (Npos p)) (str_of_N_nonempty _))
      as [a [r [E Ha]]].
    rewrite E. destruct (digit_not_sign a Ha) as [-> [-> _]].
    rewrite <- E, digits_value_str_of_N. reflexivity.
  - change (Ascii.eqb "-" "-") with true. cbv iota.
    rewrite digits_value_str_of_N. reflexivity.
Qed.

Lemma num_char_plain c : num_char c = true -> plain_char c = true.
Proof.
  destruct c as [[] [] [] [] [] [] [] []]; intros H; try discriminate; reflexivity.
Qed.

Lemma num_char_nonspace c : num_char c = true -> negb (is_space c) = true.
Proof.
  destruct c as [[] [] [] [] [] [] [] []]; intros H; try discriminate; reflexivity.
Qed.

Lemma num_char_noncspace c : num_char c = true -> negb (is_cspace c) = true.
Proof.
  destruct c as [[] [] [] [] [] [] [] []]; intros H; try discriminate; reflexivity.
Qed.

Lemma digit_num_char c : is_digit c = true -> num_char c = true.
Proof. intros H. unfold num_char. now rewrite H. Qed.

Lemma num_chars_str_of_Z z : all_chars num_char (str_of_Z z) = true.
Proof.
  assert (H : forall n, all_chars num_char (str_of_N n) = true).
  { intros n. eapply all_chars_impl; [apply digit_num_char|apply digits_str_of_N]. }
  destruct z; simpl; auto.
Qed.

Lemma str_of_Z_nonempty z : is_empty (str_of_Z z) = false.
Proof. destruct z; simpl; auto using str_of_N_nonempty. Qed.

Lemma str_of_Z_no_point z : has_char "." (str_of_Z z) = false.
Proof.
  assert (H : forall n, has_char "." (str_of_N n) = false).
  { intros n. eapply all_chars_has_char; [apply digits_str_of_N|reflexivity]. }
  destruct z; simpl; auto.
Qed.

Lemma lstrip_with_none p s :
  all_chars (fun c => negb (p c)) s = true -> lstrip_with p s = s.
Proof.
  destruct s as [|a r]; simpl; auto. intros H.
  apply andb_true_iff in H. destruct H as [Ha _].
  apply negb_true_iff in Ha. now rewrite Ha.
Qed.

Lemma rstrip_with_none p s :
  all_chars (fun c => negb (p c)) s = true -> rstrip_with p s = s.
Proof.
  induction s as [|a r IH]; simpl; auto. intros H.
  apply andb_true_iff in H. destruct H as [Ha Hr].
  apply negb_true_iff in Ha. now rewrite IH, Ha.
Qed.

Lemma strip_num s : all_chars num_char s = true -> strip s = s.
Proof.
  intros H. unfold strip, lstrip, rstrip.
  assert (Hn : all_chars (fun c => negb (is_space c)) s = true)
    by (eapply all_chars_impl; [apply num_char_nonspace|exact H]).
  now rewrite lstrip_with_none, rstrip_with_none.
Qed.

Lemma pandas_int_str_of_Z z : pandas_int (str_of_Z z) = Some z.
Proof.
  unfold pandas_int.
  assert (Hn : all_chars (fun c => negb (is_cspace c)) (str_of_Z z) = true)
    by (eapply all_chars_impl; [apply num_char_noncspace|apply num_chars_str_of_Z]).
  rewrite lstrip_with_none, rstrip_with_none by auto.
  apply signed_value_str_of_Z.
Qed.

Lemma drop_underscores_digits s :
  all_chars is_digit s = true ->
  forall b, b = true \/ is_empty s = false -> drop_underscores b s = Some s.
Proof.
  induction s as [|a r IH]; simpl; intros H b Hb.
  - destruct Hb as [->|Hb]; [reflexivity|discriminate].
  - apply andb_true_iff in H. destruct H as [Ha Hr].
    destruct (digit_not_sign a Ha) as [_ [_ [-> _]]]. rewrite Ha.
    rewrite (IH Hr true) by auto. reflexivity.
Qed.

Lemma py_int_str_of_Z z : py_int (str_of_Z z) = Ok z.
Proof.
  unfold py_int.
  assert (Hn : all_chars (fun c => negb (is_cspace c)) (str_of_Z z) = true)
    by (eapply all_chars_impl; [apply num_char_noncspace|apply num_chars_str_of_Z]).
  rewrite lstrip_with_none, rstrip_with_none by auto.
  pose proof (signed_value_str_of_Z z) as H.
  rewrite signed_value_spec in *.
  assert (Hd : forall n,
             match drop_underscores false (str_of_N n) with
             | Some t' => digits_value t'
             | None => None
             end = digits_value (str_of_N n)).
  { intros n. rewrite drop_underscores_digits; auto using digits_str_of_N.
    right. apply str_of_N_nonempty. }
  destruct z as [|p|p]; unfold str_of_Z in *.
  - reflexivity.
  - destruct (first_digit _ (digits_str_of_N (Npos p)) (str_of_N_nonempty _))
      as [a [r [E Ha]]].
    rewrite E in *. destruct (digit_not_sign a Ha) as [E1 [E2 _]].
    rewrite E1, E2 in *. rewrite <- E in *. rewrite Hd.
    destruct (digits_value (str_of_N (N.pos p))); inversion H; reflexivity.
  - change (Ascii.eqb "-" "-") with true in *. cbv iota in *. rewrite Hd.
    destruct (digits_value (str_of_N (N.pos p))); inversion H; reflexivity.
Qed.

Lemma not_na_nonempty_num s :
  all_chars num_char s = true -> has_char "." s = false ->
  is_empty s = false -> mem_str s na_values = false.
Proof.
  intros H Hp He. destruct (mem_str s na_values) eqn:E; auto.
  apply mem_str_in in E. simpl in E.
  repeat (destruct E as [E|E]; [subst s; discriminate|]). destruct E.
Qed.

Lemma split1_none c s : has_char c s = false -> split1 c s = None.
Proof.
  induction s as [|a r IH]; simpl; auto. intros H.
  apply orb_false_iff in H. destruct H as [Ha Hr].
  now rewrite Ha, IH.
Qed.

Lemma split1_some c s a b :
  split1 c s = Some (a, b) ->
  s = (a ++ String c b)%string /\ has_char c a = false.
Proof.
  revert a b. induction s as [|x r IH]; simpl; intros a b H; [discriminate|].
  destruct (Ascii.eqb_spec x c) as [->|Hne].
  - inversion H; subst. auto.
  - destruct (split1 c r) as [[h t]|]; [|discriminate].
    inversion H; subst. destruct (IH h b eq_refl) as [-> Hh].
    split; auto. simpl. rewrite Hh.
    destruct (Ascii.eqb_spec x c); [contradiction|reflexivity].
Qed.

Lemma split1_app c a b :
  has_char c a = false -> split1 c (a ++ String c b) = Some (a, b).
Proof.
  induction a as [|x r IH]; simpl; intros H.
  - now rewrite Ascii.eqb_refl.
  - apply orb_false_iff in H. destruct H as [Hx Hr].
    now rewrite Hx, IH.
Qed.

Lemma not_float_str_of_Z z : is_float_repr (str_of_Z z) = false.
Proof.
  unfold is_float_repr. rewrite dash_prefix_spec.
  pose proof (str_of_Z_no_point z) as H.
  destruct (str_of_Z z) as [|a r] eqn:E; [reflexivity|].
  simpl in H. apply orb_false_iff in H. destruct H as [Ha Hr].
  destruct (Ascii.eqb a "-").
  - now rewrite split1_none.
  - rewrite split1_none; auto. simpl. now rewrite Ha.
Qed.

Lemma classify_int z : in_int64 z = true -> classify (str_of_Z z) = TInt z.
Proof.
  intros H. unfold classify.
  rewrite not_na_nonempty_num
    by auto using num_chars_str_of_Z, str_of_Z_no_point, str_of_Z_nonempty.
  now rewrite not_float_str_of_Z, pandas_int_str_of_Z, H.
Qed.

Lemma float_repr_not_na r : is_float_repr r = true -> mem_str r na_values = false.
Proof.
  intros H. destruct (mem_str r na_values) eqn:E; auto.
  apply mem_str_in in E. simpl in E.
  repeat (destruct E as [E|E]; [subst r; discriminate|]). destruct E.
Qed.

Lemma classify_float r : is_float_repr r = true -> classify r = TFloat r.
Proof.
  intros H. unfold classify. now rewrite float_repr_not_na, H.
Qed.

Lemma classify_text s : is_text_token s = true -> classify s = TText.
Proof. unfold is_text_token. destruct (classify s); auto; discriminate. Qed.

Lemma text_not_na s : is_text_token s = true -> mem_str s na_values = false.
Proof.
  unfold is_text_token, classify. destruct (mem_str s na_values); auto.
Qed.

Lemma float_repr_chars r :
  is_float_repr r = true -> all_chars num_char r = true /\ is_empty r = false.
Proof.
  unfold is_float_repr. rewrite dash_prefix_spec. intros H.
  assert (Hb : forall body,
             match split1 "." body with
             | Some (ip, fp) =>
                 canonical_int_part ip && canonical_frac_part fp
                 && (String.length ip + String.length fp <=? 15)%nat
                 && (negb (ip =? "0")%string || (fp =? "0")%string
                     || (leading_zeros fp <=? 3)%nat)
             | None => false
             end = true ->
             all_chars num_char body = true /\ is_empty body = false).
  { intros body Hbody. destruct (split1 "." body) as [[ip fp]|] eqn:E;
      [|discriminate].
    apply split1_some in E. destruct E as [-> _].
    repeat (apply andb_true_iff in Hbody; destruct Hbody as [Hbody ?]).
    unfold canonical_int_part, canonical_frac_part in *.
    repeat match goal with
           | H : _ && _ = true |- _ => apply andb_true_iff in H; destruct H
           end.
    split.
    - rewrite all_chars_app. simpl.
      rewrite (all_chars_impl is_digit num_char ip digit_num_char) by auto.
      rewrite (all_chars_impl is_digit num_char fp digit_num_char) by auto.
      reflexivity.
    - destruct ip; [discriminate|reflexivity]. }
  destruct r as [|a r']; [discriminate|].
  destruct (Ascii.eqb_spec a "-") as [->|Hne].
  - destruct (Hb r' H) as [H1 H2]. split; auto.
  - destruct (Hb (String a r') H) as [H1 H2]. split; auto.
Qed.

(** ** The tokenizer on unquoted records *)

Lemma rmap_rmap {A B C : Type} (f : B -> C) (g : A -> B) (x : result A) :
  rmap f (rmap g x) = rmap (fun a => f (g a)) x.
Proof. destruct x; reflexivity. Qed.

Lemma rmap_ext {A B : Type} (f g : A -> B) (x : result A) :
  (forall a, f a = g a) -> rmap f x = rmap g x.
Proof. intros H. destruct x; simpl; auto. unfold rmap. simpl. now rewrite H. Qed.

Lemma rmap_id {A : Type} (x : result A) : rmap (fun a => a) x = x.
Proof. destruct x; reflexivity. Qed.

Lemma push_string_head f fs rs :
  push_string f ((EmptyString :: fs) :: rs) = (f :: fs) :: rs.
Proof. induction f as [|c r IH]; simpl; auto. now rewrite IH. Qed.

Lemma plain_char_spec c :
  plain_char c = true ->
  Ascii.eqb c LF = false /\ Ascii.eqb c CR = false /\ Ascii.eqb c "," = false
  /\ Ascii.eqb c DQ = false.
Proof.
  unfold plain_char. intros H.
  repeat (apply andb_true_iff in H; destruct H as [H ?]).
  repeat match goal with
         | H : negb _ = true |- _ => apply negb_true_iff in H
         end.
  auto.
Qed.

Lemma tok_in_field_end x :
  line_end x -> tokenize IN_FIELD x = rmap (cons [EmptyString]) (after_line x).
Proof. intros [->|[rest ->]]; reflexivity. Qed.

Lemma tok_in_field f x :
  all_chars plain_char f = true ->
  tokenize IN_FIELD (f ++ x) = rmap (push_string f) (tokenize IN_FIELD x).
Proof.
  induction f as [|c r IH]; intros H.
  - symmetry. apply (rmap_id (tokenize IN_FIELD x)).
  - simpl in H. apply andb_true_iff in H. destruct H as [Hc Hr].
    destruct (plain_char_spec c Hc) as [E1 [E2 [E3 E4]]].
    cbn [append tokenize]. rewrite E1, E2, E3, IH by auto.
    rewrite rmap_rmap. reflexivity.
Qed.

Lemma tok_start_field f x :
  all_chars plain_char f = true ->
  line_end x \/ (exists r, x = String "," r) ->
  tokenize START_FIELD (f ++ x) = rmap (push_string f) (tokenize IN_FIELD x).
Proof.
  intros H Hx. destruct f as [|c r].
  - change (rmap (push_string "") (tokenize IN_FIELD x))
      with (rmap (fun a => a) (tokenize IN_FIELD x)).
    rewrite rmap_id.
    destruct Hx as [[->|[rest ->]]|[rest ->]]; reflexivity.
  - simpl in H. apply andb_true_iff in H. destruct H as [Hc Hr].
    destruct (plain_char_spec c Hc) as [E1 [E2 [E3 E4]]].
    cbn [append tokenize]. rewrite E1, E2, E3, E4, tok_in_field by auto.
    rewrite rmap_rmap. reflexivity.
Qed.

Lemma tok_fields fs :
  forall f x,
    Forall (fun g => all_chars plain_char g = true) (f :: fs) ->
    line_end x ->
    tokenize START_FIELD (join "," (f :: fs) ++ x) =
      rmap (cons (f :: fs)) (after_line x).
Proof.
  induction fs as [|g fs IH]; intros f x Hall Hx.
  - inversion Hall; subst. simpl join.
    rewrite tok_start_field, tok_in_field_end, rmap_rmap by auto.
    apply rmap_ext. intros R. apply push_string_head.
  - inversion Hall; subst.
    change (join "," (f :: g :: fs)) with (f ++ "," ++ join "," (g :: fs))%string.
    rewrite sapp_assoc. rewrite tok_start_field; auto.
    2:{ right. simpl. eauto. }
    change (("," ++ join "," (g :: fs)) ++ x)%string
      with (String "," (join "," (g :: fs) ++ x)).
    cbn [tokenize]. change (Ascii.eqb "," LF) with false.
    change (Ascii.eqb "," CR) with false. change (Ascii.eqb "," ",") with true.
    cbv iota. rewrite IH by auto. rewrite !rmap_rmap.
    apply rmap_ext. intros R. simpl end_field. apply push_string_head.
Qed.

Lemma needs_quotes_plain f : all_chars plain_char f = true -> needs_quotes f = false.
Proof.
  intros H. unfold needs_quotes.
  rewrite !(all_chars_has_char plain_char _ f H); reflexivity.
Qed.

Lemma csv_field_plain f : all_chars plain_char f = true -> csv_field f = f.
Proof. intros H. unfold csv_field. now rewrite needs_quotes_plain. Qed.

Lemma map_csv_field_plain fs :
  Forall (fun g => all_chars plain_char g = true) fs -> map csv_field fs = fs.
Proof.
  induction 1; simpl; auto. now rewrite csv_field_plain, IHForall.
Qed.

Lemma tok_start_record c r :
  Ascii.eqb c LF = false -> is_blank_char c = false ->
  tokenize START_RECORD (String c r) = tokenize START_FIELD (String c r).
Proof. intros H1 H2. cbn [tokenize]. now rewrite H1, H2. Qed.

Lemma space_not_blank c :
  is_space c = false -> Ascii.eqb c LF = false /\ is_blank_char c = false.
Proof.
  destruct c as [[] [] [] [] [] [] [] []]; intros H; try discriminate;
    split; reflexivity.
Qed.

(** One record written without quotes is read back as its fields. *)
Lemma tok_record f fs x :
  Forall (fun g => all_chars plain_char g = true) (f :: fs) ->
  field_start f = true ->
  line_end x ->
  tokenize START_RECORD (record_line (f :: fs) ++ x) =
    rmap (cons (f :: fs)) (after_line x).
Proof.
  intros Hall Hf Hx. unfold record_line.
  destruct fs as [|g fs'].
  - destruct f as [|a r].
    + simpl. destruct Hx as [->|[rest ->]]; reflexivity.
    + cbn [is_empty]. inversion Hall; subst. rewrite csv_field_plain by auto.
      simpl in Hf. apply negb_true_iff in Hf.
      destruct (space_not_blank a Hf) as [E1 E2].
      cbn [append]. rewrite tok_start_record by auto.
      apply (tok_fields [] (String a r) x); auto.
  - rewrite map_csv_field_plain by auto.
    rewrite <- (tok_fields (g :: fs') f x) by auto.
    change (join "," (f :: g :: fs')) with (f ++ "," ++ join "," (g :: fs'))%string.
    destruct f as [|a r].
    + reflexivity.
    + simpl in Hf. apply negb_true_iff in Hf.
      destruct (space_not_blank a Hf) as [E1 E2].
      cbn [append]. now rewrite tok_start_record.
Qed.

Lemma join_cons2 sep x y r :
  join sep (x :: y :: r) = (x ++ sep ++ join sep (y :: r))%string.
Proof. reflexivity. Qed.

(** A text of unquoted records, joined by line feeds, is read back as
    the list of their fields. *)
Lemma tok_records recs :
  recs <> [] ->
  Forall (fun fs => exists f r, fs = f :: r /\ field_start f = true /\
                    Forall (fun g => all_chars plain_char g = true) fs) recs ->
  tokenize START_RECORD (join newline (map record_line recs)) = Ok recs.
Proof.
  induction recs as [|fs rest IH]; intros Hne Hall; [contradiction|].
  inversion Hall as [|? ? [f [r [-> [Hf Hp]]]] Hrest]; subst.
  destruct rest as [|gs rest'].
  - cbn [map join]. rewrite <- (sapp_nil_r (record_line (f :: r))).
    rewrite tok_record; auto. left. reflexivity.
  - cbn [map]. rewrite join_cons2. unfold newline at 1.
    change (String LF "" ++ join newline (record_line gs :: map record_line rest'))%string
      with (String LF (join newline (map record_line (gs :: rest')))).
    rewrite tok_record; auto.
    + cbn [after_line]. rewrite IH; auto. discriminate.
    + right. eauto.
Qed.

(** ** Type inference on the columns of the round trip *)

Lemma existsb_none {A : Type} (f : A -> bool) l :
  (forall x, In x l -> f x = false) -> existsb f l = false.
Proof.
  induction l as [|a r IH]; simpl; auto. intros H.
  rewrite (H a) by auto. apply IH. auto.
Qed.

Lemma forallb_all {A : Type} (f : A -> bool) l :
  (forall x, In x l -> f x = true) -> forallb f l = true.
Proof. intros H. apply forallb_forall. exact H. Qed.

Lemma cell_ok_plain d c :
  cell_ok d c = true -> all_chars plain_char (cell_str c) = true.
Proof.
  destruct d, c; simpl; intros H; try discriminate; auto.
  - apply andb_true_iff in H. tauto.
  - eapply all_chars_impl; [apply num_char_plain|apply num_chars_str_of_Z].
  - eapply all_chars_impl; [apply num_char_plain|apply num_chars_str_of_Z].
  - eapply all_chars_impl; [apply num_char_plain|].
    now apply float_repr_chars.
Qed.

Lemma classify_cell d c :
  cell_ok d c = true -> classify (cell_str c) = cell_class c.
Proof.
  destruct d, c; simpl; intros H; try discriminate; auto.
  - apply andb_true_iff in H. destruct H as [_ H]. now apply classify_text.
  - now apply classify_int.
  - now apply classify_int.
  - now apply classify_float.
Qed.

Lemma classify_cells d cs :
  forallb (cell_ok d) cs = true ->
  map classify (map cell_str cs) = map cell_class cs.
Proof.
  induction cs as [|c r IH]; simpl; auto. intros H.
  apply andb_true_iff in H. destruct H as [Hc Hr].
  now rewrite (classify_cell d c Hc), IH.
Qed.

Lemma cell_class_known d c : cell_ok d c = true -> is_unknown (cell_class c) = false.
Proof. destruct d, c; simpl; intros H; try discriminate; auto. Qed.

Lemma infer_text cs :
  forallb (cell_ok DObject) cs = true ->
  infer_column (map cell_str cs) = Ok {| dtype_of := DObject; cells := cs |}.
Proof.
  intros H. unfold infer_column. rewrite (classify_cells DObject cs H).
  rewrite forallb_forall in H.
  rewrite existsb_none.
  2:{ intros x Hx. apply in_map_iff in Hx. destruct Hx as [c [<- Hc]].
      apply (cell_class_known DObject). auto. }
  assert (Hobj : map object_cell (map cell_str cs) = cs).
  { clear - H. induction cs as [|c r IH]; simpl; auto.
    rewrite IH by (intros x Hx; apply H; now right). f_equal.
    specialize (H c (or_introl eq_refl)). destruct c; try discriminate.
    simpl in *. apply andb_true_iff in H. destruct H as [_ H].
    unfold object_cell. now rewrite text_not_na. }
  destruct cs as [|c r]; [reflexivity|].
  assert (Ht : existsb is_text (map cell_class (c :: r)) = true).
  { specialize (H c (or_introl eq_refl)). destruct c; try discriminate.
    reflexivity. }
  rewrite Ht, Hobj. reflexivity.
Qed.

Lemma int_cells_back cs :
  (forall c, In c cs -> exists z, c = CInt z) ->
  map (fun x => int_cell (cell_class x)) cs = cs.
Proof.
  induction cs as [|c r IH]; simpl; auto. intros H.
  rewrite IH by (intros x Hx; apply H; now right). f_equal.
  destruct (H c (or_introl eq_refl)) as [z ->]. reflexivity.
Qed.

Lemma float_cells_back cs :
  (forall c, In c cs -> (exists r, c = CFloat r) \/ c = CNull) ->
  mapM float_cell (map cell_class cs) = Ok cs.
Proof.
  induction cs as [|c r IH]; simpl; auto. intros H.
  rewrite IH by (intros x Hx; apply H; now right).
  destruct (H c (or_introl eq_refl)) as [[x ->]| ->]; reflexivity.
Qed.

Lemma infer_int d cs :
  d = DInt64 \/ d = DInt64Ext ->
  forallb (cell_ok d) cs = true ->
  infer_column (map cell_str cs) =
    Ok {| dtype_of := match cs with [] => DObject | _ => DInt64 end; cells := cs |}.
Proof.
  intros Hd H. unfold infer_column. rewrite (classify_cells d cs H).
  rewrite forallb_forall in H.
  assert (Hint : forall c, In c cs -> exists z, c = CInt z).
  { intros c Hc. specialize (H c Hc).
    destruct Hd as [-> | ->]; destruct c; try discriminate; eauto. }
  rewrite existsb_none.
  2:{ intros x Hx. apply in_map_iff in Hx. destruct Hx as [c [<- Hc]].
      destruct (Hint c Hc) as [z ->]. reflexivity. }
  rewrite existsb_none.
  2:{ intros x Hx. apply in_map_iff in Hx. destruct Hx as [c [<- Hc]].
      destruct (Hint c Hc) as [z ->]. reflexivity. }
  destruct cs as [|c r]; [reflexivity|].
  cbn [map]. rewrite <- map_cons.
  rewrite forallb_all.
  2:{ intros x Hx. apply in_map_iff in Hx. destruct Hx as [c' [<- Hc]].
      destruct (Hint c' Hc) as [z ->]. reflexivity. }
  f_equal. f_equal. rewrite map_map. exact (int_cells_back (c :: r) Hint).
Qed.

Lemma infer_float cs :
  forallb (cell_ok DFloat64) cs = true ->
  infer_column (map cell_str cs) =
    Ok {| dtype_of := match cs with [] => DObject | _ => DFloat64 end; cells := cs |}.
Proof.
  intros H. unfold infer_column. rewrite (classify_cells DFloat64 cs H).
  rewrite forallb_forall in H.
  assert (Hfl : forall c, In c cs -> (exists r, c = CFloat r) \/ c = CNull).
  { intros c Hc. specialize (H c Hc). destruct c; try discriminate; eauto. }
  rewrite existsb_none.
  2:{ intros x Hx. apply in_map_iff in Hx. destruct Hx as [c [<- Hc]].
      destruct (Hfl c Hc) as [[r ->]| ->]; reflexivity. }
  rewrite existsb_none.
  2:{ intros x Hx. apply in_map_iff in Hx. destruct Hx as [c [<- Hc]].
      destruct (Hfl c Hc) as [[r ->]| ->]; reflexivity. }
  destruct cs as [|c r]; [reflexivity|].
  cbn [map]. rewrite <- map_cons.
  assert (Hni : forallb is_int (map cell_class (c :: r)) = false).
  { simpl. destruct (Hfl c (or_introl eq_refl)) as [[x ->]| ->]; reflexivity. }
  rewrite Hni.
  rewrite float_cells_back by auto. reflexivity.
Qed.

Lemma infer_column_ok s :
  forallb (cell_ok (dtype_of s)) (cells s) = true ->
  infer_column (map cell_str (cells s)) =
    Ok {| dtype_of := inferred_dtype s; cells := cells s |}.
Proof.
  intros H. unfold inferred_dtype. destruct (dtype_of s) eqn:E.
  - rewrite infer_text by auto. now destruct (cells s).
  - rewrite (infer_int DInt64) by auto. now destruct (cells s).
  - rewrite (infer_int DInt64Ext) by auto. now destruct (cells s).
  - rewrite infer_float by auto. now destruct (cells s).
Qed.

(** ** [read_csv] on what [to_csv] wrote *)

Lemma nodupb_NoDup l : nodupb l = true -> NoDup l.
Proof.
  induction l as [|x r IH]; simpl; intros H; constructor.
  - apply andb_true_iff in H. destruct H as [H _].
    apply negb_true_iff in H. intros Hin. apply mem_str_in in Hin. congruence.
  - apply andb_true_iff in H. tauto.
Qed.

Lemma map_nth_seq {A : Type} (l : list A) d :
  map (fun i => nth i l d) (seq 0 (List.length l)) = l.
Proof.
  induction l as [|a r IH]; simpl; auto. f_equal.
  rewrite <- seq_shift, map_map. exact IH.
Qed.

Lemma mapM_seq_ok {A B : Type} (F : nat -> result B) (h : A -> B) (l : list A) d :
  forall start,
    (forall k, k < List.length l -> F (start + k) = Ok (h (nth k l d))) ->
    mapM F (seq start (List.length l)) = Ok (map h l).
Proof.
  induction l as [|a r IH]; intros start H; simpl; auto.
  rewrite <- (Nat.add_0_r start) at 1. rewrite (H 0) by (simpl; lia).
  simpl. rewrite (IH (S start)); auto.
  intros k Hk. replace (S start + k) with (start + S k) by lia.
  apply (H (S k)). simpl. lia.
Qed.

Lemma nth_default_prop {A : Type} (P : A -> Prop) l d i :
  (forall x, In x l -> P x) -> P d -> P (nth i l d).
Proof.
  intros H Hd. destruct (nth_in_or_default i l d) as [Hn|Hn].
  - now apply H.
  - now rewrite Hn.
Qed.

(** What [table_ok] says, column by column. *)
Lemma table_ok_columns df :
  table_ok df = true ->
  Forall (fun c : string * Series =>
            all_chars col_char (fst c) = true /\ trimmed (fst c) = true /\
            List.length (cells (snd c)) = len_df df /\
            forallb (cell_ok (dtype_of (snd c))) (cells (snd c)) = true) df.
Proof.
  unfold table_ok. intros H. apply andb_true_iff in H. destruct H as [_ H].
  rewrite forallb_forall in H. apply Forall_forall. intros c Hc.
  specialize (H c Hc). unfold column_ok in H.
  repeat (apply andb_true_iff in H; destruct H as [H ?]).
  repeat split; auto. now apply Nat.eqb_eq.
Qed.

Lemma table_ok_nodup df : table_ok df = true -> NoDup (columns df).
Proof.
  unfold table_ok. intros H.
  repeat (apply andb_true_iff in H; destruct H as [H ?]).
  now apply nodupb_NoDup.
Qed.

Lemma col_char_plain c : col_char c = true -> plain_char c = true.
Proof.
  unfold col_char. intros H.
  do 3 (apply andb_true_iff in H; destruct H as [H ?]). exact H.
Qed.

Lemma trimmed_field_start s : trimmed s = true -> field_start s = true.
Proof.
  unfold trimmed. destruct s; simpl; [discriminate|].
  intros H. apply andb_true_iff in H. tauto.
Qed.

Lemma trimmed_nonempty s : trimmed s = true -> is_empty s = false.
Proof. destruct s; [discriminate|reflexivity]. Qed.

Lemma row_start_field_start s : row_start s = true -> field_start s = true.
Proof.
  destruct s; simpl; auto. intros H. apply andb_true_iff in H. tauto.
Qed.

Lemma row_fields_plain df i :
  table_ok df = true ->
  Forall (fun g => all_chars plain_char g = true) (row_fields df i).
Proof.
  intros H. pose proof (table_ok_columns df H) as Hc.
  unfold row_fields, row_at. rewrite map_map. apply Forall_map.
  eapply Forall_impl; [|exact Hc]. intros c [_ [_ [_ Hcells]]]. simpl.
  rewrite forallb_forall in Hcells.
  apply (nth_default_prop (fun x => all_chars plain_char (cell_str x) = true)).
  - intros x Hx. eapply cell_ok_plain. apply Hcells. exact Hx.
  - reflexivity.
Qed.

Lemma row_fields_record df i :
  table_ok df = true ->
  exists f r, row_fields df i = f :: r /\ field_start f = true /\
              Forall (fun g => all_chars plain_char g = true) (row_fields df i).
Proof.
  intros H. pose proof (row_fields_plain df i H) as Hp.
  unfold table_ok in H. apply andb_true_iff in H. destruct H as [H _].
  apply andb_true_iff in H. destruct H as [H _].
  destruct df as [|[n0 s0] rest]; [discriminate|]. simpl in H.
  unfold row_fields, row_at in *. cbn [map fst snd] in *.
  eexists. eexists. split; [reflexivity|]. split; auto.
  apply row_start_field_start. rewrite forallb_forall in H.
  apply (nth_default_prop (fun x => row_start (cell_str x) = true)); auto.
Qed.

Lemma columns_record df :
  table_ok df = true ->
  exists f r, columns df = f :: r /\ field_start f = true /\
              Forall (fun g => all_chars plain_char g = true) (columns df).
Proof.
  intros H. pose proof (table_ok_columns df H) as Hc.
  assert (Hp : Forall (fun g => all_chars plain_char g = true) (columns df)).
  { unfold columns, keys. apply Forall_map.
    eapply Forall_impl; [|exact Hc]. intros c [Hch _]. simpl.
    eapply all_chars_impl; [apply col_char_plain|exact Hch]. }
  unfold table_ok in H. apply andb_true_iff in H. destruct H as [H _].
  apply andb_true_iff in H. destruct H as [H _].
  destruct df as [|[n0 s0] rest]; [discriminate|].
  inversion Hc as [|? ? [_ [Ht _]] _]; subst.
  unfold columns, keys in *. cbn [map fst] in *.
  eexists. eexists. split; [reflexivity|]. split; auto.
  now apply trimmed_field_start.
Qed.

Lemma tokenize_csv_records df :
  table_ok df = true ->
  tokenize START_RECORD (join newline (map record_line (csv_records df)))
    = Ok (csv_records df).
Proof.
  intros H. apply tok_records; [discriminate|].
  unfold csv_records. constructor.
  - now apply columns_record.
  - apply Forall_map. apply Forall_forall. intros i _.
    now apply row_fields_record.
Qed.

Lemma cut_nul_none f : has_char NUL f = false -> cut_nul f = f.
Proof.
  induction f as [|c r IH]; cbn [has_char cut_nul]; intros H; [reflexivity|].
  apply orb_false_iff in H. destruct H as [Hc Hr]. rewrite Hc. now rewrite IH.
Qed.

Lemma cut_nul_row fs :
  Forall (fun g => has_char NUL g = false) fs -> map cut_nul fs = fs.
Proof.
  induction 1 as [|f r Hf _ IH]; cbn [map]; [reflexivity|].
  now rewrite cut_nul_none, IH.
Qed.

Lemma nul_free_columns df :
  nul_free df = true -> Forall (fun g => has_char NUL g = false) (columns df).
Proof.
  unfold nul_free, columns, keys. intros H. apply Forall_map.
  apply Forall_forall. intros c Hin. rewrite forallb_forall in H.
  specialize (H c Hin). apply andb_true_iff in H. destruct H as [H _].
  now apply negb_true_iff in H.
Qed.

Lemma nul_free_row_fields df i :
  nul_free df = true -> Forall (fun g => has_char NUL g = false) (row_fields df i).
Proof.
  unfold nul_free, row_fields, row_at. intros H. rewrite map_map.
  apply Forall_map. apply Forall_forall. intros c Hin. rewrite forallb_forall in H.
  specialize (H c Hin). apply andb_true_iff in H. destruct H as [_ H].
  rewrite forallb_forall in H.
  destruct (Nat.lt_ge_cases i (List.length (cells (snd c)))) as [Hlt|Hge].
  - apply negb_true_iff. apply H. now apply nth_In.
  - now rewrite nth_overflow.
Qed.

(** The fields of a table without NUL are read as they were written. *)
Lemma tokens_csv_records df :
  table_ok df = true ->
  nul_free df = true ->
  tokens (join newline (map record_line (csv_records df))) = Ok (csv_records df).
Proof.
  intros H Hnul. unfold tokens. rewrite tokenize_csv_records by auto.
  unfold rmap, csv_records. cbn [bind map]. f_equal. f_equal.
  - apply cut_nul_row. now apply nul_free_columns.
  - rewrite map_map. apply map_ext. intros i.
    apply cut_nul_row. now apply nul_free_row_fields.
Qed.

(** A field is cut at its first NUL character. *)
Lemma read_csv_cuts_at_nul :
  read_csv (String "k" (String LF (String "a" (String NUL "b")))) =
    Ok [("k", {| dtype_of := DObject; cells := [CStr "a"] |})].
Proof. reflexivity. Qed.

Lemma row_fields_length df i : List.length (row_fields df i) = List.length df.
Proof. unfold row_fields, row_at. now rewrite !length_map. Qed.

Lemma column_tokens df k :
  table_ok df = true ->
  k < List.length df ->
  map (fun r => nth k r EmptyString) (map (row_fields df) (seq 0 (len_df df)))
    = map cell_str
        (cells (snd (nth k df (EmptyString, {| dtype_of := DObject; cells := [] |})))).
Proof.
  intros H Hk. pose proof (table_ok_columns df H) as Hc.
  set (d0 := (EmptyString, {| dtype_of := DObject; cells := [] |})).
  rewrite Forall_forall in Hc.
  destruct (Hc (nth k df d0) (nth_In df d0 Hk)) as [_ [_ [Hlen _]]].
  rewrite map_map.
  rewrite <- (map_nth_seq (cells (snd (nth k df d0))) CNull) at 1.
  rewrite map_map, Hlen. apply map_ext. intros i.
  unfold row_fields, row_at.
  change EmptyString with (cell_str CNull) at 1. rewrite map_nth.
  f_equal.
  rewrite (nth_indep _ CNull
             ((fun c : string * Series => nth i (cells (snd c)) CNull) d0))
    by (rewrite length_map; exact Hk).
  exact (map_nth (fun c : string * Series => nth i (cells (snd c)) CNull) df d0 k).
Qed.

Lemma combine_map {A B C : Type} (f : A -> B) (g : A -> C) l :
  combine (map f l) (map g l) = map (fun x => (f x, g x)) l.
Proof. induction l; simpl; congruence. Qed.

Lemma pad_full w row : List.length row = w -> pad w row = row.
Proof. intros <-. unfold pad. rewrite Nat.sub_diag. simpl. apply app_nil_r. Qed.

Lemma read_csv_records df :
  table_ok df = true ->
  nul_free df = true ->
  read_csv (join newline (map record_line (csv_records df))) = Ok (inferred df).
Proof.
  intros H Hnul. unfold read_csv. rewrite tokens_csv_records by auto.
  cbn [bind]. unfold csv_records.
  set (data := map (row_fields df) (seq 0 (len_df df))).
  pose proof (table_ok_columns df H) as Hc.
  assert (Hw : List.length (columns df) = List.length df).
  { unfold columns, keys. apply length_map. }
  assert (Hrows : forall r, In r data -> List.length r = List.length (columns df)).
  { intros r Hr. unfold data in Hr. apply in_map_iff in Hr.
    destruct Hr as [i [<- _]]. now rewrite row_fields_length. }
  assert (Hexp : Nat.max (List.length (columns df)) (List.length (hd [] data))
                 = List.length (columns df)).
  { destruct data as [|r0 rs]; simpl.
    - apply Nat.max_0_r.
    - rewrite (Hrows r0) by (now left). apply Nat.max_id. }
  cbv zeta. rewrite Hexp.
  rewrite existsb_none.
  2:{ intros r Hr. unfold too_long. apply Nat.ltb_ge.
      rewrite (Hrows r); auto. destruct data; [destruct Hr|now right]. }
  rewrite Nat.ltb_irrefl.
  rewrite existsb_none.
  2:{ intros x Hx. unfold columns, keys in Hx. apply in_map_iff in Hx.
      destruct Hx as [c [<- Hin]]. rewrite Forall_forall in Hc.
      destruct (Hc c Hin) as [_ [Ht _]]. now apply trimmed_nonempty. }
  assert (Hnd : nodupb (columns df) = true).
  { unfold table_ok in H. apply andb_true_iff in H. destruct H as [H _].
    apply andb_true_iff in H. tauto. }
  rewrite Hnd. cbn [negb orb].
  assert (Hpad : map (pad (List.length (columns df))) data = data).
  { rewrite <- (map_id data) at 2. apply map_ext_in.
    intros r Hr. apply pad_full. auto. }
  rewrite Hpad, Hw.
  rewrite (mapM_seq_ok _
             (fun c : string * Series =>
                {| dtype_of := inferred_dtype (snd c); cells := cells (snd c) |})
             df (EmptyString, {| dtype_of := DObject; cells := [] |}) 0).
  - cbn [bind]. unfold columns, keys. rewrite combine_map. reflexivity.
  - intros k Hk. cbn [Nat.add]. unfold data. rewrite column_tokens by auto.
    apply infer_column_ok. rewrite Forall_forall in Hc.
    apply (Hc _ (nth_In df _ Hk)).
Qed.

(** ** Casting what [read_csv] inferred *)

Lemma keys_fold_dtype_target dts :
  forall acc k,
    In k (keys (fold_left dtype_target dts acc)) ->
    In k (keys acc) \/ In k (keys dts).
Proof.
  induction dts as [|[c t] r IH]; simpl; intros acc k H; auto.
  destruct (IH _ _ H) as [H1|H1]; auto.
  rewrite dtype_target_spec in H1.
  destruct (tag_target t); auto.
  rewrite keys_dict_set_cases in H1. destruct (dict_mem acc c); auto.
  apply in_app_or in H1. destruct H1 as [H1|[H1|[]]]; auto.
Qed.

Lemma check_keys_ok (df : DataFrame) ks :
  (forall k, In k ks -> In k (keys df)) -> check_keys df ks = Ok tt.
Proof.
  induction ks as [|k r IH]; simpl; auto. intros H.
  assert (Hm : dict_mem df k = true).
  { unfold dict_mem. destruct (dict_get df k) eqn:E; auto.
    exfalso. specialize (H k (or_introl eq_refl)).
    clear - H E. induction df as [|[k0 v0] r IH]; simpl in *; auto.
    destruct (String.eqb_spec k0 k); [discriminate|].
    destruct H; auto. }
  rewrite Hm. apply IH. auto.
Qed.

Lemma mapM_content (f : string * Series -> result (string * Series)) df :
  (forall c, In c df ->
     exists s', f c = Ok (fst c, s') /\ cells s' = cells (snd c)) ->
  exists df', mapM f df = Ok df' /\ table_content df' = table_content df.
Proof.
  induction df as [|c r IH]; intros H.
  - exists []. auto.
  - destruct (H c (or_introl eq_refl)) as [s' [Hf Hs]].
    destruct IH as [r' [Hr Hc]]; [intros x Hx; apply H; now right|].
    exists ((fst c, s') :: r'). simpl. rewrite Hf, Hr. simpl.
    split; auto. unfold table_content in *. simpl. now rewrite Hs, Hc.
Qed.

Lemma cast_int_cells cs :
  (forall c, In c cs -> exists z, c = CInt z) -> mapM cast_int_cell cs = Ok cs.
Proof.
  induction cs as [|c r IH]; simpl; auto. intros H.
  destruct (H c (or_introl eq_refl)) as [z ->]. simpl.
  rewrite IH; auto.
Qed.

Lemma cast_float_cells cs :
  (forall c, In c cs -> (exists r, c = CFloat r) \/ c = CNull) ->
  mapM cast_float_cell cs = Ok cs.
Proof.
  induction cs as [|c r IH]; simpl; auto. intros H.
  rewrite IH by auto.
  destruct (H c (or_introl eq_refl)) as [[x ->]| ->]; reflexivity.
Qed.

(** The cast the writer's tag asks for succeeds on the inferred column and
    keeps its cells. *)
Lemma astype_inferred s t :
  forallb (cell_ok (dtype_of s)) (cells s) = true ->
  tag_target (dtype_tag (dtype_of s)) = Some t ->
  exists s',
    astype_series t {| dtype_of := inferred_dtype s; cells := cells s |} = Ok s' /\
    cells s' = cells s.
Proof.
  intros H Ht. rewrite forallb_forall in H.
  unfold astype_series, inferred_dtype. cbn [dtype_of cells].
  destruct (dtype_of s) eqn:E; try discriminate.
  - inversion Ht; subst t.
    assert (Hint : forall c, In c (cells s) -> exists z, c = CInt z).
    { intros c Hc. specialize (H c Hc). destruct c; try discriminate; eauto. }
    pose proof (cast_int_cells (cells s) Hint) as Hcast.
    destruct (cells s); cbn [bind]; rewrite Hcast; eexists; split; reflexivity.
  - inversion Ht; subst t.
    assert (Hfl : forall c, In c (cells s) -> (exists r, c = CFloat r) \/ c = CNull).
    { intros c Hc. specialize (H c Hc). destruct c; try discriminate; eauto. }
    pose proof (cast_float_cells (cells s) Hfl) as Hcast.
    destruct (cells s); cbn [bind]; rewrite Hcast; eexists; split; reflexivity.
Qed.

Lemma dict_get_dtype_specs df k :
  dict_get (dtype_specs df) k =
    match dict_get df k with
    | Some s => Some (dtype_tag (dtype_of s))
    | None => None
    end.
Proof.
  induction df as [|[k0 s0] r IH]; simpl; auto.
  destruct (String.eqb k0 k); auto.
Qed.

Lemma dict_get_in_nodup {V : Type} (d : dict V) k v :
  NoDup (keys d) -> In (k, v) d -> dict_get d k = Some v.
Proof.
  induction d as [|[k0 v0] r IH]; simpl; intros Hnd Hin; [destruct Hin|].
  inversion Hnd; subst. destruct Hin as [E|Hin].
  - inversion E; subst. now rewrite String.eqb_refl.
  - destruct (String.eqb_spec k0 k) as [->|Hne]; auto.
    exfalso. apply H1. unfold keys. apply in_map_iff. exists (k, v). auto.
Qed.

Lemma apply_dtypes_inferred df :
  table_ok df = true ->
  exists df', apply_dtypes (written_metadata df) (inferred df) = Ok df' /\
              table_content df' = table_content df.
Proof.
  intros H. pose proof (table_ok_columns df H) as Hc.
  pose proof (table_ok_nodup df H) as Hnd.
  unfold apply_dtypes, written_metadata. cbn [dict_get].
  change ("dtypes" =? "dtypes")%string with true. cbv iota.
  assert (Hkeys : keys (dtype_specs df) = columns df).
  { unfold dtype_specs, columns, keys. rewrite map_map. reflexivity. }
  assert (Hcont : table_content (inferred df) = table_content df).
  { unfold table_content, inferred. rewrite map_map. reflexivity. }
  destruct (fold_left dtype_target (dtype_specs df) []) as [|p dm] eqn:E.
  - eauto.
  - rewrite <- E. unfold astype.
    rewrite check_keys_ok.
    2:{ intros k Hk. apply keys_fold_dtype_target in Hk.
        destruct Hk as [[]|Hk]. rewrite Hkeys in Hk.
        unfold inferred, keys. rewrite map_map. exact Hk. }
    cbn [bind].
    destruct (mapM_content
                (fun c : string * Series =>
                   match dict_get (fold_left dtype_target (dtype_specs df) [])
                           (fst c) with
                   | Some t => s <- astype_series t (snd c) ;; Ok (fst c, s)
                   | None => Ok c
                   end) (inferred df)) as [df' [Hm Hdf']].
    + intros c Hin. unfold inferred in Hin. apply in_map_iff in Hin.
      destruct Hin as [[k s] [<- Hin]]. cbn [fst snd].
      rewrite fold_dtype_target by (rewrite Hkeys; exact Hnd).
      rewrite dict_get_dtype_specs.
      rewrite (dict_get_in_nodup df k s Hnd Hin). cbn [dict_get].
      rewrite Forall_forall in Hc. destruct (Hc _ Hin) as [_ [_ [_ Hcells]]].
      cbn [fst snd] in Hcells.
      destruct (tag_target (dtype_tag (dtype_of s))) as [t|] eqn:Et.
      * destruct (astype_inferred s t Hcells Et) as [s' [Hs' Hcs]].
        rewrite Hs'. cbn [bind]. eauto.
      * eauto.
    + exists df'. split; auto. congruence.
Qed.

(** ** The metadata grammar on what the writer wrote *)

Lemma split_loop_app a :
  forall st b, split_loop st (a ++ b) = split_loop (split_loop st a) b.
Proof. induction a as [|c a IH]; simpl; auto. Qed.

(** Characters that are no bracket, and no comma unless inside brackets,
    go to the part being read. *)
Lemma split_loop_inert s :
  forall st,
    has_char "[" s = false -> has_char "]" s = false ->
    depth st <> 0%Z \/ has_char "," s = false ->
    split_loop st s =
      {| parts := parts st; buf := (buf st ++ s)%string; depth := depth st |}.
Proof.
  induction s as [|c s IH]; intros st H1 H2 H3.
  - simpl. rewrite sapp_nil_r. now destruct st.
  - simpl in H1, H2. apply orb_false_iff in H1. apply orb_false_iff in H2.
    destruct H1 as [E1 H1], H2 as [E2 H2].
    cbn [split_loop]. unfold split_step at 1. rewrite E1, E2.
    assert (Hc : Ascii.eqb c "," && (depth st =? 0)%Z = false).
    { destruct H3 as [H3|H3].
      - apply Z.eqb_neq in H3. rewrite H3. apply andb_false_r.
      - simpl in H3. apply orb_false_iff in H3. destruct H3 as [-> _]. reflexivity. }
    rewrite Hc. rewrite IH; auto.
    + cbn [parts buf depth]. rewrite sapp_assoc. reflexivity.
    + cbn [depth]. destruct H3 as [H3|H3]; auto.
      right. simpl in H3. apply orb_false_iff in H3. tauto.
Qed.

Lemma split_loop_comma st r :
  depth st = 0%Z ->
  split_loop st (String "," r) =
    split_loop {| parts := parts st ++ [strip (buf st)]; buf := EmptyString;
                  depth := 0 |} r.
Proof.
  intros H. cbn [split_loop]. unfold split_step at 1.
  change (Ascii.eqb "," "[") with false. change (Ascii.eqb "," "]") with false.
  change (Ascii.eqb "," ",") with true. cbv iota. rewrite H. reflexivity.
Qed.

Lemma split_top_items xs :
  forall p,
    xs <> [] ->
    Forall (fun x => has_char "[" x = false /\ has_char "]" x = false /\
                     has_char "," x = false) xs ->
    let st := split_loop {| parts := p; buf := EmptyString; depth := 0 |}
                (join "," xs) in
    parts st ++ [strip (buf st)] = p ++ map strip xs.
Proof.
  induction xs as [|x r IH]; intros p Hne Hall; [contradiction|].
  inversion Hall as [|? ? [H1 [H2 H3]] Hr]; subst.
  destruct r as [|y r'].
  - cbn [join map]. cbv zeta. rewrite split_loop_inert by auto. reflexivity.
  - rewrite join_cons2. cbv zeta. rewrite split_loop_app.
    rewrite (split_loop_inert x) by auto. cbn [parts buf depth append].
    rewrite split_loop_comma by reflexivity. cbn [parts buf].
    specialize (IH (p ++ [strip x])). cbv zeta in IH.
    rewrite IH by (auto; discriminate).
    rewrite <- app_assoc. reflexivity.
Qed.

Lemma split_top_commas_items xs :
  xs <> [] ->
  Forall (fun x => has_char "[" x = false /\ has_char "]" x = false /\
                   has_char "," x = false) xs ->
  _split_top_commas (join "," xs) = map strip xs.
Proof.
  intros Hne Hall. unfold _split_top_commas.
  exact (split_top_items xs [] Hne Hall).
Qed.

Lemma endswith_app c a b :
  is_empty b = false -> endswith c (a ++ b) = endswith c b.
Proof.
  intros H. induction a as [|x a IH]; simpl; auto.
  destruct (a ++ b)%string eqn:E; auto.
  destruct a; simpl in E; [subst b|]; discriminate.
Qed.

Lemma drop_last_app a c : drop_last (a ++ String c EmptyString) = a.
Proof.
  induction a as [|x a IH]; simpl; auto.
  destruct (a ++ String c "")%string eqn:E.
  - destruct a; discriminate.
  - now rewrite IH.
Qed.

Lemma all_chars_endswith p c s :
  all_chars p s = true -> p c = false -> endswith c s = false.
Proof.
  intros H Hc. induction s as [|a s IH]; simpl in *; auto.
  apply andb_true_iff in H. destruct H as [Ha Hs].
  destruct s.
  - destruct (Ascii.eqb_spec a c); auto. subst. congruence.
  - auto.
Qed.

Lemma trimmed_join sep l :
  l <> [] -> Forall (fun x => trimmed x = true) l -> trimmed (join sep l) = true.
Proof.
  induction l as [|x r IH]; intros Hne H; [contradiction|].
  inversion H; subst. destruct r as [|y r']; auto.
  rewrite join_cons2.
  assert (Hj : trimmed (join sep (y :: r')) = true) by (apply IH; auto; discriminate).
  unfold trimmed in H2, Hj. apply andb_true_iff in H2. apply andb_true_iff in Hj.
  apply trimmed_app; [tauto|].
  rewrite last_nonspace_app; [tauto|].
  destruct (join sep (y :: r')); [destruct Hj; discriminate|reflexivity].
Qed.

Lemma pair_ok_facts p :
  pair_ok p = true ->
  all_chars col_char (fst p) = true /\ trimmed (fst p) = true /\
  all_chars col_char (snd p) = true /\ trimmed (snd p) = true /\
  endswith SQ (snd p) = false.
Proof.
  unfold pair_ok. intros H.
  repeat (apply andb_true_iff in H; destruct H as [H ?]).
  repeat split; auto. now apply negb_true_iff.
Qed.

Lemma dtype_item_facts p :
  pair_ok p = true ->
  trimmed (dtype_item p) = true /\
  has_char "[" (dtype_item p) = false /\ has_char "]" (dtype_item p) = false /\
  has_char "," (dtype_item p) = false /\
  quoted (dtype_item p) = false /\
  split1 ":" (dtype_item p) = Some (fst p, snd p).
Proof.
  intros H. destruct (pair_ok_facts p H) as [H1 [H2 [H3 [H4 H5]]]].
  unfold dtype_item.
  assert (Hne : is_empty (snd p) = false) by now apply trimmed_nonempty.
  unfold trimmed in H2, H4. apply andb_true_iff in H2. apply andb_true_iff in H4.
  repeat split.
  - apply trimmed_app; [tauto|]. change (":" ++ snd p)%string with (String ":" (snd p)).
    destruct (snd p); [discriminate|]. simpl. tauto.
  - rewrite !has_char_app.
    rewrite (all_chars_has_char col_char "[" _ H1) by reflexivity.
    rewrite (all_chars_has_char col_char "[" _ H3) by reflexivity.
    reflexivity.
  - rewrite !has_char_app.
    rewrite (all_chars_has_char col_char "]" _ H1) by reflexivity.
    rewrite (all_chars_has_char col_char "]" _ H3) by reflexivity.
    reflexivity.
  - rewrite !has_char_app.
    rewrite (all_chars_has_char col_char "," _ H1) by reflexivity.
    rewrite (all_chars_has_char col_char "," _ H3) by reflexivity.
    reflexivity.
  - unfold quoted.
    change (fst p ++ ":" ++ snd p)%string with (fst p ++ (String ":" (snd p)))%string.
    rewrite !endswith_app by reflexivity.
    change (String ":" (snd p)) with (":" ++ snd p)%string.
    rewrite !endswith_app by auto.
    rewrite H5, (all_chars_endswith col_char DQ _ H3) by reflexivity.
    now rewrite !andb_false_r.
  - apply split1_app. apply (all_chars_has_char col_char); auto.
Qed.

Lemma fold_dtype_items pairs :
  forall acc,
    NoDup (keys acc ++ keys pairs) ->
    Forall (fun p => pair_ok p = true) pairs ->
    fold_left parse_dtype_item (map dtype_item pairs) acc = acc ++ pairs.
Proof.
  induction pairs as [|[c t] r IH]; intros acc Hnd Hall; simpl.
  - now rewrite app_nil_r.
  - inversion Hall as [|? ? Hp Hr]; subst.
    destruct (dtype_item_facts _ Hp) as [_ [_ [_ [_ [_ Hs]]]]].
    destruct (pair_ok_facts _ Hp) as [_ [H2 [_ [H4 _]]]].
    unfold parse_dtype_item at 2. rewrite Hs. cbn [fst snd] in *.
    rewrite !strip_trimmed by auto.
    assert (Hfresh : ~ In c (keys acc)).
    { intros Hin. apply NoDup_remove_2 in Hnd. apply Hnd.
      apply in_or_app. now left. }
    rewrite dict_set_fresh by auto. rewrite IH; auto.
    + now rewrite <- app_assoc.
    + unfold keys in *. rewrite map_app, <- app_assoc. exact Hnd.
Qed.

(** The writer's [dtypes] text is read back as the map it was written
    from. *)
Lemma parse_metadata_dtypes pairs :
  pairs <> [] ->
  NoDup (keys pairs) ->
  Forall (fun p => pair_ok p = true) pairs ->
  _parse_metadata (dtypes_text pairs) = [("dtypes", DTypeMap pairs)].
Proof.
  intros Hne Hnd Hall.
  set (items := map dtype_item pairs).
  assert (Hitems : Forall (fun x => trimmed x = true) items).
  { unfold items. apply Forall_map. eapply Forall_impl; [|exact Hall].
    intros p Hp. now apply dtype_item_facts. }
  assert (Hchars : Forall (fun x => has_char "[" x = false /\
                                    has_char "]" x = false /\
                                    has_char "," x = false) items).
  { unfold items. apply Forall_map. eapply Forall_impl; [|exact Hall].
    intros p Hp. destruct (dtype_item_facts p Hp) as [_ [? [? [? _]]]]. auto. }
  assert (Hne' : items <> []).
  { unfold items. destruct pairs; [contradiction|discriminate]. }
  set (J := join "," items).
  assert (HJ : trimmed J = true) by (apply trimmed_join; auto).
  assert (HJ1 : has_char "[" J = false /\ has_char "]" J = false).
  { assert (Ha : all_chars (fun c => negb (Ascii.eqb c "[") && negb (Ascii.eqb c "]"))
                   J = true).
    { apply all_chars_join; [reflexivity|].
      eapply Forall_impl; [|exact Hchars]. intros x [Hx1 [Hx2 _]].
      clear - Hx1 Hx2. induction x as [|a x IH]; simpl in *; auto.
      apply orb_false_iff in Hx1. apply orb_false_iff in Hx2.
      destruct Hx1 as [-> Hx1], Hx2 as [-> Hx2]. simpl. auto. }
    split; apply (all_chars_has_char _ _ _ Ha); reflexivity. }
  destruct HJ1 as [HJ1 HJ2].
  assert (Hval : trimmed ("[" ++ J ++ "]") = true).
  { apply trimmed_app; [reflexivity|]. rewrite last_nonspace_app; reflexivity. }
  assert (Htext : dtypes_text pairs = ("dtypes=" ++ "[" ++ J ++ "]")%string)
    by reflexivity.
  assert (Hsplit : _split_top_commas (dtypes_text pairs) = [dtypes_text pairs]).
  { unfold _split_top_commas.
    change (dtypes_text pairs) with ("dtypes=[" ++ J ++ "]")%string at 1 2.
    rewrite (split_loop_app "dtypes=["), (split_loop_app J).
    change (split_loop {| parts := []; buf := ""; depth := 0 |} "dtypes=[")
      with {| parts := []; buf := "dtypes=["; depth := 1 |}.
    rewrite (split_loop_inert J) by (auto; left; discriminate).
    cbn [parts buf depth split_loop]. unfold split_step.
    change (Ascii.eqb "]" "[") with false. change (Ascii.eqb "]" "]") with true.
    change (Ascii.eqb "]" ",") with false. cbn [parts buf depth andb app].
    f_equal. rewrite sapp_assoc.
    change ("dtypes=[" ++ J ++ "]")%string with ("dtypes=" ++ "[" ++ J ++ "]")%string.
    rewrite Htext. apply strip_trimmed.
    apply trimmed_app; [reflexivity|].
    unfold trimmed in Hval. apply andb_true_iff in Hval. tauto. }
  unfold _parse_metadata. rewrite Hsplit. cbn [fold_left].
  unfold parse_token. rewrite Htext.
  change ("dtypes=" ++ "[" ++ J ++ "]")%string
    with ("dtypes" ++ String "=" ("[" ++ J ++ "]"))%string.
  rewrite split1_app by reflexivity.
  change (strip "dtypes") with "dtypes". rewrite (strip_trimmed _ Hval).
  change (startswith "[" ("[" ++ J ++ "]")) with true.
  change ("[" ++ J ++ "]")%string with ("[" ++ (J ++ "]"))%string.
  rewrite endswith_app by (destruct J; reflexivity).
  rewrite endswith_app by reflexivity.
  change (endswith "]" "]") with true. cbn [andb].
  change (slice_1_m1 ("[" ++ (J ++ "]"))) with (drop_last (J ++ "]")).
  rewrite drop_last_app, (strip_trimmed _ HJ).
  unfold J at 1. rewrite split_top_commas_items by auto.
  assert (Hclean : map (fun it => strip_quotes (strip it)) (map strip items)
                   = items).
  { rewrite map_map. rewrite <- (map_id items) at 2. apply map_ext_in.
    intros x Hx. unfold items in Hx. apply in_map_iff in Hx.
    destruct Hx as [p [<- Hp]]. rewrite Forall_forall in Hall.
    destruct (dtype_item_facts p (Hall p Hp)) as [Ht [_ [_ [_ [Hq _]]]]].
    rewrite !(strip_trimmed _ Ht). unfold strip_quotes. now rewrite Hq. }
  rewrite Hclean. cbn [dict_set dict_get].
  change ("dtypes" =? "dtypes")%string with true. cbv iota. cbn [iterate].
  unfold items. rewrite fold_dtype_items by auto. reflexivity.
Qed.

(** C7: on the text [dtypes=[id:int,name:str],refs=[orders]] the metadata
    parser returns the mapping with [dtypes] a column-to-type map
    ([id] to [int], [name] to [str]) and [refs] the list of the one string
    [orders].  In general, when the token pass leaves a value under
    [dtypes], that value is replaced by the map built from its items; an
    item is split at its first colon into a stripped column and a stripped
    type, an item without a colon leaves the map as it is, and a [dtypes]
    list written from a map of plain column names and type tags is read
    back as that map. *)
Theorem C7_metadata_grammar :
  _parse_metadata "dtypes=[id:int,name:str],refs=[orders]" =
    [("dtypes", DTypeMap [("id", "int"); ("name", "str")]);
     ("refs", MList ["orders"])]
  /\ (forall s v,
        dict_get (fold_left parse_token (_split_top_commas s) []) "dtypes"
          = Some v ->
        _parse_metadata s =
          dict_set (fold_left parse_token (_split_top_commas s) []) "dtypes"
            (DTypeMap (fold_left parse_dtype_item (iterate v) [])))
  /\ (forall dt col typ,
        has_char ":" col = false ->
        parse_dtype_item dt (col ++ ":" ++ typ)
          = dict_set dt (strip col) (strip typ))
  /\ (forall dt item,
        has_char ":" item = false -> parse_dtype_item dt item = dt)
  /\ (forall pairs,
        pairs <> [] -> NoDup (keys pairs) ->
        Forall (fun p => pair_ok p = true) pairs ->
        _parse_metadata (dtypes_text pairs) = [("dtypes", DTypeMap pairs)]).
Proof.
  split; [vm_compute; reflexivity|].
  split; [intros s v H; unfold _parse_metadata; cbv zeta; now rewrite H|].
  split.
  { intros dt col typ H. unfold parse_dtype_item.
    change (col ++ ":" ++ typ)%string with (col ++ String ":" typ)%string.
    now rewrite split1_app. }
  split.
  { intros dt item H. unfold parse_dtype_item. now rewrite split1_none. }
  exact parse_metadata_dtypes.
Qed.

Lemma C7_metadata_grammar_witness :
  _parse_metadata "dtypes=[id:int,oops,name:str]" =
    [("dtypes", DTypeMap [("id", "int"); ("name", "str")])]
  /\ parse_dtype_item [("id", "int")] " name : str "
       = [("id", "int"); ("name", "str")]
  /\ parse_dtype_item [("id", "int")] "oops" = [("id", "int")]
  /\ _parse_metadata "dtypes=[id:int,name:str]" =
       [("dtypes", DTypeMap [("id", "int"); ("name", "str")])].
Proof.
  destruct C7_metadata_grammar as [_ [Hpost [Hsplit [Hdrop Hback]]]].
  split.
  { exact (Hpost "dtypes=[id:int,oops,name:str]"
             (MList ["id:int"; "oops"; "name:str"]) eq_refl). }
  split.
  { exact (Hsplit [("id", "int")] " name " " str " eq_refl). }
  split.
  { exact (Hdrop [("id", "int")] "oops" eq_refl). }
  refine (Hback [("id", "int"); ("name", "str")] _ _ _).
  - discriminate.
  - repeat constructor; simpl; intuition discriminate.
  - repeat constructor.
Defined.

(** ** The scanner on the blocks the writer wrote *)

Lemma ident_char_facts c :
  is_ident_char c = true ->
  is_space c = false /\ Ascii.eqb c "#" = false /\ line_char c = true.
Proof.
  destruct c as [[] [] [] [] [] [] [] []]; intros H; vm_compute in H;
    try discriminate H; repeat split; reflexivity.
Qed.

Lemma span_ident name c rest :
  all_chars is_ident_char name = true -> is_ident_char c = false ->
  span is_ident_char (name ++ String c rest) = (name, String c rest).
Proof.
  induction name as [|a r IH]; cbn [span append all_chars]; intros H Hc.
  - now rewrite Hc.
  - apply andb_true_iff in H. destruct H as [Ha Hr].
    rewrite Ha, IH; auto.
Qed.

Lemma header_re_braced name m :
  name_ok name = true -> has_char LF m = false ->
  header_re (String "#" (name ++ "{" ++ m ++ "}")) =
    Some (name, Some ("{" ++ m ++ "}")%string).
Proof.
  unfold name_ok. intros H Hm. apply andb_true_iff in H. destruct H as [Hne Hn].
  apply negb_true_iff in Hne.
  change (header_re (String "#" (name ++ "{" ++ m ++ "}")))
    with (let (nm, rest) := span is_ident_char (name ++ String "{" (m ++ "}")) in
          let rest := rstrip rest in
          if is_empty nm then None
          else if is_empty rest then Some (nm, None)
          else if startswith "{" rest && endswith "}" rest
                  && (2 <=? String.length rest)%nat && negb (has_char LF rest)
               then Some (nm, Some rest)
          else None).
  rewrite span_ident by (auto; reflexivity). cbv zeta.
  assert (Hlast : last_nonspace (String "{" (m ++ "}")) = true).
  { change (String "{" (m ++ "}")) with (String "{" m ++ "}")%string.
    now rewrite last_nonspace_app. }
  rewrite (rstrip_last_nonspace _ Hlast). rewrite Hne.
  cbn [is_empty startswith]. change (Ascii.eqb "{" "{") with true.
  change (String "{" (m ++ "}")) with (String "{" m ++ "}")%string at 1 2 3.
  rewrite endswith_app by reflexivity.
  rewrite has_char_app, orb_false_r.
  change (has_char LF (String "{" m)) with (has_char LF m). rewrite Hm.
  change (endswith "}" "}") with true.
  assert (Hlen : (2 <=? String.length (String "{" m ++ "}"))%nat = true)
    by (destruct m; reflexivity).
  rewrite Hlen. reflexivity.
Qed.

Lemma block_meta_plain name df : block_meta [] name df = dtypes_text (dtype_specs df).
Proof.
  unfold block_meta, dtypes_text, dtype_specs. cbn [dict_get].
  rewrite map_map. reflexivity.
Qed.

Lemma dtype_tag_ok d :
  all_chars col_char (dtype_tag d) = true /\ trimmed (dtype_tag d) = true /\
  endswith SQ (dtype_tag d) = false.
Proof. destruct d; vm_compute; auto. Qed.

Lemma table_ok_nonempty df : table_ok df = true -> df <> [].
Proof. intros H ->. discriminate H. Qed.

Lemma dtype_specs_ok df :
  table_ok df = true ->
  dtype_specs df <> [] /\ NoDup (keys (dtype_specs df)) /\
  Forall (fun p => pair_ok p = true) (dtype_specs df).
Proof.
  intros H. split; [|split].
  - pose proof (table_ok_nonempty df H). destruct df; [contradiction|discriminate].
  - replace (keys (dtype_specs df)) with (columns df).
    + now apply table_ok_nodup.
    + unfold keys, dtype_specs, columns, keys. now rewrite map_map.
  - unfold dtype_specs. apply Forall_map.
    eapply Forall_impl; [|exact (table_ok_columns df H)].
    intros c [H1 [H2 _]]. unfold pair_ok. cbn [fst snd].
    destruct (dtype_tag_ok (dtype_of (snd c))) as [H3 [H4 H5]].
    now rewrite H1, H2, H3, H4, H5.
Qed.

Lemma written_metadata_parsed df :
  table_ok df = true ->
  _parse_metadata (dtypes_text (dtype_specs df)) = written_metadata df.
Proof.
  intros H. destruct (dtype_specs_ok df H) as [H1 [H2 H3]].
  now apply parse_metadata_dtypes.
Qed.

Lemma col_char_line c : col_char c = true -> line_char c = true.
Proof.
  intros H. apply col_char_plain in H. apply plain_char_spec in H.
  destruct H as [H1 [H2 _]]. unfold line_char. now rewrite H1, H2.
Qed.

Lemma plain_char_line c : plain_char c = true -> line_char c = true.
Proof.
  intros H. apply plain_char_spec in H.
  destruct H as [H1 [H2 _]]. unfold line_char. now rewrite H1, H2.
Qed.

Lemma line_chars_nolf s : all_chars line_char s = true -> nolf s = true.
Proof.
  intros H. unfold nolf. now rewrite (all_chars_has_char line_char LF s H).
Qed.

Lemma dtypes_text_line pairs :
  Forall (fun p => pair_ok p = true) pairs ->
  all_chars line_char (dtypes_text pairs) = true.
Proof.
  intros H. unfold dtypes_text.
  change ("dtypes=[" ++ join "," (map dtype_item pairs) ++ "]")%string
    with ("dtypes=[" ++ (join "," (map dtype_item pairs) ++ "]"))%string.
  rewrite !all_chars_app.
  rewrite all_chars_join; [reflexivity|reflexivity|].
  apply Forall_map. eapply Forall_impl; [|exact H].
  intros p Hp. destruct (pair_ok_facts p Hp) as [H1 [_ [H3 _]]].
  unfold dtype_item. rewrite !all_chars_app.
  rewrite (all_chars_impl _ _ _ col_char_line H1).
  now rewrite (all_chars_impl _ _ _ col_char_line H3).
Qed.

Lemma title_line_chars name df :
  name_ok name = true -> table_ok df = true ->
  all_chars line_char (title_line [] name df) = true.
Proof.
  intros Hn Hdf. unfold title_line. rewrite block_meta_plain.
  unfold name_ok in Hn. apply andb_true_iff in Hn. destruct Hn as [_ Hn].
  rewrite !all_chars_app.
  rewrite (all_chars_impl is_ident_char line_char name) by
    (auto; intros c Hc; now apply ident_char_facts).
  rewrite dtypes_text_line by (now apply dtype_specs_ok).
  reflexivity.
Qed.

Lemma header_re_title name df :
  name_ok name = true -> table_ok df = true ->
  header_re (strip (title_line [] name df ++ newline)) =
    Some (name, Some ("{" ++ dtypes_text (dtype_specs df) ++ "}")%string).
Proof.
  intros Hn Hdf.
  pose proof (title_line_chars name df Hn Hdf) as Hchars.
  unfold title_line in *. rewrite block_meta_plain in *.
  set (m := dtypes_text (dtype_specs df)) in *.
  assert (Hm : has_char LF m = false).
  { rewrite !all_chars_app in Hchars.
    repeat (apply andb_true_iff in Hchars; destruct Hchars as [? Hchars]).
    apply (all_chars_has_char line_char); auto. }
  rewrite strip_line.
  - now apply header_re_braced.
  - apply trimmed_app; [reflexivity|].
    change (name ++ "{" ++ m ++ "}")%string
      with (name ++ (String "{" m ++ "}"))%string.
    rewrite last_nonspace_app by reflexivity.
    now rewrite last_nonspace_app.
Qed.

Lemma record_line_chars fs :
  Forall (fun g => all_chars plain_char g = true) fs ->
  all_chars line_char (record_line fs) = true.
Proof.
  intros H.
  assert (Hl : Forall (fun g => all_chars line_char g = true) fs).
  { eapply Forall_impl; [|exact H]. intros g Hg.
    eapply all_chars_impl; [apply plain_char_line|exact Hg]. }
  destruct fs as [|f [|g r]].
  - reflexivity.
  - cbn [record_line]. destruct (is_empty f); [reflexivity|].
    inversion H; subst. rewrite csv_field_plain by auto.
    now inversion Hl.
  - cbn [record_line]. rewrite map_csv_field_plain by auto.
    now apply all_chars_join.
Qed.

Lemma record_line_first f r :
  Forall (fun g => all_chars plain_char g = true) (f :: r) ->
  field_start f = true ->
  exists a s, record_line (f :: r) = String a s /\ is_space a = false /\
              (row_start f = true -> Ascii.eqb a "#" = false).
Proof.
  intros H Hf. inversion H as [|? ? Hpf Hpr]; subst.
  destruct r as [|g r'].
  - cbn [record_line]. destruct f as [|a s].
    + exists DQ, (String DQ EmptyString). repeat split; reflexivity.
    + cbn [is_empty]. rewrite csv_field_plain by auto.
      exists a, s. split; [reflexivity|]. cbn [field_start row_start] in *.
      apply negb_true_iff in Hf. split; auto.
      intros Hr. apply andb_true_iff in Hr. destruct Hr as [_ Hr].
      now apply negb_true_iff in Hr.
  - cbn [record_line]. rewrite map_csv_field_plain by auto.
    rewrite join_cons2. destruct f as [|a s].
    + eexists. eexists. split; [reflexivity|]. split; reflexivity.
    + eexists. eexists. split; [reflexivity|]. cbn [field_start row_start] in *.
      apply negb_true_iff in Hf. split; auto.
      intros Hr. apply andb_true_iff in Hr. destruct Hr as [_ Hr].
      now apply negb_true_iff in Hr.
Qed.

Lemma row_fields_start df i :
  table_ok df = true ->
  exists f r, row_fields df i = f :: r /\ row_start f = true.
Proof.
  intros H.
  unfold table_ok in H. apply andb_true_iff in H. destruct H as [H _].
  apply andb_true_iff in H. destruct H as [H _].
  destruct df as [|[n0 s0] rest]; [discriminate|]. simpl in H.
  unfold row_fields, row_at in *. cbn [map fst snd] in *.
  eexists. eexists. split; [reflexivity|].
  rewrite forallb_forall in H.
  apply (nth_default_prop (fun x => row_start (cell_str x) = true)); auto.
Qed.

Lemma row_line_body df i :
  table_ok df = true -> body_line (record_line (row_fields df i)) = true.
Proof.
  intros H.
  destruct (row_fields_start df i H) as [f [r [E Hs]]].
  pose proof (row_fields_plain df i H) as Hp. rewrite E in *.
  destruct (record_line_first f r Hp (row_start_field_start f Hs))
    as [a [s [El [Ha Hh]]]].
  pose proof (line_chars_nolf _ (record_line_chars _ Hp)) as Hn.
  rewrite El in *. cbn [body_line]. now rewrite Ha, (Hh Hs), Hn.
Qed.

Lemma blank_line_first a s : is_space a = false -> blank (String a s ++ newline) = false.
Proof.
  intros H. unfold blank. destruct (strip_line_first a s H) as [r' ->]. reflexivity.
Qed.

Lemma scan_line_idle st :
  seeking (fst st) = false -> scan_line newline st = Ok st.
Proof.
  destruct st as [m d]. destruct m; cbn [seeking fst]; intros H;
    [reflexivity|discriminate|reflexivity].
Qed.

(** The body lines of a block are collected as they stand. *)
Lemma scan_body rows :
  forall name md col_line data_buf d,
    Forall (fun l => body_line l = true) rows ->
    scan_lines (with_newlines rows) (InBody name md col_line data_buf, d) =
      Ok (InBody name md col_line (data_buf ++ rows), d).
Proof.
  induction rows as [|l r IH]; intros name md col_line data_buf d H.
  - cbn [with_newlines map scan_lines]. now rewrite app_nil_r.
  - inversion H as [|? ? Hl Hr]; subst.
    change (with_newlines (l :: r)) with ((l ++ newline)%string :: with_newlines r).
    cbn [scan_lines].
    destruct l as [|a s]; [discriminate|]. cbn [body_line] in Hl.
    apply andb_true_iff in Hl. destruct Hl as [Hl Hn].
    apply andb_true_iff in Hl. destruct Hl as [Ha Hh].
    apply negb_true_iff in Ha. apply negb_true_iff in Hh.
    unfold scan_line.
    rewrite (blank_line_first a s Ha).
    destruct (strip_line_first a s Ha) as [r' ->].
    cbn [startswith]. rewrite Hh. rewrite (rstrip_nl_line _ Hn).
    cbn [bind]. rewrite IH by auto. now rewrite <- app_assoc.
Qed.

(** One written block, read by the scanner: when the block before it is
    finished, the table read back and the written metadata are stored under
    the name of the block. *)
Lemma scan_block st d t :
  seeking (fst st) = false ->
  scan_end st = Ok d ->
  name_ok (fst t) = true -> table_ok (snd t) = true ->
  nul_free (snd t) = true ->
  exists st' df',
    scan_lines (with_newlines (block_lines t)) st = Ok st' /\
    seeking (fst st') = false /\
    scan_end st' =
      Ok {| tables := dict_set (tables d) (fst t) df';
            metas := dict_set (metas d) (fst t) (written_metadata (snd t)) |} /\
    table_content df' = table_content (snd t).
Proof.
  intros Hseek Hend Hn Hdf Hnul. destruct t as [name df]. cbn [fst snd] in *.
  destruct (apply_dtypes_inferred df Hdf) as [df' [Hcast Hcontent]].
  destruct (columns_record df Hdf) as [f [r [Ecols [Hf Hp]]]].
  pose proof (line_chars_nolf _ (record_line_chars _ Hp)) as Hcn.
  rewrite Ecols in Hp.
  destruct (record_line_first f r Hp Hf) as [a [s [El [Ha _]]]].
  rewrite <- Ecols in El.
  eexists. exists df'.
  unfold block_lines. cbn [fst snd].
  change (with_newlines
            (EmptyString :: title_line [] name df
               :: map record_line (csv_records df)))
    with (newline :: (title_line [] name df ++ newline)%string
            :: (record_line (columns df) ++ newline)%string
            :: with_newlines
                 (map record_line (map (row_fields df) (seq 0 (len_df df))))).
  cbn [scan_lines]. rewrite (scan_line_idle st Hseek). cbn [bind].
  destruct st as [m d0]. cbn [fst] in Hseek.
  rewrite (scan_line_header _ m d0 name _ Hseek (header_re_title name df Hn Hdf)).
  rewrite Hend. cbn [bind].
  unfold header_metadata.
  change (slice_1_m1 ("{" ++ dtypes_text (dtype_specs df) ++ "}"))
    with (drop_last (dtypes_text (dtype_specs df) ++ "}")).
  rewrite drop_last_app, (written_metadata_parsed df Hdf).
  unfold scan_line at 1. rewrite El, (blank_line_first a s Ha). rewrite <- El.
  rewrite (rstrip_nl_line _ Hcn). cbn [bind].
  rewrite scan_body.
  - split; [reflexivity|]. split; [reflexivity|].
    cbn [scan_end app]. unfold store_block.
    change (record_line (columns df)
              :: map record_line (map (row_fields df) (seq 0 (len_df df))))
      with (map record_line (csv_records df)).
    rewrite (read_csv_records df Hdf Hnul). cbn [bind]. rewrite Hcast. cbn [bind].
    split; [reflexivity|exact Hcontent].
  - apply Forall_map. apply Forall_map. apply Forall_forall. intros i _.
    now apply row_line_body.
Qed.

Lemma keys_app {V : Type} (a b : dict V) : keys (a ++ b) = keys a ++ keys b.
Proof. unfold keys. apply map_app. Qed.

Lemma with_newlines_app a b :
  with_newlines (a ++ b) = with_newlines a ++ with_newlines b.
Proof. unfold with_newlines. apply map_app. Qed.


Lemma resolve_refs_none mds :
  forall tbls,
    Forall (fun p : string * metadata => dict_get (snd p) "refs" = None) mds ->
    resolve_refs mds tbls = Ok tbls.
Proof.
  induction mds as [|[n md] r IH]; intros tbls H; [reflexivity|].
  inversion H as [|? ? Hmd Hr]; subst. cbn [snd] in Hmd.
  cbn [resolve_refs]. rewrite Hmd. now apply IH.
Qed.


(** ** The text the writer produces *)

Lemma mapM_ok_map {A B : Type} (f : A -> result B) (g : A -> B) l :
  (forall a, In a l -> f a = Ok (g a)) -> mapM f l = Ok (map g l).
Proof.
  induction l as [|a r IH]; intros H; [reflexivity|].
  cbn [mapM map]. rewrite (H a) by (now left). cbn [bind].
  rewrite IH by (intros; apply H; now right). reflexivity.
Qed.

Lemma cell_text_ok d c : cell_ok d c = true -> cell_text c = Ok (cell_str c).
Proof. destruct d, c; simpl; intros H; try discriminate; reflexivity. Qed.

Lemma row_texts df i :
  table_ok df = true -> mapM cell_text (row_at i df) = Ok (row_fields df i).
Proof.
  intros H. unfold row_fields. apply mapM_ok_map.
  intros a Ha. unfold row_at in Ha. apply in_map_iff in Ha.
  destruct Ha as [c [<- Hc]].
  pose proof (table_ok_columns df H) as Hcols. rewrite Forall_forall in Hcols.
  destruct (Hcols c Hc) as [_ [_ [_ Hcells]]]. rewrite forallb_forall in Hcells.
  apply (nth_default_prop (fun x => cell_text x = Ok (cell_str x))).
  - intros x Hx. eapply cell_text_ok. apply Hcells. exact Hx.
  - reflexivity.
Qed.

Lemma to_csv_records df :
  table_ok df = true ->
  to_csv df = Ok (text_of (map record_line (csv_records df))).
Proof.
  intros H. pose proof (table_ok_nonempty df H) as Hne.
  unfold to_csv. destruct df as [|c0 r0] eqn:E; [contradiction|]. rewrite <- E in *.
  rewrite (mapM_ok_map _ (fun i => csv_record (row_fields df i))).
  - cbn [bind]. f_equal. unfold csv_records. cbn [map].
    rewrite text_of_cons. unfold csv_record at 1. rewrite sapp_assoc.
    do 2 f_equal. unfold text_of. rewrite !map_map. reflexivity.
  - intros i _. unfold csv_row. rewrite row_texts by auto. reflexivity.
Qed.


Lemma in_keys_nth {V : Type} (d : dict V) name :
  In name (keys d) -> exists k v, nth_error d k = Some (name, v).
Proof.
  intros H. unfold keys in H. apply in_map_iff in H.
  destruct H as [[n v] [Hn Hin]]. cbn [fst] in Hn. subst n.
  apply In_nth_error in Hin. destruct Hin as [k Hk]. eauto.
Qed.


Lemma concat_text_of {A : Type} (f : A -> list string) l :
  String.concat "" (map (fun t => text_of (f t)) l) = text_of (List.concat (map f l)).
Proof.
  induction l as [|a r IH]; [reflexivity|].
  cbn [map List.concat]. rewrite concat_cons, text_of_app, IH. reflexivity.
Qed.


(** ** The parser on the text the writer produced *)

Lemma readlines_line l rest :
  all_chars line_char l = true ->
  readlines (l ++ newline ++ rest) = (l ++ newline)%string :: readlines rest.
Proof.
  induction l as [|c r IH]; intros H; [reflexivity|].
  cbn [all_chars] in H. apply andb_true_iff in H. destruct H as [Hc Hr].
  unfold line_char in Hc. apply andb_true_iff in Hc. destruct Hc as [H1 H2].
  apply negb_true_iff in H1. apply negb_true_iff in H2.
  cbn [append readlines]. rewrite H1, H2.
  change (r ++ String LF rest)%string with (r ++ newline ++ rest)%string.
  rewrite IH by auto. reflexivity.
Qed.

Lemma readlines_text_of ls :
  Forall (fun l => all_chars line_char l = true) ls ->
  readlines (text_of ls) = with_newlines ls.
Proof.
  induction ls as [|l r IH]; intros H; [reflexivity|].
  inversion H; subst. rewrite text_of_cons, readlines_line by auto.
  rewrite IH by auto. reflexivity.
Qed.

Lemma split_comma_app a r :
  has_char "," a = false -> split "," (a ++ String "," r) = a :: split "," r.
Proof.
  induction a as [|c s IH]; intros H; [reflexivity|].
  cbn [has_char] in H. apply orb_false_iff in H. destruct H as [Hc Hs].
  cbn [append split]. rewrite Hc, IH by auto. reflexivity.
Qed.

Lemma name_ok_first name :
  name_ok name = true ->
  exists a s, name = String a s /\ is_ident_char a = true /\
              all_chars is_ident_char name = true.
Proof.
  unfold name_ok. intros H. apply andb_true_iff in H. destruct H as [Hne Hall].
  destruct name as [|a s]; [discriminate|]. exists a, s.
  split; [reflexivity|]. split; auto.
  cbn [all_chars] in Hall. apply andb_true_iff in Hall. tauto.
Qed.

Lemma ident_chars_no_comma name :
  all_chars is_ident_char name = true -> has_char "," name = false.
Proof. intros H. apply (all_chars_has_char is_ident_char); auto. Qed.



Lemma read_manifest_header r :
  read_manifest (("#manifest" ++ newline)%string
                   :: ("table,start_line,description" ++ newline)%string :: r)
  = manifest_rows ["table"; "start_line"; "description"] r [].
Proof. reflexivity. Qed.


Lemma tables_ok_facts tbls :
  tables_ok tbls = true ->
  NoDup (keys tbls) /\
  Forall (fun t : string * DataFrame =>
            name_ok (fst t) = true /\ table_ok (snd t) = true) tbls.
Proof.
  unfold tables_ok. intros H. apply andb_true_iff in H. destruct H as [Hnd Hall].
  split; [now apply nodupb_NoDup|].
  apply Forall_forall. intros t Hin. rewrite forallb_forall in Hall.
  specialize (Hall t Hin). apply andb_true_iff in Hall. destruct Hall as [Hall _].
  apply andb_true_iff in Hall. exact Hall.
Qed.

Lemma tables_ok_nul tbls :
  tables_ok tbls = true ->
  Forall (fun t : string * DataFrame => nul_free (snd t) = true) tbls.
Proof.
  unfold tables_ok. intros H. apply andb_true_iff in H. destruct H as [_ Hall].
  apply Forall_forall. intros t Hin. rewrite forallb_forall in Hall.
  specialize (Hall t Hin). apply andb_true_iff in Hall. tauto.
Qed.

Lemma nul_free_content df df' :
  table_content df' = table_content df -> nul_free df' = nul_free df.
Proof.
  revert df'. induction df as [|[k s] r IH]; intros [|[k' s'] r'];
    cbn [table_content map]; try discriminate; [reflexivity|].
  intros H. injection H as Hk Hc Hr. cbn [fst snd] in *. subst k'.
  cbn [nul_free forallb fst snd]. rewrite Hc. f_equal. now apply IH.
Qed.

Lemma tables_nul_content tbls :
  forall tbls',
    content tbls' = content tbls ->
    Forall (fun t : string * DataFrame => nul_free (snd t) = true) tbls ->
    Forall (fun t : string * DataFrame => nul_free (snd t) = true) tbls'.
Proof.
  induction tbls as [|[n df] r IH]; intros [|[n' df'] r'];
    cbn [content map]; try discriminate; [constructor|].
  intros H Hall. injection H as Hn Hc Hr. cbn [fst snd] in *.
  inversion Hall as [|? ? Hnu Hnur]; subst. constructor.
  - cbn [snd] in *. now rewrite (nul_free_content df df' Hc).
  - now apply IH.
Qed.







(** * Further properties of the parser and the writer *)

(** ** [_split_top_commas] *)

Lemma split_nonempty c s : exists h t, split c s = h :: t.
Proof.
  induction s as [|a r [h [t IH]]]; cbn [split]; [eauto|].
  destruct (Ascii.eqb a c); [eauto|]. rewrite IH. eauto.
Qed.

Lemma prepend_empty l : l <> [] -> prepend EmptyString l = l.
Proof. destruct l; [contradiction|reflexivity]. Qed.

(** The loop on a string without brackets, started outside brackets: the
    finished parts and the part being read. *)
Lemma split_loop_flat s :
  forall p b,
    has_char "[" s = false -> has_char "]" s = false ->
    split_loop {| parts := p; buf := b; depth := 0 |} s =
      {| parts := p ++ map strip (removelast (prepend b (split "," s)));
         buf := last (prepend b (split "," s)) EmptyString;
         depth := 0 |}.
Proof.
  induction s as [|c r IH]; intros p b H1 H2.
  - cbn [split_loop split prepend removelast last map]. rewrite app_nil_r.
    now rewrite sapp_nil_r.
  - cbn [has_char] in H1, H2. apply orb_false_iff in H1. apply orb_false_iff in H2.
    destruct H1 as [E1 H1], H2 as [E2 H2].
    destruct (split_nonempty "," r) as [h [t Hs]].
    destruct (Ascii.eqb_spec c ",") as [->|Hc].
    + rewrite split_loop_comma by reflexivity. cbn [parts buf].
      rewrite IH by auto. cbn [split]. change (Ascii.eqb "," ",") with true.
      cbv iota. rewrite Hs. cbn [prepend]. rewrite sapp_nil_r.
      change ("" ++ h)%string with h.
      change (removelast (b :: h :: t)) with (b :: removelast (h :: t)).
      change (last (b :: h :: t) "") with (last (h :: t) "").
      cbn [map]. now rewrite <- app_assoc.
    + apply Ascii.eqb_neq in Hc.
      cbn [split_loop]. unfold split_step at 1. cbn [parts buf depth].
      rewrite E1, E2, Hc. cbn [andb]. rewrite IH by auto.
      cbn [split]. rewrite Hc, Hs. cbn [prepend].
      rewrite sapp_assoc. reflexivity.
Qed.

Lemma split_top_flat (s : string) :
  has_char "[" s = false -> has_char "]" s = false ->
  _split_top_commas s = map strip (split "," s).
Proof.
  intros H1 H2. unfold _split_top_commas. cbv zeta.
  rewrite split_loop_flat by auto. cbn [parts buf].
  destruct (split_nonempty "," s) as [h [t Hs]]. rewrite Hs.
  change (prepend "" (h :: t)) with (h :: t). cbn [app].
  transitivity (map strip (removelast (h :: t) ++ [last (h :: t) ""])).
  - rewrite map_app. reflexivity.
  - f_equal. symmetry. apply app_removelast_last. discriminate.
Qed.

(** X1: on a string without brackets [_split_top_commas] is the split at
    every comma followed by the stripping of every part. *)
Theorem X1_split_top_commas_flat (s : string) :
  has_char "[" s = false -> has_char "]" s = false ->
  _split_top_commas s = map strip (split "," s).
Proof. exact (split_top_flat s). Qed.

Lemma X1_split_top_commas_flat_witness :
  _split_top_commas " a , b,,c " = map strip (split "," " a , b,,c ").
Proof. exact (X1_split_top_commas_flat " a , b,,c " eq_refl eq_refl). Defined.

Lemma split_loop_nested s :
  forall d p b,
    nested d s = true ->
    split_loop {| parts := p; buf := b; depth := Z.of_nat d |} s =
      {| parts := p; buf := (b ++ s)%string; depth := 0 |}.
Proof.
  induction s as [|c r IH]; intros d p b H.
  - cbn [nested] in H. apply Nat.eqb_eq in H. subst d.
    cbn [split_loop]. now rewrite sapp_nil_r.
  - cbn [nested] in H. cbn [split_loop]. unfold split_step at 1.
    cbn [parts buf depth].
    destruct (Ascii.eqb_spec c "[") as [->|N1].
    + change (Ascii.eqb "[" ",") with false. cbn [andb].
      replace (Z.of_nat d + 1)%Z with (Z.of_nat (S d)) by lia.
      rewrite IH by auto. now rewrite sapp_assoc.
    + destruct (Ascii.eqb_spec c "]") as [->|N2].
      * change (Ascii.eqb "]" ",") with false. cbn [andb].
        destruct d as [|d']; [discriminate|].
        replace (Z.of_nat (S d') - 1)%Z with (Z.of_nat d') by lia.
        rewrite IH by auto. now rewrite sapp_assoc.
      * destruct (Ascii.eqb_spec c ",") as [->|N3].
        -- apply andb_true_iff in H. destruct H as [Hd H].
           apply negb_true_iff in Hd. apply Nat.eqb_neq in Hd.
           assert (Hz : (Z.of_nat d =? 0)%Z = false) by (apply Z.eqb_neq; lia).
           rewrite Hz. cbn [andb]. rewrite IH by auto. now rewrite sapp_assoc.
        -- cbn [andb]. rewrite IH by auto. now rewrite sapp_assoc.
Qed.

Lemma split_top_nested xs :
  forall p,
    xs <> [] ->
    Forall (fun x => nested 0 x = true) xs ->
    let st := split_loop {| parts := p; buf := EmptyString; depth := 0 |}
                (join "," xs) in
    parts st ++ [strip (buf st)] = p ++ map strip xs.
Proof.
  induction xs as [|x r IH]; intros p Hne Hall; [contradiction|].
  inversion Hall as [|? ? Hx Hr]; subst.
  pose proof (split_loop_nested x 0 p EmptyString Hx) as Hn.
  change (Z.of_nat 0) with 0%Z in Hn.
  destruct r as [|y r'].
  - cbn [join map]. cbv zeta. rewrite Hn. reflexivity.
  - rewrite join_cons2. cbv zeta. rewrite split_loop_app.
    rewrite Hn. cbn [append].
    rewrite split_loop_comma by reflexivity. cbn [parts buf].
    specialize (IH (p ++ [strip x])). cbv zeta in IH.
    rewrite IH by (auto; discriminate).
    rewrite <- app_assoc. reflexivity.
Qed.

Lemma split_top_join (tokens : list string) :
  tokens <> [] ->
  Forall (fun t => nested 0 t = true) tokens ->
  _split_top_commas (join "," tokens) = map strip tokens.
Proof.
  intros Hne Hall. unfold _split_top_commas.
  exact (split_top_nested tokens [] Hne Hall).
Qed.

(** X2: tokens whose brackets are properly nested and whose commas all lie
    inside brackets, joined by commas, are given back one by one, each
    stripped: a comma inside brackets never separates two parts. *)
Theorem X2_split_top_commas_join (tokens : list string) :
  tokens <> [] ->
  Forall (fun t => nested 0 t = true) tokens ->
  _split_top_commas (join "," tokens) = map strip tokens.
Proof. exact (split_top_join tokens). Qed.

Lemma X2_split_top_commas_join_witness :
  _split_top_commas
    (join "," ["dtypes=[id:int,name:str]"; " created=2025-07-21 "; "refs=[[a,b],c]"])
  = ["dtypes=[id:int,name:str]"; "created=2025-07-21"; "refs=[[a,b],c]"].
Proof.
  refine (X2_split_top_commas_join
            ["dtypes=[id:int,name:str]"; " created=2025-07-21 "; "refs=[[a,b],c]"]
            _ _).
  - discriminate.
  - repeat constructor.
Defined.

Lemma split_loop_below s :
  forall st,
    has_char "[" s = false -> (depth st < 0)%Z ->
    exists d, (d < 0)%Z /\
      split_loop st s =
        {| parts := parts st; buf := (buf st ++ s)%string; depth := d |}.
Proof.
  induction s as [|c r IH]; intros st H1 Hd.
  - exists (depth st). split; auto. cbn [split_loop].
    rewrite sapp_nil_r. now destruct st.
  - cbn [has_char] in H1. apply orb_false_iff in H1. destruct H1 as [E1 H1].
    cbn [split_loop]. unfold split_step at 1. rewrite E1.
    set (d' := if Ascii.eqb c "]" then (depth st - 1)%Z else depth st).
    assert (Hd' : (d' < 0)%Z) by (unfold d'; destruct (Ascii.eqb c "]"); lia).
    assert (Hz : (d' =? 0)%Z = false) by (apply Z.eqb_neq; lia).
    rewrite Hz, andb_false_r.
    destruct (IH {| parts := parts st; buf := (buf st ++ String c "")%string;
                    depth := d' |} H1 Hd') as [d [Hlt Heq]].
    exists d. split; auto. rewrite Heq. cbn [parts buf].
    now rewrite sapp_assoc.
Qed.

(** X3: a closing bracket that no opening bracket precedes ends the
    splitting: whatever follows it (when no opening bracket does) stays in
    the part in which the bracket stands, commas included. *)
Theorem X3_split_top_commas_stray_bracket (a b : string) :
  has_char "[" a = false -> has_char "]" a = false -> has_char "[" b = false ->
  _split_top_commas (a ++ "]" ++ b) =
    map strip (removelast (split "," a))
    ++ [strip (last (split "," a) EmptyString ++ "]" ++ b)].
Proof.
  intros H1 H2 H3. unfold _split_top_commas. cbv zeta.
  rewrite split_loop_app, split_loop_flat by auto.
  destruct (split_nonempty "," a) as [h [t Hs]]. rewrite Hs.
  change (prepend "" (h :: t)) with (h :: t).
  change ("]" ++ b)%string with (String "]" b).
  cbn [split_loop]. unfold split_step. cbn [parts buf depth].
  change (Ascii.eqb "]" "[") with false. change (Ascii.eqb "]" "]") with true.
  change (Ascii.eqb "]" ",") with false. cbn [andb].
  match goal with
  | |- context [split_loop ?st b] =>
      destruct (split_loop_below b st H3) as [d [_ Heq]]; [cbn [depth]; lia|]
  end.
  rewrite Heq. cbn [parts buf app]. rewrite sapp_assoc. reflexivity.
Qed.

Lemma X3_split_top_commas_stray_bracket_witness :
  _split_top_commas "x,a],b,c" = ["x"; "a],b,c"].
Proof. exact (X3_split_top_commas_stray_bracket "x,a" ",b,c" eq_refl eq_refl eq_refl). Defined.

Lemma rstrip_with_idem p s : rstrip_with p (rstrip_with p s) = rstrip_with p s.
Proof.
  induction s as [|c r IH]; [reflexivity|].
  cbn [rstrip_with]. destruct (p c && is_empty (rstrip_with p r)) eqn:E.
  - reflexivity.
  - cbn [rstrip_with]. rewrite IH, E. reflexivity.
Qed.

Lemma lstrip_result s :
  lstrip s = EmptyString \/
  exists a r, lstrip s = String a r /\ is_space a = false.
Proof.
  induction s as [|c r IH]; [now left|].
  unfold lstrip in *. cbn [lstrip_with]. destruct (is_space c) eqn:E; [exact IH|].
  right. eauto.
Qed.

Lemma strip_idem s : strip (strip s) = strip s.
Proof.
  unfold strip. destruct (lstrip_result s) as [->|[a [r [-> Ha]]]];
    [reflexivity|].
  assert (Hu : rstrip (String a r) = String a (rstrip r)).
  { unfold rstrip. cbn [rstrip_with]. now rewrite Ha. }
  rewrite Hu, lstrip_first by auto.
  unfold rstrip. cbn [rstrip_with]. rewrite Ha. cbn [andb].
  now rewrite rstrip_with_idem.
Qed.

Lemma split_loop_stripped s :
  forall st,
    Forall (fun p => strip p = p) (parts st) ->
    Forall (fun p => strip p = p) (parts (split_loop st s)).
Proof.
  induction s as [|c r IH]; intros st H; [exact H|].
  cbn [split_loop]. apply IH. unfold split_step.
  destruct (Ascii.eqb c "," && _); cbn [parts]; auto.
  apply Forall_app. split; auto. constructor; [apply strip_idem|constructor].
Qed.

(** X4: [_split_top_commas] returns at least one part, and no part has
    whitespace at either end. *)
Theorem X4_split_top_commas_parts (s : string) :
  _split_top_commas s <> [] /\
  Forall (fun p => strip p = p) (_split_top_commas s).
Proof.
  unfold _split_top_commas. cbv zeta. split.
  - intros H. apply app_eq_nil in H. destruct H as [_ H]. discriminate.
  - apply Forall_app. split.
    + apply split_loop_stripped. constructor.
    + constructor; [apply strip_idem|constructor].
Qed.

(** ** [_parse_metadata] *)

Lemma parse_token_no_map md token :
  (forall k v, dict_get md k = Some v -> is_map v = false) ->
  forall k v, dict_get (parse_token md token) k = Some v -> is_map v = false.
Proof.
  intros H k v. unfold parse_token.
  destruct (split1 "=" token) as [[key val]|]; [|apply H].
  cbv zeta. destruct (startswith "[" (strip val) && endswith "]" (strip val)).
  - destruct (String.eqb_spec (strip key) k) as [<-|Hne].
    + rewrite dict_get_set_same. intros E. now inversion E.
    + rewrite dict_get_set_other by auto. apply H.
  - destruct (String.eqb_spec (strip key) k) as [<-|Hne].
    + rewrite dict_get_set_same. intros E. now inversion E.
    + rewrite dict_get_set_other by auto. apply H.
Qed.

Lemma parse_tokens_no_map tokens :
  forall md,
    (forall k v, dict_get md k = Some v -> is_map v = false) ->
    forall k v, dict_get (fold_left parse_token tokens md) k = Some v ->
                is_map v = false.
Proof.
  induction tokens as [|t r IH]; intros md H; [exact H|].
  cbn [fold_left]. apply IH. now apply parse_token_no_map.
Qed.

(** X5: in the mapping [_parse_metadata] returns, the value under [dtypes]
    is always a column-to-type map, and no other key holds a map. *)
Theorem X5_parse_metadata_dtypes_is_map (s k : string) (v : md_value) :
  dict_get (_parse_metadata s) k = Some v ->
  is_map v = (k =? "dtypes")%string.
Proof.
  unfold _parse_metadata. cbv zeta.
  set (md := fold_left parse_token (_split_top_commas s) []).
  assert (Hmd : forall k v, dict_get md k = Some v -> is_map v = false).
  { apply parse_tokens_no_map. intros k0 v0 H. discriminate H. }
  destruct (dict_get md "dtypes") as [v0|] eqn:E.
  - destruct (String.eqb_spec k "dtypes") as [->|Hne].
    + rewrite dict_get_set_same. intros H. now inversion H.
    + rewrite dict_get_set_other by auto. apply Hmd.
  - intros H. destruct (String.eqb_spec k "dtypes") as [->|Hne].
    + rewrite E in H. discriminate.
    + now apply (Hmd k).
Qed.

Lemma X5_parse_metadata_dtypes_is_map_witness :
  is_map (MList ["orders"]) = ("refs" =? "dtypes")%string.
Proof.
  exact (X5_parse_metadata_dtypes_is_map "dtypes=[id:int,name:str],refs=[orders]"
           "refs" (MList ["orders"]) eq_refl).
Defined.

Lemma has_char_lstrip_le c s : has_char c s = false -> has_char c (lstrip s) = false.
Proof.
  induction s as [|a r IH]; intros H; [reflexivity|].
  unfold lstrip in *. cbn [lstrip_with]. destruct (is_space a); [|exact H].
  apply IH. cbn [has_char] in H. apply orb_false_iff in H. tauto.
Qed.

Lemma has_char_rstrip_le c s : has_char c s = false -> has_char c (rstrip s) = false.
Proof.
  induction s as [|a r IH]; intros H; [reflexivity|].
  cbn [has_char] in H. apply orb_false_iff in H. destruct H as [Ha Hr].
  unfold rstrip in *. cbn [rstrip_with].
  destruct (is_space a && is_empty (rstrip_with is_space r)); [reflexivity|].
  cbn [has_char]. now rewrite Ha, IH.
Qed.

Lemma has_char_strip_le c s : has_char c s = false -> has_char c (strip s) = false.
Proof.
  intros H. unfold strip. now apply has_char_rstrip_le, has_char_lstrip_le.
Qed.

Lemma split_loop_lacks c s :
  forall st,
    has_char c s = false ->
    Forall (fun p => has_char c p = false) (parts st) ->
    has_char c (buf st) = false ->
    Forall (fun p => has_char c p = false) (parts (split_loop st s)) /\
    has_char c (buf (split_loop st s)) = false.
Proof.
  induction s as [|a r IH]; intros st H Hp Hb; [auto|].
  cbn [has_char] in H. apply orb_false_iff in H. destruct H as [Ha Hr].
  cbn [split_loop]. apply IH; auto; unfold split_step;
    destruct (Ascii.eqb a "," && _); cbn [parts buf]; auto.
  - apply Forall_app. split; auto. constructor; [|constructor].
    now apply has_char_strip_le.
  - rewrite has_char_app, Hb. cbn [has_char]. now rewrite Ha.
Qed.

Lemma parse_tokens_skip tokens :
  forall md,
    Forall (fun t => has_char "=" t = false) tokens ->
    fold_left parse_token tokens md = md.
Proof.
  induction tokens as [|t r IH]; intros md H; [reflexivity|].
  inversion H; subst. cbn [fold_left]. unfold parse_token at 2.
  rewrite split1_none by auto. now apply IH.
Qed.

(** X6: a metadata text without [=] (the empty text included) yields the
    empty mapping: every token without [=] is skipped. *)
Theorem X6_parse_metadata_no_equals (s : string) :
  has_char "=" s = false -> _parse_metadata s = [].
Proof.
  intros H. unfold _parse_metadata, _split_top_commas. cbv zeta.
  destruct (split_loop_lacks "=" s {| parts := []; buf := ""; depth := 0 |} H)
    as [Hp Hb]; [constructor|reflexivity|].
  rewrite parse_tokens_skip; [reflexivity|].
  apply Forall_app. split; auto. constructor; [|constructor].
  now apply has_char_strip_le.
Qed.

Lemma X6_parse_metadata_no_equals_witness :
  _parse_metadata "id:int, [name,str] " = [].
Proof. exact (X6_parse_metadata_no_equals "id:int, [name,str] " eq_refl). Defined.

Lemma split_no_sep c s : has_char c s = false -> split c s = [s].
Proof.
  induction s as [|a r IH]; intros H; [reflexivity|].
  cbn [has_char] in H. apply orb_false_iff in H. destruct H as [Ha Hr].
  cbn [split]. rewrite Ha, IH by auto. reflexivity.
Qed.

Lemma rstrip_app_nonspace a v :
  last_nonspace a = true -> rstrip (a ++ v) = (a ++ rstrip v)%string.
Proof.
  unfold rstrip. induction a as [|c r IH]; intros H; [discriminate|].
  destruct r as [|c' r'].
  - cbn [last_nonspace] in H. apply negb_true_iff in H.
    cbn [append rstrip_with]. now rewrite H.
  - change (last_nonspace (String c (String c' r')))
      with (last_nonspace (String c' r')) in H.
    change (String c (String c' r') ++ v)%string
      with (String c (String c' r' ++ v)).
    cbn [rstrip_with]. rewrite IH by auto.
    cbn [append is_empty]. now rewrite andb_false_r.
Qed.

Lemma has_char_lstrip c s :
  is_space c = false -> has_char c (lstrip s) = has_char c s.
Proof.
  intros Hc. induction s as [|a r IH]; [reflexivity|].
  unfold lstrip in *. cbn [lstrip_with]. destruct (is_space a) eqn:Ea; [|reflexivity].
  rewrite IH. cbn [has_char].
  destruct (Ascii.eqb_spec a c) as [->|_]; [congruence|reflexivity].
Qed.

Lemma rstrip_with_empty p s :
  is_empty (rstrip_with p s) = true -> rstrip_with p s = EmptyString.
Proof. destruct (rstrip_with p s); [reflexivity|discriminate]. Qed.

Lemma has_char_rstrip c s :
  is_space c = false -> has_char c (rstrip s) = has_char c s.
Proof.
  intros Hc. unfold rstrip. induction s as [|a r IH]; [reflexivity|].
  cbn [rstrip_with].
  destruct (is_space a && is_empty (rstrip_with is_space r)) eqn:E.
  - apply andb_true_iff in E. destruct E as [Ea Er].
    apply rstrip_with_empty in Er. rewrite Er in IH. cbn [has_char].
    rewrite <- IH. cbn [has_char]. rewrite orb_false_r.
    destruct (Ascii.eqb_spec a c) as [->|_]; [congruence|reflexivity].
  - cbn [has_char]. now rewrite IH.
Qed.

Lemma has_char_strip c s :
  is_space c = false -> has_char c (strip s) = has_char c s.
Proof.
  intros Hc. unfold strip. now rewrite has_char_rstrip, has_char_lstrip.
Qed.

Lemma startswith_has_char c s : startswith c s = true -> has_char c s = true.
Proof.
  destruct s as [|a r]; [discriminate|]. cbn [startswith has_char].
  intros ->. reflexivity.
Qed.

Lemma has_char_drop_last c q r :
  endswith q r = true -> Ascii.eqb q c = false ->
  has_char c (drop_last r) = has_char c r.
Proof.
  intros He Hq. induction r as [|a r' IH]; [reflexivity|].
  destruct r' as [|a' r''].
  - cbn [endswith] in He. apply Ascii.eqb_eq in He. subst a.
    cbn [drop_last has_char]. now rewrite Hq.
  - change (drop_last (String a (String a' r'')))
      with (String a (drop_last (String a' r''))).
    change (endswith q (String a (String a' r'')))
      with (endswith q (String a' r'')) in He.
    cbn [has_char] in *. now rewrite IH.
Qed.

Lemma has_char_strip_quotes c s :
  Ascii.eqb DQ c = false -> Ascii.eqb SQ c = false ->
  has_char c (strip_quotes s) = has_char c s.
Proof.
  intros H1 H2. unfold strip_quotes. destruct (quoted s) eqn:E; [|reflexivity].
  unfold quoted in E. destruct s as [|a r]; [discriminate|].
  cbn [slice_1_m1]. cbn [startswith] in E.
  assert (Hq : exists q, a = q /\ Ascii.eqb q c = false /\
                         endswith q (String a r) = true).
  { apply orb_true_iff in E. destruct E as [E|E];
      apply andb_true_iff in E; destruct E as [Ea Ee];
      apply Ascii.eqb_eq in Ea; subst a; eauto. }
  destruct Hq as [q [-> [Hq He]]].
  destruct r as [|a' r'].
  - cbn [drop_last has_char]. now rewrite Hq.
  - change (endswith q (String q (String a' r')))
      with (endswith q (String a' r')) in He.
    rewrite (has_char_drop_last c q _ He Hq). cbn [has_char]. now rewrite Hq.
Qed.

Lemma parse_dtype_chars w :
  forall acc,
    acc = [] \/ acc = [(EmptyString, EmptyString)] ->
    fold_left parse_dtype_item (chars w) acc =
      if has_char ":" w then [(EmptyString, EmptyString)] else acc.
Proof.
  induction w as [|c r IH]; intros acc Hacc; [reflexivity|].
  cbn [chars fold_left has_char]. unfold parse_dtype_item at 2.
  cbn [split1]. destruct (Ascii.eqb c ":") eqn:Ec.
  - cbn [orb]. change (strip "") with "".
    assert (Hs : dict_set acc "" "" = [("", "")])
      by (destruct Hacc as [->| ->]; reflexivity).
    rewrite Hs, IH by auto. now destruct (has_char ":" r).
  - cbn [orb]. now apply IH.
Qed.

(** X7: a [dtypes] value written without brackets never yields column
    types.  The value is kept as a string, and the pass that builds the column-to-type
    map then visits its characters one by one: the map is empty, or holds
    the one entry from the empty column name to the empty type when the
    value contains a colon. *)
Theorem X7_parse_metadata_scalar_dtypes (v : string) :
  has_char "," v = false -> has_char "[" v = false -> has_char "]" v = false ->
  _parse_metadata ("dtypes=" ++ v) =
    [("dtypes",
      DTypeMap (if has_char ":" v then [(EmptyString, EmptyString)] else []))].
Proof.
  intros H1 H2 H3. unfold _parse_metadata. cbv zeta.
  rewrite split_top_flat by (rewrite has_char_app; cbn; auto).
  rewrite split_no_sep by (rewrite has_char_app; cbn; auto).
  cbn [map fold_left].
  assert (Hstrip : strip ("dtypes=" ++ v) = ("dtypes" ++ String "=" (rstrip v))%string).
  { unfold strip. change (lstrip ("dtypes=" ++ v)) with ("dtypes=" ++ v)%string.
    now rewrite rstrip_app_nonspace. }
  rewrite Hstrip. unfold parse_token.
  rewrite split1_app by reflexivity. cbv zeta.
  change (strip "dtypes") with "dtypes".
  set (val := strip (rstrip v)).
  assert (Hval : forall c, is_space c = false -> has_char c val = has_char c v).
  { intros c Hc. unfold val. now rewrite has_char_strip, has_char_rstrip. }
  assert (Hb : startswith "[" val = false).
  { destruct (startswith "[" val) eqn:E; [|reflexivity].
    apply startswith_has_char in E. rewrite Hval in E by reflexivity. congruence. }
  rewrite Hb. cbn [andb dict_set dict_get].
  change ("dtypes" =? "dtypes")%string with true. cbv iota. cbn [iterate].
  rewrite parse_dtype_chars by (now left).
  rewrite has_char_strip_quotes by reflexivity.
  rewrite Hval by reflexivity. reflexivity.
Qed.

Lemma X7_parse_metadata_scalar_dtypes_witness :
  _parse_metadata "dtypes=id:int" =
    [("dtypes", DTypeMap [(EmptyString, EmptyString)])].
Proof. exact (X7_parse_metadata_scalar_dtypes "id:int" eq_refl eq_refl eq_refl). Defined.

Lemma nested_flat s :
  forall d rest,
    has_char "[" s = false -> has_char "]" s = false ->
    d <> 0 \/ has_char "," s = false ->
    nested d (s ++ rest) = nested d rest.
Proof.
  induction s as [|c r IH]; intros d rest H1 H2 H3; [reflexivity|].
  cbn [has_char] in H1, H2. apply orb_false_iff in H1. apply orb_false_iff in H2.
  destruct H1 as [E1 H1], H2 as [E2 H2].
  cbn [append nested]. rewrite E1, E2.
  assert (H3' : d <> 0 \/ has_char "," r = false).
  { destruct H3 as [H3|H3]; [now left|right].
    cbn [has_char] in H3. apply orb_false_iff in H3. tauto. }
  destruct (Ascii.eqb c ",") eqn:Ec.
  - destruct H3 as [H3|H3].
    + apply Nat.eqb_neq in H3. rewrite H3. cbn [negb andb]. now apply IH.
    + cbn [has_char] in H3. rewrite Ec in H3. discriminate.
  - now apply IH.
Qed.

Lemma dtype_items_chars pairs :
  Forall (fun p => pair_ok p = true) pairs ->
  has_char "[" (join "," (map dtype_item pairs)) = false /\
  has_char "]" (join "," (map dtype_item pairs)) = false.
Proof.
  intros Hall.
  assert (Ha : all_chars (fun c => negb (Ascii.eqb c "[") && negb (Ascii.eqb c "]"))
                 (join "," (map dtype_item pairs)) = true).
  { apply all_chars_join; [reflexivity|]. apply Forall_map.
    eapply Forall_impl; [|exact Hall]. intros p Hp.
    destruct (dtype_item_facts p Hp) as [_ [Hx1 [Hx2 _]]].
    revert Hx1 Hx2. generalize (dtype_item p). intros x.
    induction x as [|a x IH]; cbn [has_char all_chars]; auto.
    intros Hx1 Hx2.
    apply orb_false_iff in Hx1. apply orb_false_iff in Hx2.
    destruct Hx1 as [-> Hx1], Hx2 as [-> Hx2]. cbn [negb andb]. auto. }
  split; apply (all_chars_has_char _ _ _ Ha); reflexivity.
Qed.

Lemma dtypes_text_nested pairs :
  Forall (fun p => pair_ok p = true) pairs ->
  nested 0 (dtypes_text pairs) = true.
Proof.
  intros Hall. destruct (dtype_items_chars pairs Hall) as [H1 H2].
  unfold dtypes_text.
  change (nested 0 ("dtypes=[" ++ join "," (map dtype_item pairs) ++ "]"))
    with (nested 1 (join "," (map dtype_item pairs) ++ "]")).
  rewrite nested_flat by (auto; left; discriminate). reflexivity.
Qed.

Lemma dtypes_text_trimmed pairs : trimmed (dtypes_text pairs) = true.
Proof.
  unfold dtypes_text. apply trimmed_app; [reflexivity|].
  now rewrite last_nonspace_app.
Qed.

(** The token loop on the [dtypes] token the writer wrote. *)
Lemma parse_token_dtypes pairs md :
  pairs <> [] ->
  Forall (fun p => pair_ok p = true) pairs ->
  parse_token md (dtypes_text pairs) =
    dict_set md "dtypes" (MList (map dtype_item pairs)).
Proof.
  intros Hne Hall.
  set (items := map dtype_item pairs).
  assert (Hitems : Forall (fun x => trimmed x = true) items).
  { unfold items. apply Forall_map. eapply Forall_impl; [|exact Hall].
    intros p Hp. now apply dtype_item_facts. }
  assert (Hchars : Forall (fun x => has_char "[" x = false /\
                                    has_char "]" x = false /\
                                    has_char "," x = false) items).
  { unfold items. apply Forall_map. eapply Forall_impl; [|exact Hall].
    intros p Hp. destruct (dtype_item_facts p Hp) as [_ [? [? [? _]]]]. auto. }
  assert (Hne' : items <> []).
  { unfold items. destruct pairs; [contradiction|discriminate]. }
  set (J := join "," items).
  assert (HJ : trimmed J = true) by (apply trimmed_join; auto).
  assert (Hval : trimmed ("[" ++ J ++ "]") = true).
  { apply trimmed_app; [reflexivity|]. rewrite last_nonspace_app; reflexivity. }
  unfold parse_token.
  change (dtypes_text pairs) with ("dtypes" ++ String "=" ("[" ++ J ++ "]"))%string.
  rewrite split1_app by reflexivity. cbv zeta.
  change (strip "dtypes") with "dtypes". rewrite (strip_trimmed _ Hval).
  change (startswith "[" ("[" ++ J ++ "]")) with true.
  change ("[" ++ J ++ "]")%string with ("[" ++ (J ++ "]"))%string.
  rewrite endswith_app by (destruct J; reflexivity).
  rewrite endswith_app by reflexivity.
  change (endswith "]" "]") with true. cbn [andb].
  change (slice_1_m1 ("[" ++ (J ++ "]"))) with (drop_last (J ++ "]")).
  rewrite drop_last_app, (strip_trimmed _ HJ).
  unfold J at 1. rewrite split_top_commas_items by auto.
  f_equal. f_equal.
  rewrite map_map. rewrite <- (map_id items) at 2. apply map_ext_in.
  intros x Hx. unfold items in Hx. apply in_map_iff in Hx.
  destruct Hx as [p [<- Hp]]. rewrite Forall_forall in Hall.
  destruct (dtype_item_facts p (Hall p Hp)) as [Ht [_ [_ [_ [Hq _]]]]].
  rewrite !(strip_trimmed _ Ht). unfold strip_quotes. now rewrite Hq.
Qed.

Lemma escape_quotes_none d : has_char DQ d = false -> escape_quotes d = d.
Proof.
  induction d as [|c r IH]; intros H; [reflexivity|].
  cbn [has_char] in H. apply orb_false_iff in H. destruct H as [Hc Hr].
  cbn [escape_quotes]. now rewrite Hc, IH.
Qed.

Lemma comment_read_back (descriptions : dict string) (name : string)
  (df : DataFrame) (d : string) :
  table_ok df = true ->
  dict_get descriptions name = Some d ->
  is_empty d = false ->
  has_char "," d = false -> has_char "[" d = false -> has_char "]" d = false ->
  has_char DQ d = false ->
  _parse_metadata (block_meta descriptions name df) =
    [("dtypes", DTypeMap (dtype_specs df)); ("comment", Scalar d)].
Proof.
  intros Hdf Hd Hne Hc Hb1 Hb2 Hq.
  destruct (dtype_specs_ok df Hdf) as [Hs1 [Hs2 Hs3]].
  assert (Hmeta : block_meta descriptions name df =
                  join "," [dtypes_text (dtype_specs df);
                            ("comment=" ++ wrap DQ d)%string]).
  { pose proof (block_meta_plain name df) as Hp.
    unfold block_meta in *. cbn [dict_get] in Hp. cbv zeta in Hp. cbv zeta.
    rewrite Hd, Hne, Hp, (escape_quotes_none d Hq). reflexivity. }
  rewrite Hmeta.
  assert (Hcomment : nested 0 ("comment=" ++ wrap DQ d) = true).
  { unfold wrap.
    change (nested 0 ("comment=" ++ String DQ (d ++ String DQ "")))
      with (nested 0 (d ++ String DQ "")).
    rewrite nested_flat by auto. reflexivity. }
  assert (Hstrip : strip ("comment=" ++ wrap DQ d) = ("comment=" ++ wrap DQ d)%string).
  { apply strip_trimmed. apply trimmed_app; [reflexivity|].
    unfold wrap. change (String DQ (d ++ String DQ ""))
      with (String DQ d ++ String DQ "")%string.
    now rewrite last_nonspace_app. }
  assert (Hw : strip (wrap DQ d) = wrap DQ d).
  { apply strip_trimmed. unfold wrap.
    change (String DQ (d ++ String DQ "")) with (String DQ d ++ String DQ "")%string.
    apply trimmed_app; reflexivity. }
  assert (Hsq : strip_quotes (wrap DQ d) = d).
  { unfold strip_quotes, quoted, wrap. cbn [startswith].
    change (String DQ (d ++ String DQ "")) with (String DQ d ++ String DQ "")%string.
    rewrite !endswith_app by reflexivity.
    change (Ascii.eqb DQ DQ) with true. change (endswith DQ (String DQ "")) with true.
    cbn [andb orb].
    change (slice_1_m1 (String DQ d ++ String DQ "")) with (drop_last (d ++ String DQ "")).
    apply drop_last_app. }
  assert (Hmd : fold_left parse_token
                  (_split_top_commas
                     (join "," [dtypes_text (dtype_specs df);
                                ("comment=" ++ wrap DQ d)%string])) []
                = [("dtypes", MList (map dtype_item (dtype_specs df)));
                   ("comment", Scalar d)]).
  { rewrite split_top_join;
      [|discriminate
       |constructor; [now apply dtypes_text_nested
                     |constructor; [exact Hcomment|constructor]]].
    cbn [map fold_left].
    rewrite (strip_trimmed _ (dtypes_text_trimmed _)).
    rewrite parse_token_dtypes by auto.
    rewrite Hstrip. unfold parse_token.
    change ("comment=" ++ wrap DQ d)%string
      with ("comment" ++ String "=" (wrap DQ d))%string.
    rewrite split1_app by reflexivity. cbv zeta.
    change (strip "comment") with "comment".
    rewrite Hw. unfold wrap at 1. cbn [startswith].
    change (Ascii.eqb DQ "[") with false. cbn [andb].
    rewrite Hsq. reflexivity. }
  unfold _parse_metadata. rewrite Hmd. cbv zeta.
  change (dict_get [("dtypes", MList (map dtype_item (dtype_specs df)));
                    ("comment", Scalar d)] "dtypes")
    with (Some (MList (map dtype_item (dtype_specs df)))).
  cbv iota. cbn [iterate].
  rewrite fold_dtype_items by auto. reflexivity.
Qed.



(** ** [parse_jcsv] *)

Lemma scan_line_blank b st : blank b = true -> scan_line b st = Ok st.
Proof.
  intros H. destruct st as [m d]. pose proof H as Hs. unfold blank in Hs.
  destruct m; cbn [scan_line].
  - unfold scan_header. cbv zeta. now rewrite Hs.
  - now rewrite H.
  - destruct (strip b); [|discriminate]. cbn [startswith]. now rewrite H.
Qed.

Lemma scan_lines_blank l1 b l2 st :
  blank b = true -> scan_lines (l1 ++ b :: l2) st = scan_lines (l1 ++ l2) st.
Proof.
  intros H. rewrite !scan_lines_app.
  destruct (scan_lines l1 st) as [st'|e]; [|reflexivity].
  cbn [bind scan_lines]. now rewrite scan_line_blank.
Qed.

(** X9: the block scanner ignores blank lines, wherever they stand: a
    document and the same document with one more blank (empty or
    whitespace-only) line after its manifest give the same result. *)
Theorem X9_blank_lines_ignored (b : string) :
  blank b = true ->
  (forall l1 l2, parse_blocks (l1 ++ b :: l2) = parse_blocks (l1 ++ l2)) /\
  (forall content content' mm mm' l1 l2,
      read_manifest (readlines content) = Ok (mm, l1 ++ b :: l2) ->
      read_manifest (readlines content') = Ok (mm', l1 ++ l2) ->
      parse_jcsv content = parse_jcsv content').
Proof.
  intros H.
  assert (Hb : forall l1 l2, parse_blocks (l1 ++ b :: l2) = parse_blocks (l1 ++ l2)).
  { intros l1 l2. unfold parse_blocks, scan. now rewrite scan_lines_blank. }
  split; [exact Hb|].
  intros content content' mm mm' l1 l2 H1 H2.
  unfold parse_jcsv, parse_lines. rewrite H1, H2. cbn [bind snd]. apply Hb.
Qed.

Lemma X9_blank_lines_ignored_witness :
  parse_jcsv (text_of ["#A"; "id"; "  "; "1"]) = parse_jcsv (text_of ["#A"; "id"; "1"]).
Proof.
  exact (proj2 (X9_blank_lines_ignored ("  " ++ newline) eq_refl)
           (text_of ["#A"; "id"; "  "; "1"]) (text_of ["#A"; "id"; "1"])
           [] [] ["#A" ++ newline; "id" ++ newline] ["1" ++ newline]
           eq_refl eq_refl)%string.
Defined.

Lemma skip_blank_suffix lines : exists pre, lines = pre ++ skip_blank lines.
Proof.
  induction lines as [|l r [pre IH]]; [exists []; reflexivity|].
  cbn [skip_blank]. destruct (blank l).
  - exists (l :: pre). cbn [app]. now rewrite <- IH.
  - exists []. reflexivity.
Qed.

(** X10: a file in which no line is a block header (the empty file
    included) is read without error and gives no table. *)
Theorem X10_no_header_no_tables (content : string) :
  Forall (fun l => header_re (strip l) = None) (readlines content) ->
  parse_jcsv content = Ok [].
Proof.
  intros H. unfold parse_jcsv, parse_lines, read_manifest.
  destruct (skip_blank_suffix (readlines content)) as [pre Hpre].
  rewrite Hpre in H. apply Forall_app in H. destruct H as [_ H].
  destruct (skip_blank (readlines content)) as [|l r]; [reflexivity|].
  inversion H as [|? ? Hl Hr]; subst.
  destruct (String.eqb_spec (strip l) "#manifest") as [E|_].
  - rewrite E in Hl. discriminate Hl.
  - cbn [bind snd]. unfold parse_blocks, scan.
    rewrite (scan_lines_no_header (l :: r) empty_doc H). reflexivity.
Qed.

Lemma X10_no_header_no_tables_witness :
  parse_jcsv (text_of ["a,b"; "1,2"; "# not a header"; ""]) = Ok [].
Proof.
  apply X10_no_header_no_tables. repeat constructor.
Defined.



Lemma manifest_rows_read cols rows :
  forall rest acc,
    Forall (fun l => row_reads cols l = true) rows ->
    rows_end rest = true ->
    exists m, manifest_rows cols (rows ++ rest) acc = Ok (m, rest).
Proof.
  induction rows as [|l r IH]; intros rest acc Hall Hend.
  - exists acc. cbn [app]. destruct rest as [|l0 r0]; [reflexivity|].
    cbn [rows_end] in Hend. unfold manifest_row_line in Hend.
    apply negb_true_iff in Hend. apply negb_false_iff in Hend.
    cbn [manifest_rows]. cbv zeta. now rewrite Hend.
  - inversion Hall as [|? ? Hl Hr]; subst.
    unfold row_reads in Hl. cbv zeta in Hl.
    apply andb_true_iff in Hl. destruct Hl as [Hl Hsl].
    apply andb_true_iff in Hl. destruct Hl as [Hrow Ht].
    unfold manifest_row_line in Hrow. apply negb_true_iff in Hrow.
    cbn [app manifest_rows]. cbv zeta. rewrite Hrow.
    unfold dict_item. unfold dict_mem in Ht.
    destruct (dict_get (dict_zip [] cols (comma_fields (strip l))) "start_line")
      as [sl|]; [|discriminate].
    cbn [bind]. destruct (py_int sl) as [n|e]; [|discriminate]. cbn [bind].
    destruct (dict_get (dict_zip [] cols (comma_fields (strip l))) "table")
      as [t|]; [|discriminate].
    cbn [bind]. now apply IH.
Qed.

(** X12: what a well-formed manifest says has no effect on the result.
    When every row of the manifest gives a table and an integer start
    line, [parse_jcsv] returns what the block scanner makes of the lines
    after the manifest, whatever the names and the numbers of the rows. *)
Theorem X12_manifest_values_unused (content : string)
  (pre : list string) (marker header : string) (rows rest : list string) :
  readlines content = pre ++ marker :: header :: rows ++ rest ->
  Forall (fun b => blank b = true) pre ->
  strip marker = "#manifest" ->
  Forall (fun l => row_reads (comma_fields (strip header)) l = true) rows ->
  rows_end rest = true ->
  parse_jcsv content = parse_blocks rest.
Proof.
  intros H Hpre Hm Hrows Hend. unfold parse_jcsv, parse_lines, read_manifest.
  rewrite H, skip_blank_app by auto. cbn [skip_blank].
  assert (Hb : blank marker = false) by (unfold blank; now rewrite Hm).
  rewrite Hb, Hm.
  change ("#manifest" =? "#manifest")%string with true. cbv iota.
  destruct (manifest_rows_read _ rows rest [] Hrows Hend) as [m ->].
  reflexivity.
Qed.

Lemma X12_manifest_values_unused_witness :
  parse_jcsv (text_of ["#manifest"; "table,start_line"; "t1,999"; "zz,-4";
                       ""; "#t1"; "a"; "1"])
  = parse_blocks ["" ++ newline; "#t1" ++ newline; "a" ++ newline;
                  "1" ++ newline]%string.
Proof.
  refine (X12_manifest_values_unused
            (text_of ["#manifest"; "table,start_line"; "t1,999"; "zz,-4";
                      ""; "#t1"; "a"; "1"]) []
            ("#manifest" ++ newline)%string ("table,start_line" ++ newline)%string
            ["t1,999" ++ newline; "zz,-4" ++ newline]%string
            ["" ++ newline; "#t1" ++ newline; "a" ++ newline; "1" ++ newline]%string
            eq_refl (Forall_nil _) eq_refl _ eq_refl).
  repeat constructor.
Defined.

Lemma span_all p s : all_chars p (fst (span p s)) = true.
Proof.
  induction s as [|c r IH]; [reflexivity|].
  cbn [span]. destruct (p c) eqn:E; [|reflexivity].
  destruct (span p r) as [a b]. cbn [fst all_chars] in *. now rewrite E, IH.
Qed.

Lemma header_re_name s n ms : header_re s = Some (n, ms) -> name_ok n = true.
Proof.
  destruct s as [|c r]; [discriminate|].
  destruct c as [[] [] [] [] [] [] [] []]; try discriminate.
  cbn [header_re]. pose proof (span_all is_ident_char r) as Hall.
  destruct (span is_ident_char r) as [name rest]. cbn [fst] in Hall.
  destruct (is_empty name) eqn:E; [discriminate|].
  intros H. assert (Hn : n = name).
  { destruct (is_empty (rstrip rest)); [now inversion H|].
    destruct (_ && _); [now inversion H|discriminate]. }
  subst n. unfold name_ok. now rewrite E, Hall.
Qed.

Lemma Forall_keys_dict_set {V : Type} (P : string -> Prop) (d : dict V) k v :
  Forall P (keys d) -> P k -> Forall P (keys (dict_set d k v)).
Proof.
  intros H Hk. rewrite keys_dict_set_cases. destruct (dict_mem d k); auto.
  apply Forall_app. split; auto.
Qed.

Lemma scan_header_names l d :
  NoDup (keys (tables d)) ->
  Forall (fun n => name_ok n = true) (keys (tables d)) ->
  names_ok (scan_header l d).
Proof.
  intros H1 H2. unfold scan_header. cbv zeta.
  destruct (is_empty (strip l)); [repeat split; auto; discriminate|].
  destruct (header_re (strip l)) as [[n ms]|] eqn:E;
    [|repeat split; auto; discriminate].
  repeat split; auto. cbn [fst mode_name]. intros n0 Hn. inversion Hn; subst.
  eapply header_re_name; eauto.
Qed.

Lemma store_block_names n md c b d d' :
  store_block n md c b d = Ok d' ->
  name_ok n = true ->
  NoDup (keys (tables d)) ->
  Forall (fun x => name_ok x = true) (keys (tables d)) ->
  NoDup (keys (tables d')) /\ Forall (fun x => name_ok x = true) (keys (tables d')).
Proof.
  unfold store_block. cbv zeta. intros H Hn H1 H2.
  bind_inv H as df Hdf. bind_inv H as df2 Hdf2. inversion H; subst.
  cbn [tables]. split.
  - now apply NoDup_keys_dict_set.
  - now apply Forall_keys_dict_set.
Qed.

Lemma scan_line_names l st st' :
  scan_line l st = Ok st' -> names_ok st -> names_ok st'.
Proof.
  destruct st as [m d]. intros H [H1 [H2 H3]]. cbn [fst snd] in *.
  unfold scan_line in H. destruct m.
  - inversion H; subst. now apply scan_header_names.
  - destruct (blank l); inversion H; subst; repeat split; auto.
  - destruct (startswith "#" (strip l)).
    + bind_inv H as d1 Hd1. inversion H; subst.
      destruct (store_block_names _ _ _ _ _ _ Hd1 (H3 _ eq_refl) H1 H2).
      now apply scan_header_names.
    + destruct (blank l); inversion H; subst; repeat split; auto.
Qed.

Lemma scan_lines_names lines :
  forall st st', scan_lines lines st = Ok st' -> names_ok st -> names_ok st'.
Proof.
  induction lines as [|l r IH]; cbn [scan_lines]; intros st st' H Hn.
  - now inversion H; subst.
  - bind_inv H as st1 H1. eapply IH; eauto. eapply scan_line_names; eauto.
Qed.

Lemma scan_names lines d :
  scan lines = Ok d ->
  NoDup (keys (tables d)) /\ Forall (fun n => name_ok n = true) (keys (tables d)).
Proof.
  unfold scan. intros H. bind_inv H as st Hst.
  assert (Hn : names_ok st).
  { eapply scan_lines_names; eauto. repeat split; [constructor|constructor|].
    discriminate. }
  destruct st as [m d0]. destruct Hn as [H1 [H2 H3]]. cbn [fst snd] in *.
  destruct m; cbn [scan_end] in H.
  - now inversion H; subst.
  - now inversion H; subst.
  - eapply store_block_names; eauto.
Qed.

(** X13: the names under which [parse_jcsv] returns tables are pairwise
    distinct, and each is a non-empty string of letters, digits and
    underscores. *)
Theorem X13_table_names (content : string) (tbls : dict DataFrame) :
  parse_jcsv content = Ok tbls ->
  NoDup (keys tbls) /\ Forall (fun n => name_ok n = true) (keys tbls).
Proof.
  unfold parse_jcsv, parse_lines. intros H. bind_inv H as mr Hmr.
  unfold parse_blocks in H. bind_inv H as d Hd.
  destruct (scan_names _ _ Hd) as [H1 H2].
  destruct (resolve_refs_state _ _ _ (scan_metas _ _ Hd) H) as [Hk _].
  now rewrite Hk.
Qed.

Lemma X13_table_names_witness :
  NoDup ["A"; "B"] /\ Forall (fun n => name_ok n = true) ["A"; "B"].
Proof.
  exact (X13_table_names
           (text_of ["#A"; "c"; "1"; "#B{refs=[x]}"; "x"; "A"; "#A"; "c"; "2"])
           [("A", [("c", {| dtype_of := DInt64; cells := [CInt 2] |})]);
            ("B", [("x", {| dtype_of := DObject; cells := [CRef "A"] |})])]
           eq_refl).
Defined.

(** X14: reference resolution keeps the shape of the document.  The tables
    returned have the names of the tables the scanner stored, in the same
    order; each has the columns it had, with as many rows; and a table
    whose block metadata has no [refs] key is returned as the scanner
    stored it. *)
Theorem X14_resolution_keeps_shape (lines : list string) (d : doc)
  (tbls' : dict DataFrame) :
  scan lines = Ok d ->
  parse_blocks lines = Ok tbls' ->
  keys tbls' = keys (tables d) /\
  forall tbl df,
    dict_get (tables d) tbl = Some df ->
    exists df',
      dict_get tbls' tbl = Some df' /\
      columns df' = columns df /\
      (forall col s, dict_get df col = Some s ->
         exists s', dict_get df' col = Some s' /\
                    List.length (cells s') = List.length (cells s)) /\
      ((forall md, dict_get (metas d) tbl = Some md -> dict_get md "refs" = None) ->
       df' = df).
Proof.
  intros Hd H. unfold parse_blocks in H. rewrite Hd in H. cbn [bind] in H.
  destruct (resolve_refs_state _ _ _ (scan_metas _ _ Hd) H) as [Hk Ht].
  split; [exact Hk|]. intros tbl df Hdf.
  destruct (Ht tbl df Hdf) as [df' [Hget Hm]]. exists df'. split; [exact Hget|].
  destruct (dict_get (metas d) tbl) as [md|] eqn:Emd.
  - destruct (dict_get md "refs") as [v|] eqn:Ev.
    + destruct Hm as [Hcols Hcells]. split; [exact Hcols|]. split.
      * intros col s Hs. destruct (Hcells col s Hs) as [s' [Hs' Hc]].
        exists s'. split; auto.
        destruct (mem_str col (iterate v)).
        -- destruct Hc as [b Hc]. rewrite Hc. apply length_map.
        -- now rewrite Hc.
      * intros Hno. specialize (Hno md eq_refl). congruence.
    + subst df'. split; [reflexivity|]. split; [eauto|auto].
  - subst df'. split; [reflexivity|]. split; [eauto|auto].
Qed.

Lemma X14_resolution_keeps_shape_witness :
  keys [("A", [("c", {| dtype_of := DInt64; cells := [CInt 1] |})]);
        ("B", [("x", {| dtype_of := DObject; cells := [CRef "A"] |})])]
  = ["A"; "B"].
Proof.
  exact (proj1
           (X14_resolution_keeps_shape
              [("#A" ++ newline)%string; ("c" ++ newline)%string;
               ("1" ++ newline)%string; ("#B{refs=[x]}" ++ newline)%string;
               ("x" ++ newline)%string; ("A" ++ newline)%string]
              {| tables :=
                   [("A", [("c", {| dtype_of := DInt64; cells := [CInt 1] |})]);
                    ("B", [("x", {| dtype_of := DObject; cells := [CStr "A"] |})])];
                 metas := [("A", []); ("B", [("refs", MList ["x"])])] |}
              [("A", [("c", {| dtype_of := DInt64; cells := [CInt 1] |})]);
               ("B", [("x", {| dtype_of := DObject; cells := [CRef "A"] |})])]
              eq_refl eq_refl)).
Defined.

Lemma resolve_cell_error tbls c e : resolve_cell tbls c = Raise e -> e = unhashable.
Proof. destruct c; cbn [resolve_cell]; intros H; now inversion H. Qed.

Lemma mapM_resolve_ref tbls cs :
  existsb holds_ref cs = true -> mapM (resolve_cell tbls) cs = Raise unhashable.
Proof.
  induction cs as [|c r IH]; [discriminate|].
  cbn [existsb mapM]. intros H.
  destruct (resolve_cell tbls c) as [c'|e] eqn:E.
  - cbn [bind]. destruct c; cbn [holds_ref orb] in H; try discriminate E;
      rewrite IH by auto; reflexivity.
  - cbn [bind]. now rewrite (resolve_cell_error _ _ _ E).
Qed.

Lemma mapM_resolve_error tbls cs e :
  mapM (resolve_cell tbls) cs = Raise e -> e = unhashable.
Proof.
  induction cs as [|c r IH]; [discriminate|].
  cbn [mapM]. destruct (resolve_cell tbls c) as [c'|e'] eqn:E; cbn [bind].
  - destruct (mapM (resolve_cell tbls) r) as [cs'|e'']; cbn [bind];
      [discriminate|]. intros H. inversion H; subst. now apply IH.
  - intros H. inversion H; subst. eapply resolve_cell_error; eauto.
Qed.

Lemma resolve_column_error tbls df col e :
  resolve_column tbls df col = Raise e -> e = unhashable.
Proof.
  unfold resolve_column, apply_refs. destruct (dict_get df col) as [s|]; [|discriminate].
  destruct (mapM (resolve_cell tbls) (cells s)) as [cs|e'] eqn:E; cbn [bind];
    [discriminate|].
  intros H. inversion H; subst. eapply mapM_resolve_error; eauto.
Qed.

Lemma apply_refs_ref tbls s :
  existsb holds_ref (cells s) = true -> apply_refs tbls s = Raise unhashable.
Proof. intros H. unfold apply_refs. now rewrite mapM_resolve_ref. Qed.

Lemma resolve_columns_error tbls cols :
  forall df e, resolve_columns tbls df cols = Raise e -> e = unhashable.
Proof.
  induction cols as [|c r IH]; intros df e; [discriminate|].
  cbn [resolve_columns]. destruct (resolve_column tbls df c) as [df'|e'] eqn:E;
    cbn [bind].
  - apply IH.
  - intros H. inversion H; subst. eapply resolve_column_error; eauto.
Qed.

Lemma resolve_columns_app tbls a :
  forall b df,
    resolve_columns tbls df (a ++ b) =
      (df1 <- resolve_columns tbls df a ;; resolve_columns tbls df1 b).
Proof.
  induction a as [|c r IH]; intros b df; [reflexivity|].
  cbn [app resolve_columns]. destruct (resolve_column tbls df c); cbn [bind]; auto.
Qed.

(** X15: a column that the [refs] list of a block names twice makes the
    resolution fail when one of its cells names a table: the first visit
    puts the table into the cell, and the second visit looks that table up
    as a dictionary key, which raises [TypeError]. *)
Theorem X15_refs_listed_twice (tbls : dict DataFrame) (df : DataFrame)
  (col : string) (s : Series) (n : string) (pre mid post : list string) :
  dict_get df col = Some s ->
  In (CStr n) (cells s) ->
  dict_mem tbls n = true ->
  resolve_columns tbls df (pre ++ col :: mid ++ col :: post) = Raise unhashable.
Proof.
  intros Hs Hin Hn.
  destruct (resolve_columns tbls df (pre ++ col :: mid ++ col :: post))
    as [df'|e] eqn:E; [|now rewrite (resolve_columns_error _ _ _ _ E)].
  exfalso.
  change (pre ++ col :: mid ++ col :: post)
    with (pre ++ (col :: mid) ++ col :: post) in E.
  rewrite app_assoc, resolve_columns_app in E.
  bind_inv E as df1 H1.
  pose proof (resolve_columns_state tbls _ df df1 df [] (col_state_refl tbls df) H1)
    as [_ Hstate].
  destruct (Hstate col s Hs) as [s1 [Hs1 Hc1]].
  cbn [app] in Hc1. rewrite mem_str_app in Hc1.
  assert (Hmem : mem_str col (col :: mid) = true).
  { apply mem_str_in. now left. }
  rewrite Hmem, orb_true_r in Hc1. destruct Hc1 as [b Hc1].
  cbn [resolve_columns] in E. unfold resolve_column at 1 in E.
  rewrite Hs1 in E.
  rewrite apply_refs_ref in E; [discriminate|].
  rewrite Hc1. apply existsb_exists. exists (CRef n). split; [|reflexivity].
  apply in_map_iff. exists (CStr n). split; auto.
  rewrite settled_text. now rewrite Hn.
Qed.

Lemma X15_refs_listed_twice_witness :
  parse_jcsv (text_of ["#A"; "c"; "1"; "#B{refs=[x,x]}"; "x"; "A"]) = Raise unhashable.
Proof.
  pose proof (X15_refs_listed_twice
                [("A", [("c", {| dtype_of := DInt64; cells := [CInt 1] |})]);
                 ("B", [("x", {| dtype_of := DObject; cells := [CStr "A"] |})])]
                [("x", {| dtype_of := DObject; cells := [CStr "A"] |})]
                "x" {| dtype_of := DObject; cells := [CStr "A"] |} "A" [] [] []
                eq_refl (or_introl eq_refl) eq_refl) as H.
  cbn [app] in H.
  unfold parse_jcsv, parse_lines.
  change (read_manifest
            (readlines (text_of ["#A"; "c"; "1"; "#B{refs=[x,x]}"; "x"; "A"])))
    with (@Ok (dict Z * list string)
            ([], with_newlines ["#A"; "c"; "1"; "#B{refs=[x,x]}"; "x"; "A"])).
  cbn [bind snd]. unfold parse_blocks.
  change (scan (with_newlines ["#A"; "c"; "1"; "#B{refs=[x,x]}"; "x"; "A"]))
    with (Ok {| tables :=
                  [("A", [("c", {| dtype_of := DInt64; cells := [CInt 1] |})]);
                   ("B", [("x", {| dtype_of := DObject; cells := [CStr "A"] |})])];
                metas := [("A", []); ("B", [("refs", MList ["x"; "x"])])] |}).
  cbn [bind metas tables resolve_refs dict_get].
  change ("refs" =? "refs")%string with true. cbv iota.
  change (dict_item
            [("A", [("c", {| dtype_of := DInt64; cells := [CInt 1] |})]);
             ("B", [("x", {| dtype_of := DObject; cells := [CStr "A"] |})])] "B")
    with (Ok [("x", {| dtype_of := DObject; cells := [CStr "A"] |})]).
  cbn [bind iterate]. rewrite H. reflexivity.
Defined.

Lemma fold_dtype_target_keeps dts :
  forall acc k,
    In k (keys acc) -> In k (keys (fold_left dtype_target dts acc)).
Proof.
  induction dts as [|[c t] r IH]; intros acc k H; [exact H|].
  cbn [fold_left]. apply IH. rewrite dtype_target_spec.
  destruct (tag_target t); auto.
  rewrite keys_dict_set_cases. destruct (dict_mem acc c); auto.
  apply in_or_app. now left.
Qed.

Lemma fold_dtype_target_in dts :
  forall acc k t tg,
    In (k, t) dts -> tag_target t = Some tg ->
    In k (keys (fold_left dtype_target dts acc)).
Proof.
  induction dts as [|[c t0] r IH]; intros acc k t tg Hin Ht; [contradiction|].
  cbn [fold_left]. destruct Hin as [E|Hin].
  - inversion E; subst. apply fold_dtype_target_keeps.
    rewrite dtype_target_spec, Ht, keys_dict_set_cases.
    destruct (dict_mem acc k) eqn:Em.
    + unfold dict_mem in Em. destruct (dict_get acc k) eqn:Eg; [|discriminate].
      eapply dict_get_in; eauto.
    + apply in_or_app. right. now left.
  - eapply IH; eauto.
Qed.

Lemma check_keys_missing (df : DataFrame) ks k :
  In k ks -> dict_mem df k = false ->
  exists k', check_keys df ks = Raise (KeyError k') /\ dict_mem df k' = false.
Proof.
  induction ks as [|a r IH]; intros Hin Hk; [contradiction|].
  cbn [check_keys]. destruct (dict_mem df a) eqn:Ea.
  - destruct Hin as [->|Hin]; [congruence|]. now apply IH.
  - eauto.
Qed.

(** X16: a [dtypes] entry that tags a column with [int] or [float] while
    the block has no column of that name makes the cast step raise
    [KeyError] for a column the table lacks. *)
Theorem X16_dtypes_absent_column (md : metadata) (dts : dict string)
  (df : DataFrame) (k tag : string) :
  dict_get md "dtypes" = Some (DTypeMap dts) ->
  In (k, tag) dts ->
  tag = "int" \/ tag = "float" ->
  dict_mem df k = false ->
  exists k', apply_dtypes md df = Raise (KeyError k') /\ dict_mem df k' = false.
Proof.
  intros Hmd Hin Htag Hk. unfold apply_dtypes. rewrite Hmd. cbv zeta.
  assert (Ht : exists tg, tag_target tag = Some tg)
    by (destruct Htag as [-> | ->]; eexists; reflexivity).
  destruct Ht as [tg Ht].
  pose proof (fold_dtype_target_in dts [] k tag tg Hin Ht) as Hkeys.
  destruct (fold_left dtype_target dts []) as [|p r] eqn:E; [contradiction|].
  unfold astype.
  destruct (check_keys_missing df (keys (p :: r)) k Hkeys Hk) as [k' [Hc Hk']].
  rewrite Hc. cbn [bind]. eauto.
Qed.

Lemma X16_dtypes_absent_column_witness :
  exists k',
    apply_dtypes (_parse_metadata "dtypes=[id:int,age:float]")
      [("id", {| dtype_of := DInt64; cells := [CInt 1] |})]
    = Raise (KeyError k') /\
    dict_mem [("id", {| dtype_of := DInt64; cells := [CInt 1] |})] k' = false.
Proof.
  exact (X16_dtypes_absent_column (_parse_metadata "dtypes=[id:int,age:float]")
           [("id", "int"); ("age", "float")]
           [("id", {| dtype_of := DInt64; cells := [CInt 1] |})]
           "age" "float" eq_refl (or_intror (or_introl eq_refl))
           (or_intror eq_refl) eq_refl).
Defined.

(** ** The round trip with descriptions *)

Lemma dict_get_In {V : Type} (d : dict V) k v : dict_get d k = Some v -> In (k, v) d.
Proof.
  induction d as [|[k0 v0] r IH]; cbn [dict_get]; [discriminate|].
  destruct (String.eqb_spec k0 k) as [->|_]; intros H.
  - inversion H; subst. now left.
  - right. now apply IH.
Qed.

Lemma desc_chars_lack d :
  all_chars desc_char d = true ->
  has_char "," d = false /\ has_char "[" d = false /\ has_char "]" d = false /\
  has_char DQ d = false /\ all_chars line_char d = true.
Proof.
  intros H. repeat split;
    try (apply (all_chars_has_char desc_char _ _ H); reflexivity).
  eapply all_chars_impl; [|exact H]. intros c Hc. unfold desc_char in Hc.
  do 4 (apply andb_true_iff in Hc; destruct Hc as [Hc _]). exact Hc.
Qed.

Lemma description_chars descriptions name d :
  descriptions_ok descriptions = true ->
  dict_get descriptions name = Some d ->
  all_chars desc_char d = true.
Proof.
  unfold descriptions_ok. intros H Hd. rewrite forallb_forall in H.
  exact (H _ (dict_get_In _ _ _ Hd)).
Qed.

Lemma manifest_desc_chars descriptions name :
  descriptions_ok descriptions = true ->
  all_chars line_char (manifest_desc descriptions name) = true.
Proof.
  intros H. unfold manifest_desc.
  destruct (dict_get descriptions name) as [d|] eqn:E; [|reflexivity].
  destruct (desc_chars_lack d (description_chars _ _ _ H E)) as [Hc [_ [_ [_ Hl]]]].
  now rewrite Hc.
Qed.

Lemma block_meta_cases descriptions name df :
  block_meta descriptions name df =
    match dict_get descriptions name with
    | Some d =>
        if is_empty d then dtypes_text (dtype_specs df)
        else (dtypes_text (dtype_specs df) ++ ",comment="
              ++ wrap DQ (escape_quotes d))%string
    | None => dtypes_text (dtype_specs df)
    end.
Proof.
  pose proof (block_meta_plain name df) as Hp.
  unfold block_meta in *. cbn [dict_get] in Hp. cbv zeta in Hp. cbv zeta.
  rewrite Hp. reflexivity.
Qed.

Lemma parse_block_meta descriptions name df :
  table_ok df = true -> descriptions_ok descriptions = true ->
  _parse_metadata (block_meta descriptions name df) =
    block_metadata descriptions name df.
Proof.
  intros Hdf Hd. unfold block_metadata.
  destruct (dict_get descriptions name) as [d|] eqn:E.
  - destruct (is_empty d) eqn:Ee.
    + rewrite block_meta_cases, E, Ee. now apply written_metadata_parsed.
    + destruct (desc_chars_lack d (description_chars _ _ _ Hd E))
        as [H1 [H2 [H3 [H4 _]]]].
      now apply comment_read_back.
  - rewrite block_meta_cases, E. now apply written_metadata_parsed.
Qed.

Lemma block_meta_chars descriptions name df :
  table_ok df = true -> descriptions_ok descriptions = true ->
  all_chars line_char (block_meta descriptions name df) = true.
Proof.
  intros Hdf Hd. rewrite block_meta_cases.
  pose proof (dtypes_text_line _ (proj2 (proj2 (dtype_specs_ok df Hdf)))) as Ht.
  destruct (dict_get descriptions name) as [d|] eqn:E; [|exact Ht].
  destruct (is_empty d); [exact Ht|].
  destruct (desc_chars_lack d (description_chars _ _ _ Hd E))
    as [_ [_ [_ [Hq Hl]]]].
  rewrite (escape_quotes_none d Hq). unfold wrap.
  change (String DQ (d ++ String DQ "")) with (String DQ "" ++ d ++ String DQ "")%string.
  rewrite !all_chars_app, Ht, Hl. reflexivity.
Qed.

Lemma title_line_chars_with descriptions name df :
  name_ok name = true -> table_ok df = true ->
  descriptions_ok descriptions = true ->
  all_chars line_char (title_line descriptions name df) = true.
Proof.
  intros Hn Hdf Hd. unfold title_line.
  unfold name_ok in Hn. apply andb_true_iff in Hn. destruct Hn as [_ Hn].
  rewrite !all_chars_app.
  rewrite (all_chars_impl is_ident_char line_char name) by
    (auto; intros c Hc; now apply ident_char_facts).
  rewrite block_meta_chars by auto. reflexivity.
Qed.

Lemma header_re_title_with descriptions name df :
  name_ok name = true -> table_ok df = true ->
  descriptions_ok descriptions = true ->
  header_re (strip (title_line descriptions name df ++ newline)) =
    Some (name, Some ("{" ++ block_meta descriptions name df ++ "}")%string).
Proof.
  intros Hn Hdf Hd.
  pose proof (block_meta_chars descriptions name df Hdf Hd) as Hchars.
  unfold title_line.
  set (m := block_meta descriptions name df) in *.
  assert (Hm : has_char LF m = false)
    by (apply (all_chars_has_char line_char); auto).
  rewrite strip_line.
  - now apply header_re_braced.
  - apply trimmed_app; [reflexivity|].
    change (name ++ "{" ++ m ++ "}")%string
      with (name ++ (String "{" m ++ "}"))%string.
    rewrite last_nonspace_app by reflexivity.
    now rewrite last_nonspace_app.
Qed.

Lemma block_metadata_keys descriptions name df :
  dict_get (block_metadata descriptions name df) "dtypes"
    = Some (DTypeMap (dtype_specs df)) /\
  dict_get (block_metadata descriptions name df) "refs" = None.
Proof.
  unfold block_metadata. destruct (dict_get descriptions name) as [d|];
    [destruct (is_empty d)|]; split; reflexivity.
Qed.

Lemma apply_dtypes_same md1 md2 df :
  dict_get md1 "dtypes" = dict_get md2 "dtypes" ->
  apply_dtypes md1 df = apply_dtypes md2 df.
Proof. intros H. unfold apply_dtypes. now rewrite H. Qed.

Lemma inferred_cell_ok s :
  forallb (cell_ok (dtype_of s)) (cells s) = true ->
  forallb (cell_ok (inferred_dtype s)) (cells s) = true.
Proof.
  intros H. unfold inferred_dtype. destruct (cells s) as [|c l]; [reflexivity|].
  destruct (dtype_of s); exact H.
Qed.

Lemma astype_inferred_ok s t :
  forallb (cell_ok (dtype_of s)) (cells s) = true ->
  tag_target (dtype_tag (dtype_of s)) = Some t ->
  exists s',
    astype_series t {| dtype_of := inferred_dtype s; cells := cells s |} = Ok s' /\
    cells s' = cells s /\
    forallb (cell_ok (dtype_of s')) (cells s') = true.
Proof.
  intros H Ht. pose proof H as Hall. rewrite forallb_forall in H.
  unfold astype_series, inferred_dtype. cbn [dtype_of cells].
  destruct (dtype_of s) eqn:E; try discriminate.
  - inversion Ht; subst t.
    assert (Hint : forall c, In c (cells s) -> exists z, c = CInt z).
    { intros c Hc. specialize (H c Hc). destruct c; try discriminate; eauto. }
    pose proof (cast_int_cells (cells s) Hint) as Hcast.
    exists {| dtype_of := DInt64Ext; cells := cells s |}.
    split; [destruct (cells s); cbn [bind]; rewrite Hcast; reflexivity|].
    split; [reflexivity|]. cbn [dtype_of cells]. exact Hall.
  - inversion Ht; subst t.
    assert (Hfl : forall c, In c (cells s) -> (exists r, c = CFloat r) \/ c = CNull).
    { intros c Hc. specialize (H c Hc). destruct c; try discriminate; eauto. }
    pose proof (cast_float_cells (cells s) Hfl) as Hcast.
    exists {| dtype_of := DFloat64; cells := cells s |}.
    split; [destruct (cells s); cbn [bind]; rewrite Hcast; reflexivity|].
    split; [reflexivity|exact Hall].
Qed.

Lemma mapM_columns (f : string * Series -> result (string * Series))
  (Q : Series -> Prop) df :
  (forall c, In c df ->
     exists s', f c = Ok (fst c, s') /\ cells s' = cells (snd c) /\ Q s') ->
  exists df', mapM f df = Ok df' /\ table_content df' = table_content df /\
              Forall (fun c => Q (snd c)) df'.
Proof.
  induction df as [|c r IH]; intros H.
  - exists []. repeat split; constructor.
  - destruct (H c (or_introl eq_refl)) as [s' [Hf [Hs Hq]]].
    destruct IH as [r' [Hr [Hc Hall]]]; [intros x Hx; apply H; now right|].
    exists ((fst c, s') :: r'). cbn [mapM]. rewrite Hf, Hr. cbn [bind].
    split; [reflexivity|]. split.
    + unfold table_content in *. cbn [map fst snd]. now rewrite Hs, Hc.
    + constructor; auto.
Qed.

(** The cast the written tags ask for gives a table of the round trip. *)
Lemma apply_dtypes_inferred_ok df :
  table_ok df = true ->
  exists df', apply_dtypes (written_metadata df) (inferred df) = Ok df' /\
              table_content df' = table_content df /\
              Forall (fun c : string * Series =>
                        forallb (cell_ok (dtype_of (snd c))) (cells (snd c)) = true)
                     df'.
Proof.
  intros H. pose proof (table_ok_columns df H) as Hc.
  pose proof (table_ok_nodup df H) as Hnd.
  unfold apply_dtypes, written_metadata. cbn [dict_get].
  change ("dtypes" =? "dtypes")%string with true. cbv iota.
  assert (Hkeys : keys (dtype_specs df) = columns df).
  { unfold dtype_specs, columns, keys. rewrite map_map. reflexivity. }
  assert (Hcont : table_content (inferred df) = table_content df).
  { unfold table_content, inferred. rewrite map_map. reflexivity. }
  destruct (fold_left dtype_target (dtype_specs df) []) as [|p dm] eqn:E.
  - exists (inferred df). split; [reflexivity|]. split; [exact Hcont|].
    unfold inferred. apply Forall_map. eapply Forall_impl; [|exact Hc].
    intros c [_ [_ [_ Hcells]]]. cbn [snd dtype_of cells].
    now apply inferred_cell_ok.
  - rewrite <- E. unfold astype.
    rewrite check_keys_ok.
    2:{ intros k Hk. apply keys_fold_dtype_target in Hk.
        destruct Hk as [[]|Hk]. rewrite Hkeys in Hk.
        unfold inferred, keys. rewrite map_map. exact Hk. }
    cbn [bind].
    destruct (mapM_columns
                (fun c : string * Series =>
                   match dict_get (fold_left dtype_target (dtype_specs df) [])
                           (fst c) with
                   | Some t => s <- astype_series t (snd c) ;; Ok (fst c, s)
                   | None => Ok c
                   end)
                (fun s => forallb (cell_ok (dtype_of s)) (cells s) = true)
                (inferred df)) as [df' [Hm [Hdf' Hall]]].
    + intros c Hin. unfold inferred in Hin. apply in_map_iff in Hin.
      destruct Hin as [[k s] [<- Hin]]. cbn [fst snd].
      rewrite fold_dtype_target by (rewrite Hkeys; exact Hnd).
      rewrite dict_get_dtype_specs.
      rewrite (dict_get_in_nodup df k s Hnd Hin). cbn [dict_get].
      rewrite Forall_forall in Hc. destruct (Hc _ Hin) as [_ [_ [_ Hcells]]].
      cbn [fst snd] in Hcells.
      destruct (tag_target (dtype_tag (dtype_of s))) as [t|] eqn:Et.
      * destruct (astype_inferred_ok s t Hcells Et) as [s' [Hs' [Hcs Hok]]].
        rewrite Hs'. cbn [bind]. eauto.
      * eexists. split; [reflexivity|]. split; [reflexivity|].
        cbn [dtype_of cells]. now apply inferred_cell_ok.
    + exists df'. split; auto. split; [congruence|exact Hall].
Qed.

Lemma content_columns df' :
  forall df,
    table_content df' = table_content df ->
    Forall2 (fun c' c : string * Series =>
               fst c' = fst c /\ cells (snd c') = cells (snd c)) df' df.
Proof.
  induction df' as [|c' r' IH]; intros df H; destruct df as [|c r];
    try discriminate; constructor.
  - unfold table_content in H. cbn [map] in H. inversion H. auto.
  - apply IH. unfold table_content in *. cbn [map] in H. now inversion H.
Qed.

Lemma columns_ok_content n df' df :
  Forall2 (fun c' c : string * Series =>
             fst c' = fst c /\ cells (snd c') = cells (snd c)) df' df ->
  forallb (column_ok n) df = true ->
  Forall (fun c : string * Series =>
            forallb (cell_ok (dtype_of (snd c))) (cells (snd c)) = true) df' ->
  forallb (column_ok n) df' = true.
Proof.
  induction 1 as [|c' c r' r [Hf Hc] Hr IH]; intros Hok Hall; [reflexivity|].
  cbn [forallb] in *. apply andb_true_iff in Hok. destruct Hok as [Hc0 Hr0].
  inversion Hall as [|? ? Hcell Hall']; subst.
  apply andb_true_iff. split; [|now apply IH].
  unfold column_ok in *.
  apply andb_true_iff in Hc0. destruct Hc0 as [Hc0 _].
  apply andb_true_iff in Hc0. destruct Hc0 as [Hc0 Hlen].
  apply andb_true_iff in Hc0. destruct Hc0 as [Hchars Htrim].
  now rewrite Hcell, Hf, Hc, Hchars, Htrim, Hlen.
Qed.

Lemma table_ok_content df df' :
  table_ok df = true ->
  table_content df' = table_content df ->
  Forall (fun c : string * Series =>
            forallb (cell_ok (dtype_of (snd c))) (cells (snd c)) = true) df' ->
  table_ok df' = true.
Proof.
  intros H Hc Hall. pose proof (content_columns df' df Hc) as Hrel.
  unfold table_ok in *.
  apply andb_true_iff in H. destruct H as [H H3].
  apply andb_true_iff in H. destruct H as [H1 H2].
  assert (Hcols : columns df' = columns df).
  { unfold columns, keys. clear - Hrel.
    induction Hrel as [|c' c r' r [Hf _] _ IH]; [reflexivity|].
    cbn [map]. now rewrite Hf, IH. }
  assert (Hlen : len_df df' = len_df df).
  { destruct Hrel as [|[n' s'] [n s] r' r [_ Hcs] _]; [reflexivity|].
    cbn [len_df snd] in *. now rewrite Hcs. }
  assert (Hfirst : first_column_ok df' = first_column_ok df).
  { destruct Hrel as [|[n' s'] [n s] r' r [_ Hcs] _]; [reflexivity|].
    cbn [first_column_ok snd] in *. now rewrite Hcs. }
  rewrite Hfirst, H1, Hcols, H2, Hlen. cbn [andb].
  eapply columns_ok_content; eauto.
Qed.

(** One written block with its description, read by the scanner. *)
Lemma scan_block_with descriptions st d t :
  descriptions_ok descriptions = true ->
  seeking (fst st) = false ->
  scan_end st = Ok d ->
  name_ok (fst t) = true -> table_ok (snd t) = true ->
  nul_free (snd t) = true ->
  exists st' df',
    scan_lines (with_newlines (block_lines_with descriptions t)) st = Ok st' /\
    seeking (fst st') = false /\
    scan_end st' =
      Ok {| tables := dict_set (tables d) (fst t) df';
            metas := dict_set (metas d) (fst t)
                       (block_metadata descriptions (fst t) (snd t)) |} /\
    table_content df' = table_content (snd t) /\
    table_ok df' = true.
Proof.
  intros Hd Hseek Hend Hn Hdf Hnul. destruct t as [name df]. cbn [fst snd] in *.
  destruct (apply_dtypes_inferred_ok df Hdf) as [df' [Hcast [Hcontent Hcells]]].
  destruct (columns_record df Hdf) as [f [r [Ecols [Hf Hp]]]].
  pose proof (line_chars_nolf _ (record_line_chars _ Hp)) as Hcn.
  rewrite Ecols in Hp.
  destruct (record_line_first f r Hp Hf) as [a [s [El [Ha _]]]].
  rewrite <- Ecols in El.
  eexists. exists df'.
  unfold block_lines_with. cbn [fst snd].
  change (with_newlines
            (EmptyString :: title_line descriptions name df
               :: map record_line (csv_records df)))
    with (newline :: (title_line descriptions name df ++ newline)%string
            :: (record_line (columns df) ++ newline)%string
            :: with_newlines
                 (map record_line (map (row_fields df) (seq 0 (len_df df))))).
  cbn [scan_lines]. rewrite (scan_line_idle st Hseek). cbn [bind].
  destruct st as [m d0]. cbn [fst] in Hseek.
  rewrite (scan_line_header _ m d0 name _ Hseek
             (header_re_title_with descriptions name df Hn Hdf Hd)).
  rewrite Hend. cbn [bind].
  unfold header_metadata.
  change (slice_1_m1 ("{" ++ block_meta descriptions name df ++ "}"))
    with (drop_last (block_meta descriptions name df ++ "}")).
  rewrite drop_last_app, (parse_block_meta descriptions name df Hdf Hd).
  unfold scan_line at 1. rewrite El, (blank_line_first a s Ha). rewrite <- El.
  rewrite (rstrip_nl_line _ Hcn). cbn [bind].
  rewrite scan_body.
  - split; [reflexivity|]. split; [reflexivity|].
    cbn [scan_end app]. unfold store_block.
    change (record_line (columns df)
              :: map record_line (map (row_fields df) (seq 0 (len_df df))))
      with (map record_line (csv_records df)).
    rewrite (read_csv_records df Hdf Hnul). cbn [bind].
    rewrite (apply_dtypes_same _ (written_metadata df))
      by (apply (proj1 (block_metadata_keys descriptions name df))).
    rewrite Hcast. cbn [bind].
    split; [reflexivity|]. split; [exact Hcontent|].
    eapply table_ok_content; eauto.
  - apply Forall_map. apply Forall_map. apply Forall_forall. intros i _.
    now apply row_line_body.
Qed.

Lemma scan_blocks_with descriptions tbls :
  descriptions_ok descriptions = true ->
  forall st d,
    seeking (fst st) = false ->
    scan_end st = Ok d ->
    Forall (fun t : string * DataFrame =>
              name_ok (fst t) = true /\ table_ok (snd t) = true) tbls ->
    Forall (fun t : string * DataFrame => nul_free (snd t) = true) tbls ->
    NoDup (keys (tables d) ++ keys tbls) ->
    NoDup (keys (metas d) ++ keys tbls) ->
    exists st' tbls',
      scan_lines
        (with_newlines (List.concat (map (block_lines_with descriptions) tbls))) st
        = Ok st' /\
      seeking (fst st') = false /\
      scan_end st' = Ok {| tables := tables d ++ tbls';
                           metas := metas d ++ recorded_metas_with descriptions tbls |} /\
      content tbls' = content tbls /\
      Forall (fun t : string * DataFrame =>
                name_ok (fst t) = true /\ table_ok (snd t) = true) tbls'.
Proof.
  intros Hd. induction tbls as [|t r IH]; intros st d Hseek Hend Hall Hnul Hnt Hnm.
  - exists st, []. cbn [map List.concat with_newlines scan_lines recorded_metas_with].
    rewrite !app_nil_r. destruct d. auto.
  - inversion Hall as [|? ? [Hn Hdf] Hr]; subst.
    inversion Hnul as [|? ? Hnu Hnur]; subst.
    destruct (scan_block_with descriptions st d t Hd Hseek Hend Hn Hdf Hnu)
      as [st1 [df' [Hscan [Hseek1 [Hend1 [Hcontent Hok]]]]]].
    cbn [keys map] in Hnt, Hnm. fold (keys r) in Hnt, Hnm.
    rewrite dict_set_fresh in Hend1.
    2:{ apply NoDup_remove_2 in Hnt. intros Hin. apply Hnt.
        apply in_or_app. now left. }
    rewrite dict_set_fresh in Hend1.
    2:{ apply NoDup_remove_2 in Hnm. intros Hin. apply Hnm.
        apply in_or_app. now left. }
    destruct (IH st1 _ Hseek1 Hend1 Hr Hnur)
      as [st2 [tbls' [Hscan2 [Hseek2 [Hend2 [Hc2 Hok2]]]]]].
    + cbn [tables]. rewrite keys_app, <- app_assoc. exact Hnt.
    + cbn [metas]. rewrite keys_app, <- app_assoc. exact Hnm.
    + exists st2, ((fst t, df') :: tbls').
      cbn [map List.concat]. rewrite with_newlines_app, scan_lines_app.
      rewrite Hscan. cbn [bind]. rewrite Hscan2.
      split; [reflexivity|]. split; [exact Hseek2|].
      rewrite Hend2. cbn [tables metas recorded_metas_with map].
      rewrite <- !app_assoc. split; [reflexivity|]. split.
      * cbn [content map fst snd]. fold (content tbls'). fold (content r).
        now rewrite Hcontent, Hc2.
      * constructor; auto.
Qed.

Lemma recorded_metas_with_no_refs descriptions tbls :
  Forall (fun p : string * metadata => dict_get (snd p) "refs" = None)
    (recorded_metas_with descriptions tbls).
Proof.
  unfold recorded_metas_with. apply Forall_map. apply Forall_forall.
  intros t _. cbn [snd]. apply block_metadata_keys.
Qed.

Lemma write_block_lines_with descriptions t :
  table_ok (snd t) = true ->
  write_block descriptions t = Ok (text_of (block_lines_with descriptions t)).
Proof.
  intros H. unfold write_block. rewrite to_csv_records by auto. cbn [bind].
  unfold block_lines_with. rewrite !text_of_cons. reflexivity.
Qed.

Lemma manifest_row_line_with descriptions tbls name :
  NoDup (keys tbls) -> In name (keys tbls) ->
  manifest_row (compute_start_lines tbls) descriptions name =
    Ok (manifest_line name (start_line_of tbls name)
          (manifest_desc descriptions name) ++ newline)%string.
Proof.
  intros Hnd Hin. destruct (in_keys_nth tbls name Hin) as [k [df Hk]].
  pose proof (start_lines_loop_get tbls (first_cursor tbls) [] k name df Hnd Hk)
    as Hget.
  unfold manifest_row, start_line_of, dict_item. fold (compute_start_lines tbls) in Hget.
  rewrite Hget. cbv zeta. cbn [bind]. f_equal.
  unfold manifest_line, manifest_desc. rewrite !sapp_assoc. reflexivity.
Qed.

Lemma export_written_with descriptions tbls :
  tables_ok tbls = true ->
  export_jcsv tbls descriptions = Ok (text_of (doc_lines_with descriptions tbls)).
Proof.
  unfold tables_ok. intros H. apply andb_true_iff in H. destruct H as [Hnd Hall].
  apply nodupb_NoDup in Hnd. rewrite forallb_forall in Hall.
  unfold export_jcsv. cbv zeta.
  rewrite (mapM_ok_map _
             (fun name => (manifest_line name (start_line_of tbls name)
                             (manifest_desc descriptions name)
                           ++ newline)%string)).
  2:{ intros name Hin. now apply manifest_row_line_with. }
  cbn [bind].
  rewrite (mapM_ok_map _ (fun t => text_of (block_lines_with descriptions t))).
  2:{ intros t Hin. apply write_block_lines_with. specialize (Hall t Hin).
      apply andb_true_iff in Hall. destruct Hall as [Hall _].
      apply andb_true_iff in Hall. tauto. }
  cbn [bind]. f_equal. unfold doc_lines_with.
  rewrite concat_text_of. rewrite !text_of_app.
  change (text_of ["#manifest"; "table,start_line,description"])
    with ("#manifest" ++ newline ++ "table,start_line,description" ++ newline)%string.
  rewrite !sapp_assoc. do 4 f_equal.
  unfold text_of, manifest_lines_with. rewrite map_map. reflexivity.
Qed.

(** A written manifest row is read without error, whatever its
    description. *)
Lemma written_row_reads name z desc :
  name_ok name = true ->
  row_reads ["table"; "start_line"; "description"]
    (manifest_line name z desc ++ newline) = true.
Proof.
  intros Hn. destruct (name_ok_first name Hn) as [a [s [E [Ha Hchars]]]].
  destruct (ident_char_facts a Ha) as [Hsp [Hh _]].
  set (w := rstrip (desc ++ newline)).
  assert (Hstrip : strip (manifest_line name z desc ++ newline)
                   = (name ++ String "," (str_of_Z z ++ String "," w))%string).
  { assert (Hline : (manifest_line name z desc ++ newline)%string
                    = ((name ++ (String "," (str_of_Z z) ++ ","))
                       ++ (desc ++ newline))%string).
    { unfold manifest_line. rewrite !sapp_assoc. reflexivity. }
    unfold strip. rewrite Hline.
    assert (Hl : lstrip ((name ++ (String "," (str_of_Z z) ++ ","))
                         ++ (desc ++ newline))
                 = ((name ++ (String "," (str_of_Z z) ++ ","))
                    ++ (desc ++ newline))%string).
    { rewrite E. cbn [append]. now rewrite lstrip_first. }
    rewrite Hl, rstrip_app_nonspace.
    - fold w. rewrite !sapp_assoc. reflexivity.
    - rewrite last_nonspace_app by reflexivity.
      now rewrite last_nonspace_app. }
  unfold row_reads. cbv zeta. unfold manifest_row_line. rewrite Hstrip.
  rewrite E at 1 2. cbn [append is_empty startswith orb negb]. rewrite Hh.
  cbn [negb andb].
  unfold comma_fields.
  rewrite split_comma_app by (now apply ident_chars_no_comma).
  rewrite split_comma_app by
    (apply (all_chars_has_char num_char); [apply num_chars_str_of_Z|reflexivity]).
  destruct (split_nonempty "," w) as [h [t ->]].
  cbn [map].
  rewrite (strip_num (str_of_Z z) (num_chars_str_of_Z _)).
  change (dict_zip [] ["table"; "start_line"; "description"]
            (strip name :: str_of_Z z :: strip h :: map strip t))
    with [("table", strip name); ("start_line", str_of_Z z);
          ("description", strip h)].
  change (dict_mem [("table", strip name); ("start_line", str_of_Z z);
                    ("description", strip h)] "table") with true.
  change (dict_get [("table", strip name); ("start_line", str_of_Z z);
                    ("description", strip h)] "start_line")
    with (Some (str_of_Z z)).
  cbv iota beta. now rewrite py_int_str_of_Z.
Qed.

Lemma block_lines_with_start descriptions tbls :
  rows_end (with_newlines (List.concat (map (block_lines_with descriptions) tbls)))
    = true.
Proof. destruct tbls as [|t r]; reflexivity. Qed.

Lemma block_lines_with_chars descriptions t :
  descriptions_ok descriptions = true ->
  name_ok (fst t) = true -> table_ok (snd t) = true ->
  Forall (fun l => all_chars line_char l = true) (block_lines_with descriptions t).
Proof.
  intros Hd Hn Hdf. unfold block_lines_with. constructor; [reflexivity|].
  constructor; [now apply title_line_chars_with|].
  unfold csv_records. cbn [map]. constructor.
  - apply record_line_chars. destruct (columns_record _ Hdf) as [f [r [_ [_ Hp]]]].
    exact Hp.
  - apply Forall_map. apply Forall_map. apply Forall_forall. intros i _.
    apply record_line_chars. now apply row_fields_plain.
Qed.

Lemma manifest_line_chars_with name z desc :
  name_ok name = true -> all_chars line_char desc = true ->
  all_chars line_char (manifest_line name z desc) = true.
Proof.
  intros H Hd. destruct (name_ok_first name H) as [a [s [_ [_ Hall]]]].
  unfold manifest_line. rewrite !all_chars_app.
  rewrite (all_chars_impl is_ident_char line_char name) by
    (auto; intros c Hc; now apply ident_char_facts).
  rewrite (all_chars_impl num_char line_char (str_of_Z z)).
  - now rewrite Hd.
  - intros c Hc. apply plain_char_line. now apply num_char_plain.
  - apply num_chars_str_of_Z.
Qed.

Lemma doc_lines_with_chars descriptions tbls :
  descriptions_ok descriptions = true ->
  tables_ok tbls = true ->
  Forall (fun l => all_chars line_char l = true) (doc_lines_with descriptions tbls).
Proof.
  intros Hd H. destruct (tables_ok_facts tbls H) as [_ Hall].
  unfold doc_lines_with. apply Forall_app. split.
  - repeat constructor.
  - apply Forall_app. split.
    + unfold manifest_lines_with, keys. apply Forall_map. apply Forall_map.
      eapply Forall_impl; [|exact Hall]. intros t [Hn _].
      apply manifest_line_chars_with; auto. now apply manifest_desc_chars.
    + apply Forall_concat. apply Forall_map.
      eapply Forall_impl; [|exact Hall]. intros t [Hn Hdf].
      now apply block_lines_with_chars.
Qed.

Lemma content_keys tbls' tbls : content tbls' = content tbls -> keys tbls' = keys tbls.
Proof.
  intros H. unfold keys.
  assert (Hc : forall t : dict DataFrame, map fst t = map fst (content t)).
  { intros t. unfold content. rewrite map_map. reflexivity. }
  now rewrite (Hc tbls'), (Hc tbls), H.
Qed.

(** The writer followed by the parser, descriptions included: the tables
    read back have the content of the tables written, and are again tables
    of the round trip. *)
Lemma round_trip_with descriptions tbls :
  tables_ok tbls = true ->
  descriptions_ok descriptions = true ->
  exists text tbls',
    export_jcsv tbls descriptions = Ok text /\
    parse_jcsv text = Ok tbls' /\
    content tbls' = content tbls /\
    tables_ok tbls' = true.
Proof.
  intros H Hd. destruct (tables_ok_facts tbls H) as [Hnd Hall].
  destruct (scan_blocks_with descriptions tbls Hd (Scanning, empty_doc) empty_doc
              eq_refl eq_refl Hall (tables_ok_nul tbls H) Hnd Hnd)
    as [st' [tbls' [Hscan [_ [Hend [Hc Hok]]]]]].
  exists (text_of (doc_lines_with descriptions tbls)), tbls'.
  split; [now apply export_written_with|].
  assert (Hrows : Forall (fun l => row_reads ["table"; "start_line"; "description"] l
                                   = true)
                    (with_newlines
                       (manifest_lines_with descriptions (start_line_of tbls)
                          (keys tbls)))).
  { unfold with_newlines, manifest_lines_with, keys. rewrite !map_map.
    apply Forall_map. eapply Forall_impl; [|exact Hall].
    intros t [Hn _]. now apply written_row_reads. }
  destruct (manifest_rows_read _ _ _ [] Hrows
              (block_lines_with_start descriptions tbls)) as [m Hm].
  split; [|split; [exact Hc|]].
  - unfold parse_jcsv.
    rewrite readlines_text_of by (now apply doc_lines_with_chars).
    unfold parse_lines, doc_lines_with. rewrite !with_newlines_app.
    change (with_newlines ["#manifest"; "table,start_line,description"] ++
            with_newlines
              (manifest_lines_with descriptions (start_line_of tbls) (keys tbls)) ++
            with_newlines (List.concat (map (block_lines_with descriptions) tbls)))
      with (("#manifest" ++ newline)%string
              :: ("table,start_line,description" ++ newline)%string
              :: (with_newlines
                    (manifest_lines_with descriptions (start_line_of tbls)
                       (keys tbls)) ++
                  with_newlines
                    (List.concat (map (block_lines_with descriptions) tbls)))).
    rewrite read_manifest_header, Hm. cbn [bind snd].
    unfold parse_blocks, scan. rewrite Hscan. cbn [bind]. rewrite Hend. cbn [bind].
    cbn [metas tables empty_doc app].
    apply resolve_refs_none. apply recorded_metas_with_no_refs.
  - pose proof (tables_nul_content tbls tbls' Hc (tables_ok_nul tbls H)) as Hnul.
    unfold tables_ok in *. apply andb_true_iff in H. destruct H as [Hnb _].
    rewrite (content_keys _ _ Hc), Hnb. cbn [andb].
    apply forallb_forall. intros t Hin. rewrite Forall_forall in Hok, Hnul.
    destruct (Hok t Hin) as [Hn Ht]. now rewrite Hn, Ht, (Hnul t Hin).
Qed.

(** X17: round trip with descriptions.  For a table map of the round trip
    and descriptions that hold no line break, comma, bracket or double
    quote, the writer produces a text from which the parser reads a table
    map with the same table names, the same columns and the same rows. *)
Theorem X17_round_trip_with_descriptions (tbls : dict DataFrame)
  (descriptions : dict string) :
  tables_ok tbls = true ->
  descriptions_ok descriptions = true ->
  exists text tbls',
    export_jcsv tbls descriptions = Ok text /\
    parse_jcsv text = Ok tbls' /\
    content tbls' = content tbls.
Proof.
  intros H Hd.
  destruct (round_trip_with descriptions tbls H Hd) as [text [tbls' [H1 [H2 [H3 _]]]]].
  eauto.
Qed.

Lemma X17_round_trip_with_descriptions_witness :
  exists text tbls',
    export_jcsv t1_example [("t1", "Core user profiles")] = Ok text /\
    parse_jcsv text = Ok tbls' /\
    content tbls' = content t1_example.
Proof.
  exact (X17_round_trip_with_descriptions t1_example
           [("t1", "Core user profiles")] eq_refl eq_refl).
Defined.

(** X18: what the parser reads back from a written table map of the round
    trip can be written and parsed again, and the second round trip still
    gives the names, the columns and the rows of the first table map. *)
Theorem X18_round_trip_twice (tbls : dict DataFrame)
  (descriptions : dict string) :
  tables_ok tbls = true ->
  descriptions_ok descriptions = true ->
  exists text tbls' text' tbls'',
    export_jcsv tbls descriptions = Ok text /\
    parse_jcsv text = Ok tbls' /\
    export_jcsv tbls' descriptions = Ok text' /\
    parse_jcsv text' = Ok tbls'' /\
    content tbls'' = content tbls.
Proof.
  intros H Hd.
  destruct (round_trip_with descriptions tbls H Hd)
    as [text [tbls' [H1 [H2 [H3 H4]]]]].
  destruct (round_trip_with descriptions tbls' H4 Hd)
    as [text' [tbls'' [H5 [H6 [H7 _]]]]].
  exists text, tbls', text', tbls''. repeat split; auto. congruence.
Qed.

Lemma X18_round_trip_twice_witness :
  exists text tbls' text' tbls'',
    export_jcsv t1_example [] = Ok text /\
    parse_jcsv text = Ok tbls' /\
    export_jcsv tbls' [] = Ok text' /\
    parse_jcsv text' = Ok tbls'' /\
    content tbls'' = content t1_example.
Proof. exact (X18_round_trip_twice t1_example [] eq_refl eq_refl). Defined.

(** * Properties of the editor *)

Lemma dict_mem_set {V : Type} (d : dict V) k v k' :
  dict_mem (dict_set d k v) k' = (String.eqb k k' || dict_mem d k').
Proof.
  unfold dict_mem. destruct (String.eqb_spec k k') as [->|Hne].
  - now rewrite dict_get_set_same.
  - now rewrite dict_get_set_other.
Qed.

Lemma editor_header_name line n m :
  Editor.header_match line = Some (n, m) -> name_ok n = true.
Proof.
  destruct line as [|c r]; [discriminate|].
  destruct c as [[] [] [] [] [] [] [] []]; try discriminate.
  cbn [Editor.header_match]. pose proof (span_all is_ident_char r) as Hall.
  destruct (span is_ident_char r) as [name rest]. cbn [fst] in Hall.
  destruct (is_empty name) eqn:E; [discriminate|].
  intros H. assert (Hn : n = name).
  { destruct rest as [|a r']; [now inversion H|].
    destruct a as [[] [] [] [] [] [] [] []]; try (now inversion H).
    destruct (Editor.upto_last "}" (Editor.before_lf r')); now inversion H. }
  subst n. unfold name_ok. now rewrite E, Hall.
Qed.

Lemma editor_flush_inv st : editor_inv st -> editor_inv (Editor.flush st).
Proof.
  intros Hinv. unfold Editor.flush.
  destruct (Editor.current_block st) as [b|] eqn:Eb; [|exact Hinv].
  destruct (Editor.block_lines st) as [|l ls] eqn:El; [exact Hinv|].
  destruct (is_empty b) eqn:Ee; [exact Hinv|].
  destruct Hinv as [H1 [H2 H3]].
  destruct (H2 b Eb) as [Hn Hm]. rewrite El in H3.
  split; [|split].
  - cbn [Editor.blocks Editor.metadata]. intros n ls0.
    destruct (String.eqb_spec b n) as [<-|Hne].
    + rewrite dict_get_set_same. intros E. inversion E; subst.
      repeat split; auto. discriminate.
    + rewrite dict_get_set_other by auto. apply H1.
  - cbn [Editor.current_block Editor.metadata]. intros b0 Hb0.
    rewrite <- Eb in Hb0. now apply H2.
  - constructor.
Qed.

Lemma editor_step_inv st line : editor_inv st -> editor_inv (Editor.step st line).
Proof.
  intros Hinv. unfold Editor.step. destruct (startswith "#" line) eqn:Es.
  - pose proof (editor_flush_inv st Hinv) as Hf. cbv zeta.
    destruct (Editor.header_match line) as [[name meta]|] eqn:Eh; [|exact Hf].
    destruct Hf as [H1 [H2 H3]].
    pose proof (editor_header_name _ _ _ Eh) as Hn.
    split; [|split].
    + cbn [Editor.blocks Editor.metadata]. intros n ls Hg.
      destruct (H1 n ls Hg) as [Ha [Hb [Hc Hd]]]. repeat split; auto.
      rewrite dict_mem_set, Hc. apply orb_true_r.
    + cbn [Editor.current_block Editor.metadata]. intros b Hb.
      inversion Hb; subst. split; auto.
      rewrite dict_mem_set, String.eqb_refl. reflexivity.
    + exact H3.
  - destruct (Editor.in_block st); [|exact Hinv].
    destruct Hinv as [H1 [H2 H3]].
    split; [|split]; auto.
    cbn [Editor.block_lines]. apply Forall_app. split; auto.
Qed.

Lemma editor_fold_inv lines :
  forall st, editor_inv st -> editor_inv (fold_left Editor.step lines st).
Proof.
  induction lines as [|l r IH]; intros st H; [exact H|].
  cbn [fold_left]. apply IH. now apply editor_step_inv.
Qed.

(** X19: every block the editor's [parse_jcsv] returns has at least one
    line and no line that starts with [#]; its name is a non-empty string
    of letters, digits and underscores and has a metadata entry.  A block
    whose header no body line follows is not among the blocks. *)
Theorem X19_editor_blocks (raw_text name : string) (ls : list string) :
  dict_get (fst (Editor.parse_jcsv raw_text)) name = Some ls ->
  ls <> [] /\ body_lines ls /\
  dict_mem (snd (Editor.parse_jcsv raw_text)) name = true /\
  name_ok name = true.
Proof.
  unfold Editor.parse_jcsv, Editor.scan. cbv zeta. cbn [fst snd].
  assert (Hinv : editor_inv
                   (Editor.flush
                      (fold_left Editor.step (Editor.splitlines raw_text)
                         Editor.init))).
  { apply editor_flush_inv, editor_fold_inv.
    repeat split; try discriminate; constructor. }
  destruct Hinv as [H1 _]. apply H1.
Qed.

Lemma X19_editor_blocks_witness :
  ["a,b"; "1,2"] <> [] /\ body_lines ["a,b"; "1,2"] /\
  dict_mem (snd (Editor.parse_jcsv (text_of ["#t{x=1}"; "a,b"; "1,2"; "#empty"])))
    "t" = true /\
  name_ok "t" = true.
Proof.
  exact (X19_editor_blocks (text_of ["#t{x=1}"; "a,b"; "1,2"; "#empty"]) "t"
           ["a,b"; "1,2"] eq_refl).
Defined.

Lemma editor_collect_body lines :
  forall st,
    Editor.in_block st = true ->
    body_lines lines ->
    fold_left Editor.step lines st =
      {| Editor.blocks := Editor.blocks st;
         Editor.metadata := Editor.metadata st;
         Editor.current_block := Editor.current_block st;
         Editor.block_lines := Editor.block_lines st ++ lines |}.
Proof.
  induction lines as [|l r IH]; intros st Hin Hb.
  - cbn [fold_left]. rewrite app_nil_r. now destruct st.
  - inversion Hb as [|? ? Hl Hr]; subst. cbn [fold_left].
    unfold Editor.step at 2. rewrite Hl, Hin.
    rewrite IH by auto. cbn [Editor.blocks Editor.metadata Editor.current_block
                              Editor.block_lines].
    now rewrite <- app_assoc.
Qed.

(** X20: in the editor, a line that starts with [#] without being a block
    header ends the lines collected so far, and the body lines after it
    replace them: when body lines follow such a line, the block holds
    these lines only, and the lines collected before it are lost. *)
Theorem X20_editor_stray_hash (st : Editor.state) (b stray : string)
  (after : list string) :
  Editor.current_block st = Some b ->
  is_empty b = false ->
  startswith "#" stray = true ->
  Editor.header_match stray = None ->
  body_lines after ->
  after <> [] ->
  dict_get (Editor.blocks (Editor.scan (stray :: after) st)) b = Some after.
Proof.
  intros Hb Hne Hs Hh Hbody Hnil. unfold Editor.scan. cbn [fold_left].
  unfold Editor.step at 2. rewrite Hs, Hh. cbv zeta.
  set (st1 := Editor.flush st).
  assert (H1 : Editor.current_block st1 = Some b /\ Editor.block_lines st1 = []).
  { unfold st1, Editor.flush. rewrite Hb.
    destruct (Editor.block_lines st) eqn:El; [auto|]. rewrite Hne. auto. }
  destruct H1 as [Hb1 Hl1].
  rewrite editor_collect_body;
    [|unfold Editor.in_block; now rewrite Hb1, Hne|exact Hbody].
  rewrite Hl1. cbn [app]. unfold Editor.flush.
  cbn [Editor.current_block Editor.block_lines]. rewrite Hb1.
  destruct after as [|l r]; [contradiction|]. rewrite Hne.
  cbn [Editor.blocks]. apply dict_get_set_same.
Qed.

Lemma X20_editor_stray_hash_witness :
  dict_get (fst (Editor.parse_jcsv
                   (text_of ["#t"; "a,b"; "1,2"; "# note"; "3,4"])))
    "t" = Some ["3,4"].
Proof.
  refine (X20_editor_stray_hash
            (fold_left Editor.step ["#t"; "a,b"; "1,2"] Editor.init)
            "t" "# note" ["3,4"] eq_refl eq_refl eq_refl eq_refl _ _).
  - repeat constructor.
  - discriminate.
Defined.

Lemma span_append p s :
  (fst (span p s) ++ snd (span p s))%string = s.
Proof.
  induction s as [|c r IH]; [reflexivity|].
  cbn [span]. destruct (p c); [|reflexivity].
  destruct (span p r) as [a b]. cbn [fst snd append] in *. now rewrite IH.
Qed.

Lemma rstrip_with_suffix p a b :
  rstrip_with p (a ++ b) = (a ++ b)%string -> rstrip_with p b = b.
Proof.
  induction a as [|c r IH]; [auto|].
  cbn [append rstrip_with].
  destruct (p c && is_empty (rstrip_with p (r ++ b))); [discriminate|].
  intros H. inversion H as [H1]. apply IH. exact H1.
Qed.

Lemma editor_before_lf s : has_char LF s = false -> Editor.before_lf s = s.
Proof.
  induction s as [|a r IH]; [reflexivity|].
  cbn [has_char Editor.before_lf]. intros H. apply orb_false_iff in H.
  destruct H as [Ha Hr]. now rewrite Ha, IH.
Qed.

Lemma editor_upto_last c s : endswith c s = true -> Editor.upto_last c s = Some s.
Proof.
  induction s as [|a r IH]; [discriminate|].
  destruct r as [|a' r'].
  - cbn [endswith Editor.upto_last]. now intros ->.
  - intros H. change (endswith c (String a (String a' r')))
      with (endswith c (String a' r')) in H.
    change (Editor.upto_last c (String a (String a' r')))
      with (match Editor.upto_last c (String a' r') with
            | Some p => Some (String a p)
            | None => if Ascii.eqb a c then Some (String a EmptyString) else None
            end).
    now rewrite IH.
Qed.

(** X21: every line the parser module takes for a block header (after its
    stripping) is a block header for the editor too, with the same name
    and the same metadata text. *)
Theorem X21_editor_header_agrees (l name : string) (meta : option string) :
  header_re (strip l) = Some (name, meta) ->
  Editor.header_match (strip l) = Some (name, meta).
Proof.
  assert (Hfix : rstrip (strip l) = strip l).
  { unfold strip, rstrip. apply rstrip_with_idem. }
  destruct (strip l) as [|c r]; [discriminate|].
  destruct c as [[] [] [] [] [] [] [] []]; try discriminate.
  cbn [header_re Editor.header_match].
  pose proof (span_append is_ident_char r) as Happ.
  destruct (span is_ident_char r) as [nm rest]. cbn [fst snd] in Happ.
  assert (Hrest : rstrip rest = rest).
  { unfold rstrip in *. apply (rstrip_with_suffix is_space (String "#" nm)).
    cbn [append]. now rewrite Happ. }
  cbv zeta. rewrite Hrest.
  destruct (is_empty nm); [discriminate|].
  destruct rest as [|a r']; [auto|]. cbn [is_empty].
  destruct (startswith "{" (String a r') && endswith "}" (String a r')
            && (2 <=? String.length (String a r'))%nat
            && negb (has_char LF (String a r'))) eqn:E; [|discriminate].
  apply andb_true_iff in E. destruct E as [E Hlf].
  apply andb_true_iff in E. destruct E as [E Hlen].
  apply andb_true_iff in E. destruct E as [Hs He].
  cbn [startswith] in Hs. apply Ascii.eqb_eq in Hs. subst a.
  apply negb_true_iff in Hlf. cbn [has_char] in Hlf.
  change (Ascii.eqb "{" LF) with false in Hlf. cbn [orb] in Hlf.
  destruct r' as [|a' r'']; [discriminate|].
  change (endswith "}" (String "{" (String a' r'')))
    with (endswith "}" (String a' r'')) in He.
  rewrite (editor_before_lf _ Hlf), (editor_upto_last _ _ He). auto.
Qed.

Lemma X21_editor_header_agrees_witness :
  Editor.header_match (strip "  #users{dtypes=[id:int]}  ")
  = Some ("users", Some "{dtypes=[id:int]}").
Proof.
  exact (X21_editor_header_agrees "  #users{dtypes=[id:int]}  " "users"
           (Some "{dtypes=[id:int]}") eq_refl).
Defined.

Lemma editor_match_groups s g n :
  Editor.match_at s = Some (g, n) ->
  exists w, (g = (w, EmptyString) \/ g = (EmptyString, w)) /\
            is_empty w = false /\ all_chars is_ident_char w = true.
Proof.
  unfold Editor.match_at. pose proof (span_all is_ident_char s) as Hall.
  destruct (span is_ident_char s) as [w rest]. cbn [fst] in Hall.
  destruct (is_empty w) eqn:E; [discriminate|].
  destruct rest as [|a r]; [discriminate|].
  destruct a as [[] [] [] [] [] [] [] []]; try discriminate.
  destruct (Editor.bracketed r).
  - intros H. inversion H; subst. eauto.
  - destruct (Editor.no_comma_run r); [discriminate|].
    intros H. inversion H; subst. eauto.
Qed.

Lemma editor_findall_groups s :
  forall k,
    Forall (fun g => exists w, (g = (w, EmptyString) \/ g = (EmptyString, w)) /\
                               is_empty w = false /\
                               all_chars is_ident_char w = true)
           (Editor.findall k s).
Proof.
  induction s as [|c r IH]; intros k; [constructor|].
  cbn [Editor.findall]. destruct k as [|k]; [|apply IH].
  destruct (Editor.match_at (String c r)) as [[g n]|] eqn:E; [|apply IH].
  constructor; [|apply IH]. eapply editor_match_groups; eauto.
Qed.

Lemma editor_collect_skips pairs :
  forall md,
    Forall (fun g => exists w, (g = (w, EmptyString) \/ g = (EmptyString, w)) /\
                               is_empty w = false /\
                               all_chars is_ident_char w = true) pairs ->
    Editor.collect pairs md = inr md.
Proof.
  induction pairs as [|g r IH]; intros md H; [reflexivity|].
  inversion H as [|? ? [w [Hg [Hne Hall]]] Hr]; subst.
  cbn [Editor.collect].
  assert (Hitem : Editor.first_nonempty g = inr w).
  { unfold Editor.first_nonempty.
    destruct Hg as [-> | ->]; cbn [fst snd is_empty negb]; now rewrite Hne. }
  rewrite Hitem, split1_none.
  - now apply IH.
  - apply (all_chars_has_char is_ident_char); auto.
Qed.

(** X22: the editor's metadata form never shows a field and always
    returns the text of an empty metadata block.  Each match of the
    pattern yields the key alone, a word without [=], so no entry is ever
    put into the form: whatever metadata a block had is replaced by two
    braces. *)
Theorem X22_editor_metadata_dropped (text_input : string -> string -> string)
  (meta : string) :
  Editor.edit_metadata text_input meta = inr "{}".
Proof.
  unfold Editor.edit_metadata. cbv zeta.
  rewrite editor_collect_skips by apply editor_findall_groups.
  reflexivity.
Qed.

(** * Further properties of the parser *)

Lemma manifest_rows_prefix cols good :
  forall more acc,
    Forall (fun l => row_reads cols l = true) good ->
    exists acc', manifest_rows cols (good ++ more) acc = manifest_rows cols more acc'.
Proof.
  induction good as [|l r IH]; intros more acc Hall; [exists acc; reflexivity|].
  inversion Hall as [|? ? Hl Hr]; subst.
  unfold row_reads in Hl. cbv zeta in Hl.
  apply andb_true_iff in Hl. destruct Hl as [Hl Hsl].
  apply andb_true_iff in Hl. destruct Hl as [Hrow Ht].
  unfold manifest_row_line in Hrow. apply negb_true_iff in Hrow.
  cbn [app]. cbn [manifest_rows]. cbv zeta. rewrite Hrow.
  unfold dict_item. unfold dict_mem in Ht.
  destruct (dict_get (dict_zip [] cols (comma_fields (strip l))) "start_line")
    as [sl|]; [|discriminate].
  cbn [bind]. destruct (py_int sl) as [n|e]; [|discriminate]. cbn [bind].
  destruct (dict_get (dict_zip [] cols (comma_fields (strip l))) "table")
    as [t|]; [|discriminate].
  cbn [bind]. now apply IH.
Qed.

(** X23: a manifest row whose [start_line] is not an integer makes
    [parse_jcsv] raise the [ValueError] of the conversion, when the rows
    before it are read without error.  The conversion comes first: the
    error is a [ValueError] even when the row has no [table] field. *)
Theorem X23_manifest_start_line_not_integer (content : string)
  (pre : list string) (marker header : string) (good : list string)
  (bad : string) (rest : list string) (sl : string) (e : exn) :
  readlines content = pre ++ marker :: header :: good ++ bad :: rest ->
  Forall (fun b => blank b = true) pre ->
  strip marker = "#manifest" ->
  Forall (fun l => row_reads (comma_fields (strip header)) l = true) good ->
  manifest_row_line bad = true ->
  dict_get (dict_zip [] (comma_fields (strip header)) (comma_fields (strip bad)))
    "start_line" = Some sl ->
  py_int sl = Raise e ->
  parse_jcsv content = Raise e /\ exists w, e = ValueError w.
Proof.
  intros H Hpre Hm Hgood Hrow Hsl He. split; [|eapply py_int_raises; eauto].
  unfold parse_jcsv, parse_lines, read_manifest.
  rewrite H, skip_blank_app by auto. cbn [skip_blank].
  assert (Hb : blank marker = false) by (unfold blank; now rewrite Hm).
  rewrite Hb, Hm.
  change ("#manifest" =? "#manifest")%string with true. cbv iota.
  destruct (manifest_rows_prefix _ good (bad :: rest) [] Hgood) as [acc ->].
  cbn [manifest_rows]. cbv zeta.
  unfold manifest_row_line in Hrow. apply negb_true_iff in Hrow. rewrite Hrow.
  unfold dict_item. rewrite Hsl. cbn [bind]. rewrite He. reflexivity.
Qed.

Lemma X23_manifest_start_line_not_integer_witness :
  exists e,
    parse_jcsv (text_of ["#manifest"; "table,start_line"; "t1,5"; ",five"; "#t1"])
      = Raise e /\
    exists w, e = ValueError w.
Proof.
  destruct (py_int "five") as [n|e] eqn:E; [discriminate E|].
  exists e.
  refine (X23_manifest_start_line_not_integer
            (text_of ["#manifest"; "table,start_line"; "t1,5"; ",five"; "#t1"])
            [] ("#manifest" ++ newline)%string ("table,start_line" ++ newline)%string
            ["t1,5" ++ newline]%string (",five" ++ newline)%string
            ["#t1" ++ newline]%string "five" e
            eq_refl (Forall_nil _) eq_refl _ eq_refl eq_refl E).
  repeat constructor.
Defined.

Lemma dict_set_twice {V : Type} (d : dict V) k v v' :
  dict_set (dict_set d k v) k v' = dict_set d k v'.
Proof.
  induction d as [|[k0 v0] r IH]; cbn [dict_set].
  - now rewrite String.eqb_refl.
  - destruct (String.eqb k0 k) eqn:E; cbn [dict_set]; rewrite E; [reflexivity|].
    now rewrite IH.
Qed.

(** X24: two blocks with the same name.  When a document holds two
    written blocks under one name, of tables without NUL characters, the
    parser returns one table under that name, with the columns and the
    rows of the later block; the table of the earlier block is lost. *)
Theorem X24_later_block_replaces (name : string) (df1 df2 : DataFrame) :
  name_ok name = true -> table_ok df1 = true -> table_ok df2 = true ->
  nul_free df1 = true -> nul_free df2 = true ->
  exists df',
    parse_blocks (with_newlines (block_lines (name, df1) ++ block_lines (name, df2)))
      = Ok [(name, df')] /\
    table_content df' = table_content df2.
Proof.
  intros Hn H1 H2 Hnul1 Hnul2.
  destruct (scan_block (Scanning, empty_doc) empty_doc (name, df1)
              eq_refl eq_refl Hn H1 Hnul1)
    as [st1 [df1' [Hscan1 [Hseek1 [Hend1 _]]]]].
  destruct (scan_block st1 _ (name, df2) Hseek1 Hend1 Hn H2 Hnul2)
    as [st2 [df2' [Hscan2 [_ [Hend2 Hc2]]]]].
  exists df2'. split; [|exact Hc2].
  unfold parse_blocks, scan. rewrite with_newlines_app, scan_lines_app.
  rewrite Hscan1. cbn [bind]. rewrite Hscan2. cbn [bind]. rewrite Hend2.
  cbn [bind tables metas fst snd empty_doc]. rewrite !dict_set_twice.
  cbn [dict_set resolve_refs written_metadata dict_get].
  reflexivity.
Qed.

Lemma X24_later_block_replaces_witness :
  exists df',
    parse_blocks
      (with_newlines
         (block_lines ("t", [("a", {| dtype_of := DInt64; cells := [CInt 1] |})])
          ++ block_lines ("t", [("b", {| dtype_of := DObject;
                                         cells := [CStr "x"; CStr "y"] |})])))
      = Ok [("t", df')] /\
    table_content df' = [("b", [CStr "x"; CStr "y"])].
Proof.
  exact (X24_later_block_replaces "t"
           [("a", {| dtype_of := DInt64; cells := [CInt 1] |})]
           [("b", {| dtype_of := DObject; cells := [CStr "x"; CStr "y"] |})]
           eq_refl eq_refl eq_refl eq_refl eq_refl).
Defined.

Lemma ident_last_nonspace k :
  is_empty k = false -> all_chars is_ident_char k = true -> last_nonspace k = true.
Proof.
  induction k as [|c t IH]; [discriminate|]. intros _ H.
  cbn [all_chars] in H. apply andb_true_iff in H. destruct H as [Hc Ht].
  destruct t as [|c' t'].
  - cbn [last_nonspace]. destruct (ident_char_facts c Hc) as [-> _]. reflexivity.
  - change (last_nonspace (String c (String c' t')))
      with (last_nonspace (String c' t')). now apply IH.
Qed.

Lemma name_trimmed k : name_ok k = true -> trimmed k = true.
Proof.
  intros H. destruct (name_ok_first k H) as [a [s [E [Ha Hall]]]].
  unfold trimmed. rewrite ident_last_nonspace; auto.
  - rewrite E. cbn [first_nonspace]. destruct (ident_char_facts a Ha) as [-> _].
    reflexivity.
  - now rewrite E.
Qed.

Lemma list_token_nested k J :
  name_ok k = true ->
  has_char "[" J = false -> has_char "]" J = false ->
  nested 0 (k ++ "=[" ++ J ++ "]") = true.
Proof.
  intros Hk H1 H2. destruct (name_ok_first k Hk) as [_ [_ [_ [_ Hall]]]].
  rewrite nested_flat.
  - change (nested 0 ("=[" ++ J ++ "]")) with (nested 1 (J ++ "]")).
    rewrite nested_flat by (auto; left; discriminate). reflexivity.
  - apply (all_chars_has_char is_ident_char); auto.
  - apply (all_chars_has_char is_ident_char); auto.
  - right. apply (all_chars_has_char is_ident_char); auto.
Qed.

Lemma list_token_parts k J :
  name_ok k = true ->
  has_char "[" J = false -> has_char "]" J = false ->
  _split_top_commas (k ++ "=[" ++ J ++ "]") = [(k ++ "=[" ++ J ++ "]")%string].
Proof.
  intros Hk H1 H2.
  pose proof (split_top_join [(k ++ "=[" ++ J ++ "]")%string]) as H.
  cbn [join map] in H. rewrite H.
  - f_equal. apply strip_trimmed. pose proof (name_trimmed k Hk) as Ht.
    unfold trimmed in Ht. apply andb_true_iff in Ht. destruct Ht as [Hf _].
    apply trimmed_app; [exact Hf|].
    change ("=[" ++ J ++ "]")%string with (String "=" (String "[" J) ++ "]")%string.
    now rewrite last_nonspace_app.
  - discriminate.
  - constructor; [now apply list_token_nested|constructor].
Qed.

Lemma list_token_value k J md :
  name_ok k = true ->
  parse_token md (k ++ "=[" ++ J ++ "]") =
    dict_set md k
      (MList (map (fun it => strip_quotes (strip it)) (_split_top_commas (strip J)))).
Proof.
  intros Hk. destruct (name_ok_first k Hk) as [_ [_ [_ [_ Hall]]]].
  unfold parse_token.
  change (k ++ "=[" ++ J ++ "]")%string with (k ++ String "=" ("[" ++ J ++ "]"))%string.
  rewrite split1_app by (apply (all_chars_has_char is_ident_char); auto).
  cbv zeta. rewrite (strip_trimmed _ (name_trimmed k Hk)).
  assert (Hval : strip ("[" ++ J ++ "]") = ("[" ++ J ++ "]")%string).
  { apply strip_trimmed. apply trimmed_app; [reflexivity|].
    now rewrite last_nonspace_app. }
  rewrite Hval.
  change (startswith "[" ("[" ++ J ++ "]")) with true.
  change ("[" ++ J ++ "]")%string with ("[" ++ (J ++ "]"))%string.
  rewrite endswith_app by (destruct J; reflexivity).
  rewrite endswith_app by reflexivity.
  change (endswith "]" "]") with true. cbn [andb].
  change (slice_1_m1 ("[" ++ (J ++ "]"))) with (drop_last (J ++ "]")).
  now rewrite drop_last_app.
Qed.

(** X25: a list value.  For a key that is an identifier other than
    [dtypes], the text [key=[i1,...,in]] yields the key with the list of
    the items, each without the quotes around it, when the items have no
    whitespace at their ends and hold no comma or bracket.  Empty brackets
    yield a list of one empty string, not the empty list. *)
Theorem X25_parse_metadata_list (k : string) (items : list string) :
  name_ok k = true ->
  k <> "dtypes" ->
  items <> [] ->
  Forall (fun x => trimmed x = true /\ has_char "," x = false /\
                   has_char "[" x = false /\ has_char "]" x = false) items ->
  _parse_metadata (k ++ "=[" ++ join "," items ++ "]") =
    [(k, MList (map strip_quotes items))] /\
  _parse_metadata (k ++ "=[]") = [(k, MList [EmptyString])].
Proof.
  intros Hk Hne Hitems Hall.
  assert (Hnodt : forall v, dict_get [(k, v)] "dtypes" = @None md_value).
  { intros v. cbn [dict_get]. apply String.eqb_neq in Hne. now rewrite Hne. }
  assert (Htr : Forall (fun x => trimmed x = true) items).
  { eapply Forall_impl; [|exact Hall]. now intros x [H _]. }
  assert (Hch : Forall (fun x => has_char "[" x = false /\ has_char "]" x = false /\
                                 has_char "," x = false) items).
  { eapply Forall_impl; [|exact Hall]. intros x [_ [H1 [H2 H3]]]. auto. }
  assert (HJ : has_char "[" (join "," items) = false /\
               has_char "]" (join "," items) = false).
  { assert (Ha : all_chars (fun c => negb (Ascii.eqb c "[") && negb (Ascii.eqb c "]"))
                   (join "," items) = true).
    { apply all_chars_join; [reflexivity|].
      eapply Forall_impl; [|exact Hch]. intros x [Hx1 [Hx2 _]].
      clear - Hx1 Hx2. induction x as [|a x IH]; cbn [has_char all_chars] in *; auto.
      apply orb_false_iff in Hx1. apply orb_false_iff in Hx2.
      destruct Hx1 as [-> Hx1], Hx2 as [-> Hx2]. cbn [negb andb]. auto. }
    split; apply (all_chars_has_char _ _ _ Ha); reflexivity. }
  destruct HJ as [HJ1 HJ2].
  split.
  - unfold _parse_metadata. rewrite list_token_parts by auto.
    cbn [fold_left]. rewrite list_token_value by auto.
    rewrite (strip_trimmed _ (trimmed_join "," items Hitems Htr)).
    rewrite split_top_commas_items by auto. cbv zeta.
    cbn [dict_set]. rewrite Hnodt. do 3 f_equal.
    rewrite map_map. apply map_ext_in. intros x Hx.
    rewrite Forall_forall in Htr. now rewrite !(strip_trimmed _ (Htr x Hx)).
  - unfold _parse_metadata.
    change (k ++ "=[]")%string with (k ++ "=[" ++ "" ++ "]")%string.
    rewrite list_token_parts by auto.
    cbn [fold_left]. rewrite list_token_value by auto. cbv zeta.
    cbn [dict_set]. now rewrite Hnodt.
Qed.

Lemma X25_parse_metadata_list_witness :
  _parse_metadata ("refs" ++ "=[" ++ join "," ["'a b'"; "c"] ++ "]") =
    [("refs", MList ["a b"; "c"])] /\
  _parse_metadata ("refs" ++ "=[]") = [("refs", MList [EmptyString])].
Proof.
  refine (X25_parse_metadata_list "refs" ["'a b'"; "c"] eq_refl _ _ _).
  - discriminate.
  - discriminate.
  - repeat constructor.
Defined.

Lemma editor_no_header lines :
  forall st,
    Editor.in_block st = false -> body_lines lines ->
    fold_left Editor.step lines st = st.
Proof.
  induction lines as [|l r IH]; intros st Hin Hb; [reflexivity|].
  inversion Hb as [|? ? Hl Hr]; subst. cbn [fold_left].
  unfold Editor.step at 2. rewrite Hl, Hin. now apply IH.
Qed.

(** X26: the editor drops what no block header precedes.  A text in which
    no line starts with [#] gives no block and no metadata, and lines in
    front of the first line that starts with [#] have no effect on the
    result. *)
Theorem X26_editor_lines_before_first_header (before rest : list string) :
  body_lines before ->
  Editor.scan before Editor.init = Editor.init /\
  Editor.scan (before ++ rest) Editor.init = Editor.scan rest Editor.init.
Proof.
  intros H. unfold Editor.scan.
  pose proof (editor_no_header before Editor.init eq_refl H) as Hb.
  split.
  - rewrite Hb. reflexivity.
  - rewrite fold_left_app, Hb. reflexivity.
Qed.

Lemma X26_editor_lines_before_first_header_witness :
  Editor.parse_jcsv (text_of ["a,b"; "1,2"]) = ([], []) /\
  Editor.parse_jcsv (text_of ["a,b"; "1,2"; "#t"; "x"]) =
    Editor.parse_jcsv (text_of ["#t"; "x"]).
Proof.
  destruct (X26_editor_lines_before_first_header ["a,b"; "1,2"] ["#t"; "x"])
    as [H1 H2]; [repeat constructor|].
  unfold Editor.parse_jcsv. cbv zeta.
  change (Editor.splitlines (text_of ["a,b"; "1,2"])) with ["a,b"; "1,2"].
  change (Editor.splitlines (text_of ["a,b"; "1,2"; "#t"; "x"]))
    with (["a,b"; "1,2"] ++ ["#t"; "x"]).
  change (Editor.splitlines (text_of ["#t"; "x"])) with ["#t"; "x"].
  rewrite H1, H2. split; reflexivity.
Defined.
